(** * ActivityPub Web Viewer: the PHP fetch-resolve-normalise pipeline

    A shallow embedding of [php/Validator.php], [php/Note.php],
    [php/Client.php], [php/ErrorResponse.php], [php/SecurityHandler.php],
    the two exception classes and the script [api.php], with the
    functions of the PHP runtime they call, followed by the properties of
    the pipeline.

    PHP strings are byte strings ([string]); PHP integers are [Z]; PHP
    arrays are ordered association lists.  Everything the code reads from
    outside (HTTP replies, the system clock) and the tables of the runtime
    that are too large to write out are fields of one [environment]. *)

From Stdlib Require Import ZArith NArith String Ascii List Bool Lia.
From Stdlib Require Import DecimalString.
Import ListNotations.

Local Open Scope string_scope.
Local Open Scope Z_scope.

(* ================================================================== *)
(** * Bytes and the C character classes the runtime uses              *)
(* ================================================================== *)

Module Ctype.

Definition code (c : ascii) : Z := Z.of_N (N_of_ascii c).

Definition between (lo hi : Z) (c : ascii) : bool :=
  (lo <=? code c) && (code c <=? hi).

Definition ch_eq (c d : ascii) : bool := Ascii.eqb c d.

Definition NUL : ascii := Ascii.zero.

(** The double quote, byte 34. *)
Definition DQUOTE : ascii := "034".

(** [isspace] in the C locale: space, \t, \n, \v, \f, \r. *)
Definition isspace (c : ascii) : bool :=
  (code c =? 32) || between 9 13 c.

Definition isdigit (c : ascii) : bool := between 48 57 c.
Definition isupper (c : ascii) : bool := between 65 90 c.
Definition islower (c : ascii) : bool := between 97 122 c.
Definition isalpha (c : ascii) : bool := isupper c || islower c.
Definition isalnum (c : ascii) : bool := isalpha c || isdigit c.
Definition isxdigit (c : ascii) : bool :=
  isdigit c || between 65 70 c || between 97 102 c.

(** [zend_tolower_ascii]. *)
Definition tolower (c : ascii) : ascii :=
  if isupper c then ascii_of_N (N_of_ascii c + 32) else c.

(** Membership of a byte in a C string used as a set ([strchr]). *)
Fixpoint strchr (set : string) (c : ascii) : bool :=
  match set with
  | EmptyString => false
  | String d rest => ch_eq c d || strchr rest c
  end.

End Ctype.

(* ================================================================== *)
(** * String functions of the PHP runtime                              *)
(* ================================================================== *)

Module Php.

Import Ctype.

Fixpoint strtolower (s : string) : string :=
  match s with
  | EmptyString => EmptyString
  | String c rest => String (tolower c) (strtolower rest)
  end.

(** [str_starts_with($haystack, $needle)]. *)
Definition str_starts_with (haystack needle : string) : bool :=
  String.prefix needle haystack.

(** [strstr(set, norm) != NULL]: [norm] occurs in [set]. *)
Fixpoint strstr (haystack needle : string) : bool :=
  String.prefix needle haystack
  || match haystack with
     | EmptyString => false
     | String _ rest => strstr rest needle
     end.

(** Membership of a string in a list of strings, by its bytes. *)
Definition member (needle : string) (haystack : list string) : bool :=
  existsb (String.eqb needle) haystack.

(** The byte after the cursor, [*(p + 1)]: the terminating NUL at the
    end of the buffer. *)
Definition peek (rest : string) : ascii :=
  match rest with
  | EmptyString => NUL
  | String c _ => c
  end.

(** The byte [k] places before the cursor, [*(p - 1 - k)], when the
    cursor is that far into the buffer; [prev] holds the bytes already
    read, the latest first. *)
Definition back (prev : list ascii) (k : nat) : option ascii := nth_error prev k.

Definition back_is (prev : list ascii) (k : nat) (c : ascii) : bool :=
  match back prev k with
  | Some d => ch_eq d c
  | None => false
  end.

Definition back_is_ci (prev : list ascii) (k : nat) (c : ascii) : bool :=
  match back prev k with
  | Some d => ch_eq (tolower d) c
  | None => false
  end.

(* ---------------------------------------------------------------- *)
(** ** [strip_tags]                                                   *)
(* ---------------------------------------------------------------- *)

(** [php_tag_find]: the tag held in the tag buffer is normalised to
    [<name>] (lower case, the slash of a closing tag and of a
    self-closing tag dropped, attributes cut at the first white space)
    and looked up in the allowed set with [strstr]. *)
Fixpoint tag_normalize (started : bool) (t : string) : string :=
  match t with
  | EmptyString => EmptyString
  | String c0 rest =>
      let c := tolower c0 in
      if ch_eq c "<" then String c (tag_normalize started rest)
      else if ch_eq c ">" then EmptyString
      else if isspace c then
        if started then EmptyString else tag_normalize started rest
      else
        let slash_next := ch_eq (peek rest) ">" in
        let keep :=
          if started then negb (ch_eq c "/") || negb slash_next
          else negb (ch_eq c "/") || slash_next in
        if keep then String c (tag_normalize true rest)
        else tag_normalize true rest
  end.

Definition php_tag_find (tag allow : string) : bool :=
  match tag with
  | EmptyString => false
  | _ => strstr allow (tag_normalize false tag ++ ">")
  end.

(** The states of [php_strip_tags_ex]: 0 outside any tag, 1 inside an
    HTML tag, 2 inside [<?...?>], 3 inside [<!...>], 4 inside an HTML
    comment. *)
Inductive strip_state := S0 | S1 | S2 | S3 | S4.

Record stripper := {
  state : strip_state;
  depth : nat;             (* nested [<] inside a tag *)
  in_q : option ascii;     (* the quote that is open inside a tag *)
  lc : ascii;              (* last significant byte, for state 2 *)
  br : Z;                  (* bracket balance inside [<?...?>] *)
  is_xml : bool;
  tbuf : string            (* tag buffer, kept when tags are allowed *)
}.

Definition stripper_init : stripper :=
  {| state := S0; depth := 0; in_q := None; lc := NUL; br := 0;
     is_xml := false; tbuf := "" |}.

Definition set_state (m : stripper) (s : strip_state) : stripper :=
  {| state := s; depth := depth m; in_q := in_q m; lc := lc m; br := br m;
     is_xml := is_xml m; tbuf := tbuf m |}.
Definition set_depth (m : stripper) (d : nat) : stripper :=
  {| state := state m; depth := d; in_q := in_q m; lc := lc m; br := br m;
     is_xml := is_xml m; tbuf := tbuf m |}.
Definition set_in_q (m : stripper) (q : option ascii) : stripper :=
  {| state := state m; depth := depth m; in_q := q; lc := lc m; br := br m;
     is_xml := is_xml m; tbuf := tbuf m |}.
Definition set_lc (m : stripper) (c : ascii) : stripper :=
  {| state := state m; depth := depth m; in_q := in_q m; lc := c; br := br m;
     is_xml := is_xml m; tbuf := tbuf m |}.
Definition set_br (m : stripper) (b : Z) : stripper :=
  {| state := state m; depth := depth m; in_q := in_q m; lc := lc m; br := b;
     is_xml := is_xml m; tbuf := tbuf m |}.
Definition set_is_xml (m : stripper) (x : bool) : stripper :=
  {| state := state m; depth := depth m; in_q := in_q m; lc := lc m; br := br m;
     is_xml := x; tbuf := tbuf m |}.
Definition set_tbuf (m : stripper) (t : string) : stripper :=
  {| state := state m; depth := depth m; in_q := in_q m; lc := lc m; br := br m;
     is_xml := is_xml m; tbuf := t |}.

(** [*(tp++) = c], done only when a set of allowed tags was given. *)
Definition push (allow : option string) (m : stripper) (c : ascii) : stripper :=
  match allow with
  | Some _ => set_tbuf m (tbuf m ++ String c "")
  | None => m
  end.

(** Opening or closing a quote inside a tag. *)
Definition toggle_quote (m : stripper) (c : ascii) : stripper :=
  match in_q m with
  | None => set_in_q m (Some c)
  | Some q => if ch_eq c q then set_in_q m None else m
  end.

(** Back to state 0 with the tag buffer rewound ([in_q = state = 0;
    tp = tbuf]). *)
Definition leave_tag (m : stripper) : stripper :=
  set_tbuf (set_in_q (set_state m S0) None) "".

(** One byte of input in state 0: the bytes written to the result and
    the next machine. *)
Definition step0 (allow : option string) (m : stripper) (c next : ascii)
  : string * stripper :=
  if ch_eq c NUL then ("", m)
  else if ch_eq c "<" then
    match in_q m with
    | Some _ => ("", m)
    | None =>
        if isspace next then (String c "", m)
        else ("", push allow (set_state (set_lc m "<") S1) "<")
    end
  else if ch_eq c ">" then
    match depth m with
    | S d => ("", set_depth m d)
    | O => match in_q m with
           | Some _ => ("", m)
           | None => (String c "", m)
           end
    end
  else (String c "", m).

Definition step1 (allow : option string) (m : stripper) (prev : list ascii)
  (c next : ascii) : string * stripper :=
  if ch_eq c NUL then ("", m)
  else if ch_eq c "<" then
    match in_q m with
    | Some _ => ("", m)
    | None =>
        if isspace next then ("", push allow m c)
        else ("", set_depth m (S (depth m)))
    end
  else if ch_eq c ">" then
    match depth m with
    | S d => ("", set_depth m d)
    | O =>
        match in_q m with
        | Some _ => ("", m)
        | None =>
            let m1 := set_lc m ">" in
            if is_xml m1 && back_is prev 0 "-" then ("", m1)
            else
              let m2 := set_is_xml (set_in_q (set_state m1 S0) None) false in
              match allow with
              | Some set =>
                  let tag := tbuf m2 ++ ">" in
                  ((if php_tag_find tag (strtolower set) then tag else ""),
                   set_tbuf m2 "")
              | None => ("", m2)
              end
        end
    end
  else if ch_eq c DQUOTE || ch_eq c "'" then
    let m1 := match prev with
              | [] => m
              | _ => toggle_quote m c
              end in
    ("", push allow m1 c)
  else if ch_eq c "!" then
    if back_is prev 0 "<" then ("", set_lc (set_state m S3) c)
    else ("", push allow m c)
  else if ch_eq c "?" then
    if back_is prev 0 "<" then ("", set_state (set_br m 0) S2)
    else ("", push allow m c)
  else ("", push allow m c).

Definition quoted_lc (m : stripper) : bool := ch_eq (lc m) DQUOTE || ch_eq (lc m) "'".

Definition step2 (m : stripper) (prev : list ascii) (c : ascii) : stripper :=
  if ch_eq c "(" then
    if quoted_lc m then m else set_br (set_lc m "(") (br m + 1)
  else if ch_eq c ")" then
    if quoted_lc m then m else set_br (set_lc m ")") (br m - 1)
  else if ch_eq c ">" then
    match depth m with
    | S d => set_depth m d
    | O =>
        match in_q m with
        | Some _ => m
        | None =>
            if (br m =? 0) && negb (ch_eq (lc m) DQUOTE) && back_is prev 0 "?"
            then leave_tag m
            else m
        end
    end
  else if ch_eq c DQUOTE || ch_eq c "'" then
    match prev with
    | [] => m
    | p1 :: _ =>
        if ch_eq p1 "\" then m
        else
          let m1 := if ch_eq (lc m) c then set_lc m NUL
                    else if ch_eq (lc m) "\" then m
                    else set_lc m c in
          toggle_quote m1 c
    end
  else if ch_eq (tolower c) "l" then
    (* [<?xml]: back to an HTML tag *)
    if (5 <=? Z.of_nat (length prev)) && back_is_ci prev 0 "m"
       && back_is_ci prev 1 "x" && back_is prev 2 "?" && back_is prev 3 "<"
    then set_is_xml (set_state m S1) true
    else m
  else m.

Definition step3 (m : stripper) (prev : list ascii) (c : ascii) : stripper :=
  if ch_eq c ">" then
    match depth m with
    | S d => set_depth m d
    | O => match in_q m with
           | Some _ => m
           | None => leave_tag m
           end
    end
  else if ch_eq c DQUOTE || ch_eq c "'" then
    match prev with
    | [] => m
    | p1 :: _ => if ch_eq p1 "\" then m else toggle_quote m c
    end
  else if ch_eq c "-" then
    if back_is prev 0 "-" && back_is prev 1 "!" then set_state m S4 else m
  else if ch_eq (tolower c) "e" then
    (* [<!DOCTYPE]: back to an HTML tag *)
    if (7 <=? Z.of_nat (length prev)) && back_is_ci prev 0 "p"
       && back_is_ci prev 1 "y" && back_is_ci prev 2 "t"
       && back_is_ci prev 3 "c" && back_is_ci prev 4 "o"
       && back_is_ci prev 5 "d"
    then set_state m S1
    else m
  else m.

Definition step4 (m : stripper) (prev : list ascii) (c : ascii) : stripper :=
  match in_q m with
  | None =>
      if ch_eq c ">" && back_is prev 0 "-" && back_is prev 1 "-"
      then leave_tag m else m
  | Some _ => m
  end.

Definition step (allow : option string) (m : stripper) (prev : list ascii)
  (c next : ascii) : string * stripper :=
  match state m with
  | S0 => step0 allow m c next
  | S1 => step1 allow m prev c next
  | S2 => ("", step2 m prev c)
  | S3 => ("", step3 m prev c)
  | S4 => ("", step4 m prev c)
  end.

(** The scan: every byte is read once, in the state the bytes before it
    left the machine in; a tag still open at the end is dropped. *)
Fixpoint strip_from (allow : option string) (m : stripper) (prev : list ascii)
  (input : string) : string :=
  match input with
  | EmptyString => EmptyString
  | String c rest =>
      let '(written, m') := step allow m prev c (peek rest) in
      written ++ strip_from allow m' (c :: prev) rest
  end.

(** [strip_tags($string, $allowed_tags)]; [None] when no second argument
    is given. *)
Definition strip_tags (s : string) (allow : option string) : string :=
  strip_from allow stripper_init [] s.

(* ---------------------------------------------------------------- *)
(** ** [htmlspecialchars]                                             *)
(* ---------------------------------------------------------------- *)

Definition utf8_trail (c : ascii) : bool := between 128 191 c.

Definition cp2 (c c1 : ascii) : Z :=
  Z.lor (Z.shiftl (Z.land (code c) 31) 6) (Z.land (code c1) 63).
Definition cp3 (c c1 c2 : ascii) : Z :=
  Z.lor (Z.lor (Z.shiftl (Z.land (code c) 15) 12)
               (Z.shiftl (Z.land (code c1) 63) 6))
        (Z.land (code c2) 63).
Definition cp4 (c c1 c2 c3 : ascii) : Z :=
  Z.lor (Z.lor (Z.lor (Z.shiftl (Z.land (code c) 7) 18)
                      (Z.shiftl (Z.land (code c1) 63) 12))
               (Z.shiftl (Z.land (code c2) 63) 6))
        (Z.land (code c3) 63).

(** [get_next_char] for UTF-8 succeeds on every character of [s]: no
    stray or missing continuation byte, no over-long form, no surrogate,
    nothing above U+10FFFF. *)
Fixpoint utf8_valid (s : string) : bool :=
  match s with
  | EmptyString => true
  | String c rest =>
      if code c <? 128 then utf8_valid rest
      else if code c <? 194 then false
      else if code c <? 224 then
        match rest with
        | String c1 rest1 => utf8_trail c1 && utf8_valid rest1
        | _ => false
        end
      else if code c <? 240 then
        match rest with
        | String c1 (String c2 rest2) =>
            utf8_trail c1 && utf8_trail c2
            && (2048 <=? cp3 c c1 c2)
            && negb ((55296 <=? cp3 c c1 c2) && (cp3 c c1 c2 <=? 57343))
            && utf8_valid rest2
        | _ => false
        end
      else if code c <? 245 then
        match rest with
        | String c1 (String c2 (String c3 rest3)) =>
            utf8_trail c1 && utf8_trail c2 && utf8_trail c3
            && (65536 <=? cp4 c c1 c2 c3) && (cp4 c c1 c2 c3 <=? 1114111)
            && utf8_valid rest3
        | _ => false
        end
      else false
  end.

Definition digit_value (c : ascii) : Z :=
  if isdigit c then code c - 48
  else if between 65 70 c then code c - 55
  else code c - 87.

(** The digits [strtol] converts in the given base, and what follows
    them. *)
Fixpoint strtol_digits (hex : bool) (acc : Z) (s : string) : Z * string :=
  match s with
  | String c rest =>
      if (if hex then isxdigit c else isdigit c)
      then strtol_digits hex ((if hex then 16 else 10) * acc + digit_value c) rest
      else (acc, s)
  | EmptyString => (acc, s)
  end.

(** ** Numeric strings and the loose comparison of strings *)

Fixpoint drop_while (p : ascii -> bool) (s : string) : string :=
  match s with
  | String c rest => if p c then drop_while p rest else s
  | EmptyString => s
  end.

Definition drop_sign (s : string) : string :=
  match s with
  | String c rest => if ch_eq c "-" || ch_eq c "+" then rest else s
  | EmptyString => s
  end.

Definition digit_first (s : string) : bool := isdigit (peek s).

(** [_is_numeric_string_ex] with no errors allowed, as a truth value:
    white space, an optional sign, digits with an optional fraction or a
    fraction alone, an optional exponent, white space. *)
Definition is_numeric (s : string) : bool :=
  let body := drop_sign (drop_while isspace s) in
  let mantissa :=
    if digit_first body then
      match drop_while isdigit body with
      | String c rest =>
          if ch_eq c "." then Some (drop_while isdigit rest) else Some (String c rest)
      | EmptyString => Some EmptyString
      end
    else
      match body with
      | String c rest =>
          if ch_eq c "." && digit_first rest then Some (drop_while isdigit rest)
          else None
      | EmptyString => None
      end in
  match mantissa with
  | None => false
  | Some rest =>
      let tail :=
        match rest with
        | String c exponent =>
            if (ch_eq c "e" || ch_eq c "E") && digit_first (drop_sign exponent)
            then drop_while isdigit (drop_sign exponent)
            else rest
        | EmptyString => rest
        end in
      match drop_while isspace tail with
      | EmptyString => true
      | String _ _ => false
      end
  end.

(** The integer a numeric string stands for, when it is written with
    digits only and has at most nine of them after its leading zeros:
    such a number is of the integer type on every platform. *)
Definition integer_value (s : string) : option Z :=
  let signed := drop_while isspace s in
  let body := drop_sign signed in
  let '(value, rest) := strtol_digits false 0 (drop_while (ch_eq "0") body) in
  if digit_first body
     && (String.length (drop_while (ch_eq "0") body) - String.length rest <=? 9)%nat
     && match drop_while isspace rest with
        | EmptyString => true
        | String _ _ => false
        end
  then Some (if ch_eq (peek signed) "-" then - value else value)
  else None.

(** [$a == $b] on two strings, [zendi_smart_streq]: two numeric strings
    are compared as numbers, any other pair by its bytes.  Two integers
    are compared here; [numeric_equal] is the runtime's comparison of two
    numeric strings of which one is a float or a long integer. *)
Definition loose_equal (numeric_equal : string -> string -> bool) (a b : string)
  : bool :=
  if is_numeric a && is_numeric b then
    match integer_value a, integer_value b with
    | Some x, Some y => x =? y
    | _, _ => numeric_equal a b
    end
  else String.eqb a b.

(** [in_array($needle, $haystack)] on strings, without the flag [strict]:
    the loose comparison with every element. *)
Definition in_array (numeric_equal : string -> string -> bool) (needle : string)
  (haystack : list string) : bool :=
  existsb (loose_equal numeric_equal needle) haystack.

(** [process_numeric_entity], on the bytes after [&#]: an optional [x],
    at least one digit, the digits [strtol] accepts (in base 16 it skips
    a [0x] that a digit follows), then [;], and a value of at most
    0x10FFFF. *)
Definition process_numeric_entity (s : string) : bool :=
  let hex := ch_eq (tolower (peek s)) "x" in
  let s1 := if hex then match s with String _ r => r | _ => s end else s in
  if negb (if hex then isxdigit (peek s1) else isdigit (peek s1)) then false
  else
    let s2 :=
      match s1 with
      | String z (String x (String d r)) =>
          if hex && ch_eq z "0" && ch_eq (tolower x) "x" && isxdigit d
          then String d r else s1
      | _ => s1
      end in
    let '(v, after) := strtol_digits hex 0 s2 in
    ch_eq (peek after) ";" && (v <=? 1114111).

(** [process_named_entity_html], on the bytes after [&]: the run of
    letters and digits that a [;] ends, when it is not empty. *)
Fixpoint entity_name (s : string) : option string :=
  match s with
  | String c rest =>
      if isalnum c then
        match entity_name rest with
        | Some n => Some (String c n)
        | None => None
        end
      else if ch_eq c ";" then Some EmptyString
      else None
  | EmptyString => None
  end.

(** With [double_encode] off, an ampersand that starts a character
    reference is left alone; [table] is the table of HTML 5 entity
    names ([resolve_named_entity_html]). *)
Definition starts_entity (table : string -> bool) (after_amp : string) : bool :=
  match after_amp with
  | String c rest =>
      if ch_eq c "#" then process_numeric_entity rest
      else
        match entity_name after_amp with
        | Some EmptyString => false
        | Some n => table n
        | None => false
        end
  | EmptyString => false
  end.

(** The replacements of [ENT_QUOTES | ENT_HTML5]. *)
Fixpoint escape_html (table : string -> bool) (s : string) : string :=
  match s with
  | EmptyString => EmptyString
  | String c rest =>
      (if ch_eq c "&" then
         if starts_entity table rest then "&" else "&amp;"
       else if ch_eq c DQUOTE then "&quot;"
       else if ch_eq c "'" then "&apos;"
       else if ch_eq c "<" then "&lt;"
       else if ch_eq c ">" then "&gt;"
       else String c "")
      ++ escape_html table rest
  end.

(** [htmlspecialchars($s, ENT_QUOTES | ENT_HTML5, 'UTF-8', false)]: the
    empty string when [$s] is not valid UTF-8 (neither [ENT_IGNORE] nor
    [ENT_SUBSTITUTE] is set). *)
Definition htmlspecialchars (table : string -> bool) (s : string) : string :=
  if utf8_valid s then escape_html table s else "".

(* ---------------------------------------------------------------- *)
(** ** [mb_strlen] and [mb_substr] for UTF-8                          *)
(* ---------------------------------------------------------------- *)

(** The number of characters of a UTF-8 string: the bytes that are not
    continuation bytes. *)
Fixpoint mb_strlen (s : string) : Z :=
  match s with
  | EmptyString => 0
  | String c rest => (if utf8_trail c then 0 else 1) + mb_strlen rest
  end.

(** The first [n] characters, each with its continuation bytes. *)
Fixpoint mb_take (n : nat) (s : string) : string :=
  match s with
  | EmptyString => EmptyString
  | String c rest =>
      if utf8_trail c then String c (mb_take n rest)
      else match n with
           | O => EmptyString
           | S n' => String c (mb_take n' rest)
           end
  end.

(** [mb_substr($s, 0, $length)] for a length that is not negative. *)
Definition mb_substr0 (s : string) (length : Z) : string :=
  mb_take (Z.to_nat length) s.

(* ---------------------------------------------------------------- *)
(** ** [parse_url] and [filter_var(..., FILTER_VALIDATE_URL)]         *)
(* ---------------------------------------------------------------- *)

Fixpoint take (n : nat) (s : string) : string :=
  match n, s with
  | S n', String c rest => String c (take n' rest)
  | _, _ => EmptyString
  end.

Fixpoint drop (n : nat) (s : string) : string :=
  match n, s with
  | S n', String _ rest => drop n' rest
  | _, _ => s
  end.

(** [memchr]: the offset of the first [c]. *)
Fixpoint memchr (c : ascii) (s : string) : option nat :=
  match s with
  | EmptyString => None
  | String d rest =>
      if ch_eq d c then Some O
      else match memchr c rest with
           | Some k => Some (S k)
           | None => None
           end
  end.

(** [zend_memrchr]: the offset of the last [c]. *)
Fixpoint memrchr (c : ascii) (s : string) : option nat :=
  match s with
  | EmptyString => None
  | String d rest =>
      match memrchr c rest with
      | Some k => Some (S k)
      | None => if ch_eq d c then Some O else None
      end
  end.

(** [strcspn]: the length of the prefix free of the bytes of [reject]. *)
Fixpoint strcspn (s reject : string) : nat :=
  match s with
  | EmptyString => O
  | String c rest => if strchr reject c then O else S (strcspn rest reject)
  end.

Fixpoint all_bytes (p : ascii -> bool) (s : string) : bool :=
  match s with
  | EmptyString => true
  | String c rest => p c && all_bytes p rest
  end.

(** A NUL byte somewhere in [s] ([zend_char_has_nul_byte]). *)
Definition has_nul (s : string) : bool :=
  negb (all_bytes (fun c => negb (ch_eq c NUL)) s).

(** The fields of [php_url] that the callers read. *)
Record php_url := {
  scheme : string;
  host : option string;
  user : option string;
  pass : option string
}.

Definition scheme_byte (c : ascii) : bool :=
  isalpha c || isdigit c || ch_eq c "+" || ch_eq c "." || ch_eq c "-".

Fixpoint skip_spaces (s : string) : string :=
  match s with
  | String c rest => if isspace c then skip_spaces rest else s
  | EmptyString => s
  end.

(** [strtol(buf, &end, 10)] on a port: white space, a sign, digits;
    [None] when no digit is converted ([end == buf]). *)
Definition strtol10 (buf : string) : option Z :=
  let s := skip_spaces buf in
  let '(neg, s1) :=
    match s with
    | String c rest =>
        if ch_eq c "-" then (true, rest)
        else if ch_eq c "+" then (false, rest)
        else (false, s)
    | EmptyString => (false, s)
    end in
  if isdigit (peek s1) then
    let '(v, _) := strtol_digits false 0 s1 in
    Some (if neg then - v else v)
  else None.

(** The part of [php_url_parse_ex] after [scheme://], on the bytes
    [s] that follow the two slashes: user and password before the last
    [@], a port after the last [:] (not looked for in a bracketed IPv6
    host), a host that is not empty. *)
Definition parse_host (sch : string) (s : string) : option php_url :=
  let auth := take (strcspn s "/?#") s in
  let '(usr, pwd, hp) :=
    match memrchr "@" auth with
    | Some p =>
        let login := take p auth in
        match memchr ":" login with
        | Some pp => (Some (take pp login), Some (drop (S pp) login), drop (S p) auth)
        | None => (Some login, None, drop (S p) auth)
        end
    | None => (None, None, auth)
    end in
  let colon :=
    if ch_eq (peek hp) "[" && ch_eq (peek (drop (String.length hp - 1) hp)) "]"
    then None else memrchr ":" hp in
  let port_ok :=
    match colon with
    | Some p =>
        let port := drop (S p) hp in
        if (5 <? Z.of_nat (String.length port)) then false
        else if (0 <? Z.of_nat (String.length port)) then
          match strtol10 port with
          | Some v => (0 <=? v) && (v <=? 65535)
          | None => false
          end
        else true
    | None => true
    end in
  let h := match colon with
           | Some p => take p hp
           | None => hp
           end in
  if negb port_ok then None
  else match h with
       | EmptyString => None
       | _ => Some {| scheme := sch; host := Some h; user := usr; pass := pwd |}
       end.

(** [php_url_parse_ex] on a string in which it finds a scheme.  For a
    string without one (no colon, a colon first, a byte before the colon
    that no scheme may hold, a short number after the colon that is read
    as a port) the result is [None] here, as for a string it rejects:
    neither caller makes use of a URL without a scheme, and path, query
    and fragment are read by none. *)
Definition php_url_parse_ex (str : string) : option php_url :=
  match memchr ":" str with
  | Some (S e') =>
      let e := S e' in
      let sch := take e str in
      let after := drop (S e) str in
      let no_host := {| scheme := sch; host := None; user := None; pass := None |} in
      if negb (all_bytes scheme_byte sch) then None
      else
        match after with
        | EmptyString => Some no_host
        | String c1 rest1 =>
            if negb (ch_eq c1 "/") then
              let digits := strcspn after "/" in
              if all_bytes isdigit (take digits after)
                 && (String.length (drop digits after) =? 0)%nat
                 || all_bytes isdigit (take digits after)
                    && ch_eq (peek (drop digits after)) "/"
              then if (Z.of_nat digits + 1 <? 7) then None else Some no_host
              else Some no_host
            else
              match rest1 with
              | String c2 rest2 =>
                  if ch_eq c2 "/" then
                    if String.eqb (strtolower sch) "file" && ch_eq (peek rest2) "/"
                    then Some no_host
                    else parse_host sch rest2
                  else Some no_host
              | EmptyString => Some no_host
              end
        end
  | _ => None
  end.

(** [parse_url($url, PHP_URL_SCHEME)] and [parse_url($url, PHP_URL_HOST)];
    [None] is [null] or [false]. *)
Definition parse_url_scheme (url : string) : option string :=
  match php_url_parse_ex url with
  | Some u => Some (scheme u)
  | None => None
  end.

Definition parse_url_host (url : string) : option string :=
  match php_url_parse_ex url with
  | Some u => host u
  | None => None
  end.

(** The bytes [php_filter_url] keeps: letters, digits, the safe, extra,
    national, punctuation (with the double quote) and reserved bytes of
    RFC 1738. *)
Definition url_byte (c : ascii) : bool :=
  isalnum c || strchr "$-_.+!*'(),{}|\^~[]`<>#%;/?:@&=" c || ch_eq c DQUOTE.

(** [_php_filter_validate_domain] with [FILTER_FLAG_HOSTNAME]: [n] bytes
    are left to check, [i] counts the bytes of the label, [p] is the byte
    before the cursor. *)
Fixpoint validate_domain_from (n : nat) (i : Z) (p : ascii) (s : string) : bool :=
  match n, s with
  | S n', String c rest =>
      if ch_eq c "." then
        negb (ch_eq (peek rest) ".") && isalnum p && isalnum (peek rest)
        && validate_domain_from n' 1 c rest
      else
        negb (63 <? i)
        && ((ch_eq c "-" && negb (ch_eq (peek rest) NUL)) || isalnum c)
        && validate_domain_from n' (i + 1) c rest
  | _, _ => true
  end.

Definition validate_domain (domain : string) : bool :=
  let l := String.length domain in
  let l' := if ch_eq (peek (drop (l - 1) domain)) "." then (l - 1)%nat else l in
  negb (253 <? Z.of_nat l')
  && isalnum (peek domain)
  && validate_domain_from l' 1 NUL domain.

(** [is_userinfo_valid]. *)
Fixpoint is_userinfo_valid (s : string) : bool :=
  match s with
  | EmptyString => true
  | String c rest =>
      if isalpha c || isdigit c || strchr "-._~!$&'()*+,;=:" c
      then is_userinfo_valid rest
      else
        match rest with
        | String d1 (String d2 rest2) =>
            ch_eq c "%" && isdigit d1 && isxdigit d2 && is_userinfo_valid rest2
        | _ => false
        end
  end.

Definition userinfo_ok (o : option string) : bool :=
  match o with
  | Some s => is_userinfo_valid s
  | None => true
  end.

(** [filter_var($s, FILTER_VALIDATE_URL)] on a string, as a truth value.
    [ipv6] is [_php_filter_validate_ipv6], applied to what stands between
    the brackets of a bracketed host. *)
Definition filter_validate_url (ipv6 : string -> bool) (s : string) : bool :=
  if negb (all_bytes url_byte s) then false
  else
    match php_url_parse_ex s with
    | None => false
    | Some u =>
        let sch := strtolower (scheme u) in
        let web := String.eqb sch "http" || String.eqb sch "https" in
        let host_ok :=
          match host u with
          | Some h =>
              if web then
                let l := String.length h in
                (ch_eq (peek h) "[" && ch_eq (peek (drop (l - 1) h)) "]"
                 && ipv6 (take (l - 2) (drop 1 h)))
                || validate_domain h
              else true
          | None =>
              negb web
              && (String.eqb (scheme u) "mailto" || String.eqb (scheme u) "news"
                  || String.eqb (scheme u) "file")
          end in
        host_ok && userinfo_ok (user u) && userinfo_ok (pass u)
    end.

End Php.

(* ================================================================== *)
(** * PHP values                                                       *)
(* ================================================================== *)

(** What [json_decode($body, true)] returns: scalars and arrays.  A PHP
    array is an ordered list of key/value pairs; a JSON object decodes to
    string keys, a JSON list to the keys 0, 1, 2, ...  A float is kept as
    the 64 bits of its IEEE 754 representation. *)
Inductive key :=
| KInt (i : Z)
| KStr (s : string).

#[local] Set Warnings "-register-all".

Inductive value :=
| VNull
| VBool (b : bool)
| VInt (n : Z)
| VFloat (bits : Z)
| VStr (s : string)
| VArr (a : list (key * value)).

Definition array : Type := list (key * value).

Module Value.

(** A JSON object and a JSON list as PHP arrays. *)
Definition obj (fields : list (string * value)) : array :=
  map (fun kv => (KStr (fst kv), snd kv)) fields.

Fixpoint list_from (i : Z) (items : list value) : array :=
  match items with
  | [] => []
  | v :: rest => (KInt i, v) :: list_from (i + 1) rest
  end.

Definition list_array (items : list value) : array := list_from 0 items.

(** The values of an array in order, as [foreach ($a as $v)] visits them. *)
Definition array_values (a : array) : list value := map snd a.

Definition key_is (k : string) (entry : key * value) : bool :=
  match fst entry with
  | KStr s => String.eqb s k
  | KInt _ => false
  end.

(** [$a['k']] for a key that is not a decimal number. *)
Definition lookup (a : array) (k : string) : option value :=
  match find (key_is k) a with
  | Some entry => Some (snd entry)
  | None => None
  end.

(** [$v['k']] where [isset($v['k'])] holds: the entry exists and is not
    null.  On a value that is not an array (a string, a number, null)
    [isset] with such a key is false. *)
Definition get (a : array) (k : string) : option value :=
  match lookup a k with
  | Some VNull => None
  | other => other
  end.

Definition at_key (v : value) (k : string) : option value :=
  match v with
  | VArr a => get a k
  | _ => None
  end.

Definition isset {A : Type} (o : option A) : bool :=
  match o with
  | Some _ => true
  | None => false
  end.

(** [$x ?? $default]. *)
Definition coalesce (o : option value) (default : value) : value :=
  match o with
  | Some v => v
  | None => default
  end.

Definition is_string (v : value) : bool :=
  match v with
  | VStr _ => true
  | _ => false
  end.

Definition is_array (v : value) : bool :=
  match v with
  | VArr _ => true
  | _ => false
  end.

(** Conversion to bool, as [if ($v)] and [!$v] do it; the two float
    zeros differ in the sign bit only. *)
Definition truthy (v : value) : bool :=
  match v with
  | VNull => false
  | VBool b => b
  | VInt n => negb (n =? 0)
  | VFloat bits => negb (Z.land bits (2 ^ 63 - 1) =? 0)
  | VStr s => negb (String.eqb s "" || String.eqb s "0")
  | VArr a => match a with
              | [] => false
              | _ => true
              end
  end.

(** [$v === 's']. *)
Definition identical_str (v : value) (s : string) : bool :=
  match v with
  | VStr t => String.eqb t s
  | _ => false
  end.

(** [$v == 's'] for a string [s] that is neither empty nor numeric, as
    [in_array] compares: a string by its bytes, [true] equals it, a
    number, [false], [null] and an array do not. *)
Definition loose_eq_str (v : value) (s : string) : bool :=
  match v with
  | VStr t => String.eqb t s
  | VBool b => b
  | _ => false
  end.

Definition in_array_loose (v : value) (l : list string) : bool :=
  existsb (loose_eq_str v) l.

Definition decimal (n : Z) : string := NilZero.string_of_int (Z.to_int n).

(** A value passed for a [string] parameter without [strict_types]:
    scalars are converted, an array is a [TypeError] ([None]).  Null does
    not reach such a parameter in this code.  [float_text] is the text the
    runtime gives a float. *)
Definition string_param (float_text : Z -> string) (v : value) : option string :=
  match v with
  | VStr s => Some s
  | VInt n => Some (decimal n)
  | VFloat bits => Some (float_text bits)
  | VBool true => Some "1"
  | VBool false => Some ""
  | VNull => None
  | VArr _ => None
  end.

End Value.

(* ================================================================== *)
(** * Dates                                                            *)
(* ================================================================== *)

(** A [DateTimeImmutable]: an instant in seconds since the Unix epoch and
    the offset from UTC of its own time zone, in seconds. *)
Record DateTime := {
  timestamp : Z;
  utc_offset : Z
}.

Module Date.

(** Day number since 1970-01-01 to year, month, day of the proleptic
    Gregorian calendar. *)
Definition civil_from_days (days : Z) : Z * Z * Z :=
  let z := days + 719468 in
  let era := z / 146097 in
  let doe := z - era * 146097 in
  let yoe := (doe - doe / 1460 + doe / 36524 - doe / 146096) / 365 in
  let doy := doe - (365 * yoe + yoe / 4 - yoe / 100) in
  let mp := (5 * doy + 2) / 153 in
  let d := doy - (153 * mp + 2) / 5 + 1 in
  let m := if mp <? 10 then mp + 3 else mp - 9 in
  let y := yoe + era * 400 in
  ((if m <=? 2 then y + 1 else y), m, d).

Definition days_from_civil (y m d : Z) : Z :=
  let y' := if m <=? 2 then y - 1 else y in
  let era := y' / 400 in
  let yoe := y' - era * 400 in
  let doy := (153 * (if 2 <? m then m - 3 else m + 9) + 2) / 5 + d - 1 in
  let doe := yoe * 365 + yoe / 4 - yoe / 100 + doy in
  era * 146097 + doe - 719468.

Definition digit (n : Z) : string :=
  String (ascii_of_N (Z.to_N (48 + n mod 10))) "".

Definition pad2 (n : Z) : string := digit (n / 10) ++ digit n.

(** [Y]: at least four digits, a minus sign before a year BCE. *)
Definition year4_abs (y : Z) : string :=
  if y <? 10000
  then digit (y / 1000) ++ digit (y / 100) ++ digit (y / 10) ++ digit y
  else Value.decimal y.

Definition year4 (y : Z) : string :=
  if y <? 0 then "-" ++ year4_abs (- y) else year4_abs y.

(** The wall clock of an instant at an offset from UTC. *)
Record wall := { year : Z; month : Z; day : Z; hour : Z; minute : Z; second : Z }.

Definition wall_clock (ts offset : Z) : wall :=
  let local := ts + offset in
  let '(y, m, d) := civil_from_days (local / 86400) in
  let secs := local mod 86400 in
  {| year := y; month := m; day := d;
     hour := secs / 3600; minute := (secs mod 3600) / 60; second := secs mod 60 |}.

(** The offset of Asia/Tokyo at an instant, from the time zone
    database: local mean time until the end of 1887, nine hours ahead of
    UTC since, with one hour of summer time from May (April in 1949) to
    September in the years 1948 to 1951. *)
Definition tokyo_offset (t : Z) : Z :=
  if t <? -2587712400 then 33539
  else if t <? -683802000 then 32400
  else if t <? -672310800 then 36000
  else if t <? -654771600 then 32400
  else if t <? -640861200 then 36000
  else if t <? -620298000 then 32400
  else if t <? -609411600 then 36000
  else if t <? -588848400 then 32400
  else if t <? -577962000 then 36000
  else 32400.

(** [->setTimezone(new DateTimeZone('Asia/Tokyo'))->format('Y年m月d日 H:i')]. *)
Definition format_tokyo (d : DateTime) : string :=
  let w := wall_clock (timestamp d) (tokyo_offset (timestamp d)) in
  year4 (year w) ++ "年" ++ pad2 (month w) ++ "月" ++ pad2 (day w) ++ "日 "
  ++ pad2 (hour w) ++ ":" ++ pad2 (minute w).

(** [P]: the offset as [+hh:mm]. *)
Definition format_offset (offset : Z) : string :=
  let a := Z.abs offset in
  (if offset <? 0 then "-" else "+") ++ pad2 (a / 3600) ++ ":" ++ pad2 ((a mod 3600) / 60).

(** [->format('c')]: ISO 8601 in the time zone of the object. *)
Definition format_c (d : DateTime) : string :=
  let w := wall_clock (timestamp d) (utc_offset d) in
  year4 (year w) ++ "-" ++ pad2 (month w) ++ "-" ++ pad2 (day w) ++ "T"
  ++ pad2 (hour w) ++ ":" ++ pad2 (minute w) ++ ":" ++ pad2 (second w)
  ++ format_offset (utc_offset d).

(** [->format('H:i:s')]. *)
Definition format_His (d : DateTime) : string :=
  let w := wall_clock (timestamp d) (utc_offset d) in
  pad2 (hour w) ++ ":" ++ pad2 (minute w) ++ ":" ++ pad2 (second w).

End Date.

(* ================================================================== *)
(** * The outside world, exceptions, and the monad of the pipeline      *)
(* ================================================================== *)

(** What a cURL transfer comes back with: a transfer error
    ([curl_errno] not zero), or a final HTTP status with the body as
    [json_decode] reads it ([None] when the body is not JSON). *)
Inductive response :=
| CurlError
| Reply (status : Z) (body : option value).

(** The environment of one run.  [net n url] answers the request number
    [n] of the run; [clock n] is the system time at the reading number
    [n]; [default_offset] is the offset of the configured default time
    zone at an instant; [timelib now text] is what
    [new DateTimeImmutable(text)] builds when the clock shows [now], [None]
    when it throws; [html5_entity] is the table of HTML 5 entity names;
    [validate_ipv6] is the runtime's check of an IPv6 address;
    [float_text] is the text of a float, given by its bits;
    [numeric_equal] is the comparison [==] of two numeric strings. *)
Record environment := {
  net : nat -> string -> response;
  clock : nat -> Z;
  default_offset : Z -> Z;
  timelib : Z -> string -> option DateTime;
  html5_entity : string -> bool;
  validate_ipv6 : string -> bool;
  float_text : Z -> string;
  numeric_equal : string -> string -> bool
}.

Inductive fetch_error :=
| NETWORK_ERROR | HTTP_ERROR | TIMEOUT_ERROR | INVALID_URL | DOMAIN_NOT_ALLOWED.

(** The error codes of [ParseException] ([php/ParseException.php], the
    document that follows [js/sample-urls.js] among the sources): its
    four class constants. *)
Inductive parse_error :=
| JSON_ERROR | INVALID_ACTOR | NO_OUTBOX | INVALID_NOTE.

(** What the code can throw.  [DateException] is the [Exception] that
    [DateTimeImmutable] throws on a malformed string.  A [TypeError] and
    a [ValueError] (which [curl_setopt] throws on a string that holds a
    NUL byte) are [Error]s, not [Exception]s: [catch (Exception $e)] lets
    them through.  Messages are not kept. *)
Inductive throwable :=
| FetchException (code : fetch_error)
| ParseException (code : parse_error)
| DateException
| TypeError
| ValueError.

Definition instanceof_Exception (t : throwable) : bool :=
  match t with
  | TypeError | ValueError => false
  | _ => true
  end.

Inductive outcome (A : Type) :=
| Returned (a : A)
| Thrown (t : throwable).

Arguments Returned {A} a.
Arguments Thrown {A} t.

(** What a run has done so far: the URLs requested, the oldest first, and
    how often the clock was read. *)
Record world := {
  requests : list string;
  clock_reads : nat
}.

Definition world0 : world := {| requests := []; clock_reads := 0 |}.

(** The world after one more request. *)
Definition logged (w : world) (url : string) : world :=
  {| requests := (requests w ++ [url])%list; clock_reads := clock_reads w |}.

Definition M (A : Type) : Type := world -> outcome A * world.

Definition ret {A} (a : A) : M A := fun w => (Returned a, w).

Definition throw {A} (t : throwable) : M A := fun w => (Thrown t, w).

Definition bind {A B} (m : M A) (k : A -> M B) : M B :=
  fun w =>
    match m w with
    | (Returned a, w') => k a w'
    | (Thrown t, w') => (Thrown t, w')
    end.

Notation "x <- m ;; k" := (bind m (fun x => k))
  (at level 61, m at next level, right associativity).
Notation "m ;;; k" := (bind m (fun _ => k))
  (at level 61, right associativity).

(** [try { body } catch (Exception $e) { handler }]. *)
Definition try_catch {A} (body : M A) (handler : M A) : M A :=
  fun w =>
    match body w with
    | (Thrown t, w') =>
        if instanceof_Exception t then handler w' else (Thrown t, w')
    | done => done
    end.

Definition lift {A} (o : outcome A) : M A := fun w => (o, w).

(** A value where the signature asks for [string], and where it asks for
    [array]. *)
Definition as_string (E : environment) (v : value) : M string :=
  match Value.string_param (float_text E) v with
  | Some s => ret s
  | None => throw TypeError
  end.

Definition as_array (v : value) : M array :=
  match v with
  | VArr a => ret a
  | _ => throw TypeError
  end.

(** [count($v)]: a [TypeError] on what is not countable. *)
Definition count (v : value) : M Z :=
  match v with
  | VArr a => ret (Z.of_nat (length a))
  | _ => throw TypeError
  end.

Section Clock.

Variable E : environment.

(** One reading of the system clock. *)
Definition time : M Z :=
  fun w => (Returned (clock E (clock_reads w)),
            {| requests := requests w; clock_reads := S (clock_reads w) |}).

(** [date($format)]: the current time in the default time zone. *)
Definition now_local : M DateTime :=
  t <- time ;; ret {| timestamp := t; utc_offset := default_offset E t |}.

(** [new DateTimeImmutable($text)]. *)
Definition new_DateTimeImmutable (text : string) : M DateTime :=
  t <- time ;;
  match timelib E t text with
  | Some d => ret d
  | None => throw DateException
  end.

End Clock.

(* ================================================================== *)
(** * [php/Validator.php]                                              *)
(* ================================================================== *)

Module Validator.

Import Value.

Section WithEnvironment.

Variable E : environment.

(** [filter_var($v, FILTER_VALIDATE_URL)] as a truth value: only a
    string can pass (a number or a boolean is converted to a string
    without a scheme, an array fails the filter). *)
Definition filter_var_url (v : value) : bool :=
  match v with
  | VStr s => Php.filter_validate_url (validate_ipv6 E) s
  | _ => false
  end.

Definition validActorTypes : list string :=
  ["Person"; "Service"; "Organization"; "Application"; "Group"].

Definition validateActorObject (data : array) : bool :=
  if negb (forallb (fun field => isset (get data field)) ["id"; "type"; "outbox"])
  then false
  else if negb (in_array_loose (coalesce (get data "type") VNull) validActorTypes)
  then false
  else if negb (filter_var_url (coalesce (get data "outbox") VNull))
  then false
  else true.

Definition validateNoteObject (data : array) : bool :=
  if negb (isset (get data "type"))
     || negb (identical_str (coalesce (get data "type") VNull) "Note")
  then false
  else if negb (isset (get data "id"))
          || negb (truthy (coalesce (get data "id") VNull))
  then false
  else if negb (isset (get data "content")) && negb (isset (get data "summary"))
  then false
  else true.

Definition validTypes : list string :=
  ["OrderedCollection"; "Collection"; "OrderedCollectionPage"; "CollectionPage"].

Definition validateOutboxCollection (data : array) : bool :=
  if negb (isset (get data "type")) then false
  else if negb (in_array_loose (coalesce (get data "type") VNull) validTypes)
  then false
  else if negb (isset (get data "orderedItems")) && negb (isset (get data "items"))
          && negb (isset (get data "first"))
  then false
  else true.

Definition dangerousSchemes : list string :=
  ["javascript"; "data"; "vbscript"; "file"].

(** [!$host] and [$scheme &&]: null, false, the empty string and the
    string 0 are false. *)
Definition truthy_string (o : option string) : bool :=
  match o with
  | Some s => truthy (VStr s)
  | None => false
  end.

Definition validateUrl (url : string) (allowedDomains : list string)
  : outcome unit :=
  if negb (Php.filter_validate_url (validate_ipv6 E) url)
  then Thrown (FetchException INVALID_URL)
  else if negb (Php.str_starts_with url "https://")
  then Thrown (FetchException INVALID_URL)
  else
    let host := Php.parse_url_host url in
    if negb (match allowedDomains with [] => true | _ => false end)
       && negb (Php.in_array (numeric_equal E) "*" allowedDomains)
       && (negb (truthy_string host)
           || negb (Php.in_array (numeric_equal E)
                                 (match host with Some h => h | None => "" end)
                                 allowedDomains))
    then Thrown (FetchException DOMAIN_NOT_ALLOWED)
    else
      let scheme := Php.parse_url_scheme url in
      if truthy_string scheme
         && Php.in_array (numeric_equal E)
                         (Php.strtolower (match scheme with Some s => s | None => "" end))
                         dangerousSchemes
      then Thrown (FetchException INVALID_URL)
      else Returned tt.

End WithEnvironment.

End Validator.

(* ================================================================== *)
(** * [php/Note.php]                                                   *)
(* ================================================================== *)

Module Note.

Import Value.

Record t := {
  id : string;
  content : string;
  sanitizedContent : string;
  publishedAt : DateTime;
  formattedDate : string;
  url : option string;
  attachments : list array;
  author : array
}.

Definition allowedTags : string :=
  "<p><br><a><strong><em><b><i><u><s><code><pre><blockquote><ul><ol><li>".

Section WithEnvironment.

Variable E : environment.

Definition sanitizeContent (content : string) : string :=
  let sanitized := Php.strip_tags content (Some allowedTags) in
  let sanitized := Php.htmlspecialchars (html5_entity E) sanitized in
  if 10000 <? Php.mb_strlen sanitized
  then Php.mb_substr0 sanitized 10000 ++ "..."
  else sanitized.

(** One turn of the loop over [$data['attachment']]: the entry is kept
    when it has both [type] and [url]. *)
Definition attachment_of (att : value) : M (option array) :=
  match at_key att "type", at_key att "url" with
  | Some ty, Some u =>
      ty_s <- as_string E ty ;;
      let type := Php.strtolower ty_s in
      let attachment :=
        obj [("type", VStr type); ("url", u);
             ("alt_text", coalesce (at_key att "name") (VStr ""))] in
      ret (Some (if String.eqb type "image"
                 then (attachment
                       ++ obj [("width", coalesce (at_key att "width") VNull);
                               ("height", coalesce (at_key att "height") VNull)])%list
                 else attachment))
  | _, _ => ret None
  end.

Fixpoint collect_attachments (atts : list value) : M (list array) :=
  match atts with
  | [] => ret []
  | att :: rest =>
      o <- attachment_of att ;;
      more <- collect_attachments rest ;;
      ret (match o with
           | Some a => a :: more
           | None => more
           end)
  end.

Definition author_of (data : array) : array :=
  match get data "attributedTo" with
  | Some (VStr s) =>
      obj [("id", VStr s); ("name", VStr "Unknown User"); ("avatar", VNull)]
  | Some (VArr a) =>
      obj [("id", coalesce (get a "id") (VStr ""));
           ("name", coalesce (get a "name")
                      (coalesce (get a "preferredUsername") (VStr "Unknown User")));
           ("avatar", coalesce (match get a "icon" with
                                | Some icon => at_key icon "url"
                                | None => None
                                end) VNull)]
  | _ => []
  end.

Definition fromArray (data : array) : M t :=
  published <- as_string E (coalesce (get data "published") (VStr "now")) ;;
  publishedAt <- new_DateTimeImmutable E published ;;
  let formattedDate := Date.format_tokyo publishedAt in
  attachments <-
    match get data "attachment" with
    | Some (VArr atts) => collect_attachments (array_values atts)
    | _ => ret []
    end ;;
  let author := author_of data in
  let originalContent := coalesce (get data "content") (VStr "") in
  content_arg <- as_string E originalContent ;;
  let sanitizedContent := sanitizeContent content_arg in
  id <- as_string E (coalesce (get data "id") (VStr "")) ;;
  url <- match get data "url" with
         | Some u => s <- as_string E u ;; ret (Some s)
         | None => ret None
         end ;;
  ret {| id := id;
         content := content_arg;
         sanitizedContent := sanitizedContent;
         publishedAt := publishedAt;
         formattedDate := formattedDate;
         url := url;
         attachments := attachments;
         author := author |}.

End WithEnvironment.

Definition toArray (this : t) : array :=
  obj [("id", VStr (id this));
       ("content", VStr (sanitizedContent this));
       ("published_at", VStr (Date.format_c (publishedAt this)));
       ("formatted_date", VStr (formattedDate this));
       ("url", match url this with
               | Some u => VStr u
               | None => VNull
               end);
       ("attachments", VArr (list_array (map VArr (attachments this))));
       ("author", VArr (author this))].

End Note.

(* ================================================================== *)
(** * [php/Client.php]                                                 *)
(* ================================================================== *)

Module Client.

Import Value.

(** The object: the request headers are fixed by the constructor and
    play no part in what follows. *)
Record t := {
  timeout : Z;
  allowedDomains : list string
}.

Definition construct (timeout : Z) (allowedDomains : list string) : t :=
  {| timeout := timeout; allowedDomains := allowedDomains |}.

(** What [fetch] returns. *)
Record result := {
  posts : list Note.t;
  actor_info : array;
  meta : array;
  debug_outbox_page : array;
  debug_test : string
}.

(** The accumulators of [processOrderedItems]: its own [$notes] and the
    two arguments it takes by reference. *)
Record progress := {
  notes : list Note.t;
  processedCount : Z;
  debug_unparsed_items : list value
}.

(** What the four branches of the loop body leave: [$noteObject] (null
    when nothing was found), or the [continue] of the last branch. *)
Inductive extraction :=
| NoteObject (noteObject : value)
| Continue.

Section WithEnvironment.

Variable E : environment.

(** [curl_setopt($ch, CURLOPT_URL, $url)] throws a [ValueError] when
    the URL holds a NUL byte, before anything is requested.  Otherwise
    the request is logged, then answered by the environment.  The
    declared return type is [array]: a body that decodes to a scalar
    is a [TypeError]. *)
Definition httpGet (url : string) : M array :=
  fun w =>
    if Php.has_nul url then (Thrown ValueError, w)
    else
      let w' := {| requests := (requests w ++ [url])%list;
                   clock_reads := clock_reads w |} in
      match net E (length (requests w)) url with
      | CurlError => (Thrown (FetchException NETWORK_ERROR), w')
      | Reply httpCode body =>
          if (httpCode <? 200) || (300 <=? httpCode)
          then (Thrown (FetchException HTTP_ERROR), w')
          else match body with
               | None => (Thrown (ParseException JSON_ERROR), w')
               | Some decodedData => as_array decodedData w'
               end
      end.

Definition extractActorInfo (actorData : array) : M array :=
  summary <- as_string E (coalesce (get actorData "summary") (VStr "")) ;;
  ret (obj
    [("id", coalesce (get actorData "id") (VStr ""));
     ("name", coalesce (get actorData "name")
                (coalesce (get actorData "preferredUsername") (VStr "Unknown")));
     ("preferredUsername", coalesce (get actorData "preferredUsername") (VStr ""));
     ("summary", VStr (Php.strip_tags summary None));
     ("url", coalesce (get actorData "url") (VStr ""));
     ("avatar", coalesce (match get actorData "icon" with
                          | Some icon => at_key icon "url"
                          | None => None
                          end) VNull);
     ("header", coalesce (match get actorData "image" with
                          | Some image => at_key image "url"
                          | None => None
                          end) VNull);
     ("followers_count", coalesce (get actorData "followers") (VInt 0));
     ("following_count", coalesce (get actorData "following") (VInt 0))]).

Definition is_url_string (v : value) : bool :=
  is_string v && Validator.filter_var_url E v.

Definition url_of (v : value) : string :=
  match v with
  | VStr s => s
  | _ => ""
  end.

Definition has_type (v : value) (name : string) : bool :=
  match at_key v "type" with
  | Some ty => identical_str ty name
  | None => false
  end.

(** The four branches of the body of the loop, up to the comment
    [Noteオブジェクトを処理]. *)
Definition extract (item : value) : M extraction :=
  if has_type item "Announce" && isset (at_key item "object") then
    let object := coalesce (at_key item "object") VNull in
    if is_url_string object then
      try_catch
        (originalPost <- httpGet (url_of object) ;;
         if has_type (VArr originalPost) "Note"
         then ret (NoteObject (VArr originalPost))
         else ret (NoteObject VNull))
        (ret (NoteObject VNull))
    else ret (NoteObject VNull)
  else if has_type item "Create" && isset (at_key item "object") then
    let object := coalesce (at_key item "object") VNull in
    if is_array object then ret (NoteObject object)
    else if is_url_string object then
      try_catch
        (fetched <- httpGet (url_of object) ;; ret (NoteObject (VArr fetched)))
        (ret (NoteObject VNull))
    else ret (NoteObject VNull)
  else if has_type item "Note" then ret (NoteObject item)
  else if is_url_string item then
    try_catch
      (activityJson <- httpGet (url_of item) ;;
       if has_type (VArr activityJson) "Create"
          && isset (get activityJson "object")
       then ret (NoteObject (coalesce (get activityJson "object") VNull))
       else ret (NoteObject VNull))
      (ret Continue)
  else ret (NoteObject VNull).

(** [$noteObject && Validator::validateNoteObject($noteObject)]; the
    parameter of the validator is declared [array]. *)
Definition is_valid_note (noteObject : value) : M bool :=
  if truthy noteObject then
    data <- as_array noteObject ;;
    ret (Validator.validateNoteObject data)
  else ret false.

Fixpoint process_loop (orderedItems : list value) (maxPosts : Z) (st : progress)
  : M progress :=
  match orderedItems with
  | [] => ret st
  | item :: rest =>
      if maxPosts <=? processedCount st then ret st
      else
        x <- extract item ;;
        match x with
        | Continue => process_loop rest maxPosts st
        | NoteObject noteObject =>
            valid <- is_valid_note noteObject ;;
            if valid then
              data <- as_array noteObject ;;
              note <- Note.fromArray E data ;;
              process_loop rest maxPosts
                {| notes := (notes st ++ [note])%list;
                   processedCount := processedCount st + 1;
                   debug_unparsed_items := debug_unparsed_items st |}
            else
              process_loop rest maxPosts
                {| notes := notes st;
                   processedCount := processedCount st;
                   debug_unparsed_items := (debug_unparsed_items st ++ [item])%list |}
        end
  end.

(** [processOrderedItems($orderedItems, $maxPosts, $processedCount,
    $debug_unparsed_items)]: the two reference arguments come back in
    the result. *)
Definition processOrderedItems (orderedItems : array) (maxPosts : Z)
  (processedCount : Z) (debug_unparsed_items : list value) : M progress :=
  process_loop (array_values orderedItems) maxPosts
    {| notes := [];
       processedCount := processedCount;
       debug_unparsed_items := debug_unparsed_items |}.

(** The [count] calls of the debug log at the head of
    [extractNotesFromOutbox] throw on what cannot be counted. *)
Definition log_counts (outboxJson : array) : M unit :=
  match get outboxJson "orderedItems" with
  | Some v => count v ;;; ret tt
  | None => ret tt
  end ;;;
  match get outboxJson "items" with
  | Some v => count v ;;; ret tt
  | None => ret tt
  end.

(** The list a page holds: [orderedItems] when it is an array,
    otherwise [items]. *)
Definition items_of (page : array) : option array :=
  match get page "orderedItems" with
  | Some (VArr l) => Some l
  | _ => match get page "items" with
         | Some (VArr l) => Some l
         | _ => None
         end
  end.

Definition extractNotesFromOutbox (outboxJson : array) (maxPosts : Z)
  (debug_unparsed_items : list value) : M (list Note.t * list value) :=
  log_counts outboxJson ;;;
  let processedCount := 0 in
  match items_of outboxJson with
  | Some l =>
      r <- processOrderedItems l maxPosts processedCount debug_unparsed_items ;;
      ret (notes r, Client.debug_unparsed_items r)
  | None =>
      match get outboxJson "first" with
      | Some first =>
          let firstPageUrl :=
            if is_string first then first
            else coalesce (at_key first "id") VNull in
          if truthy firstPageUrl then
            u <- as_string E firstPageUrl ;;
            firstPageJson <- httpGet u ;;
            match items_of firstPageJson with
            | Some l =>
                r <- processOrderedItems l maxPosts processedCount
                       debug_unparsed_items ;;
                ret (notes r, Client.debug_unparsed_items r)
            | None => ret ([], debug_unparsed_items)
            end
          else ret ([], debug_unparsed_items)
      | None => ret ([], debug_unparsed_items)
      end
  end.

Definition fetch (this : t) (actorUrl : string) (maxPosts : Z) : M result :=
  let debug_unparsed_items := [] in
  lift (Validator.validateUrl E actorUrl (allowedDomains this)) ;;;
  actorJson <- httpGet actorUrl ;;
  if negb (Validator.validateActorObject E actorJson)
  then throw (ParseException INVALID_ACTOR)
  else
    let outboxUrl := coalesce (get actorJson "outbox") VNull in
    if negb (truthy outboxUrl) then throw (ParseException NO_OUTBOX)
    else
      outbox_arg <- as_string E outboxUrl ;;
      outboxCollection <- httpGet outbox_arg ;;
      outboxPage <-
        match get outboxCollection "first" with
        | Some (VStr first) => httpGet first
        | _ => ret outboxCollection
        end ;;
      if negb (Validator.validateOutboxCollection outboxPage)
      then throw (ParseException INVALID_NOTE)
      else
        extractResult <- extractNotesFromOutbox outboxPage maxPosts
                           debug_unparsed_items ;;
        let notes := fst extractResult in
        actorInfo <- extractActorInfo actorJson ;;
        fetched_at <- now_local E ;;
        let meta :=
          obj [("count", VInt (Z.of_nat (length notes)));
               ("fetched_at", VStr (Date.format_c fetched_at));
               ("actor_url", VStr actorUrl);
               ("outbox_url", outboxUrl)] in
        tested_at <- now_local E ;;
        ret {| posts := notes;
               actor_info := actorInfo;
               meta := meta;
               debug_outbox_page := outboxPage;
               debug_test := "THIS_IS_A_TEST_" ++ Date.format_His tested_at |}.

End WithEnvironment.

End Client.

(* ================================================================== *)
(** * One item at a time                                               *)
(* ================================================================== *)

(** The specification's reading of the loop: each item is resolved,
    validated and built on its own, and gets one of three verdicts.  The
    loop of [processOrderedItems] is compared with it below. *)
Module Resolver.

Inductive verdict :=
| Built (note : Note.t)     (* a note was appended to the notes *)
| Unparsed                  (* the item was appended to the unparsed items *)
| Skipped.                  (* neither *)

Section WithEnvironment.

Variable E : environment.

Definition resolve (item : value) : M verdict :=
  x <- Client.extract E item ;;
  match x with
  | Client.Continue => ret Skipped
  | Client.NoteObject noteObject =>
      valid <- Client.is_valid_note noteObject ;;
      if valid then
        data <- as_array noteObject ;;
        note <- Note.fromArray E data ;;
        ret (Built note)
      else ret Unparsed
  end.

Fixpoint resolve_each (items : list value) : M (list (value * verdict)) :=
  match items with
  | [] => ret []
  | item :: rest =>
      v <- resolve item ;;
      vs <- resolve_each rest ;;
      ret ((item, v) :: vs)
  end.

End WithEnvironment.

Definition built (vs : list (value * verdict)) : list Note.t :=
  flat_map (fun iv => match snd iv with
                      | Built note => [note]
                      | _ => []
                      end) vs.

Definition unparsed (vs : list (value * verdict)) : list value :=
  flat_map (fun iv => match snd iv with
                      | Unparsed => [fst iv]
                      | _ => []
                      end) vs.

(** The ways a request fails: no transfer, a status outside 2xx, a body
    that is not JSON. *)
Definition failed (r : response) : bool :=
  match r with
  | CurlError => true
  | Reply status body =>
      (status <? 200) || (300 <=? status)
      || match body with
         | None => true
         | Some _ => false
         end
  end.

(** The object or list a successful request delivers. *)
Definition decoded (r : response) : option array :=
  match r with
  | Reply status (Some (VArr a)) =>
      if (status <? 200) || (300 <=? status) then None else Some a
  | _ => None
  end.

End Resolver.

(* ================================================================== *)
(** * [api.php]: the [fetch_posts] action                               *)
(* ================================================================== *)

Module Api.

Import Value.

(** [trim]: space, tab, newline, carriage return, NUL and vertical tab
    are cut from both ends. *)
Definition trim_byte (c : ascii) : bool :=
  Ctype.strchr " " c || Ctype.between 9 11 c || Ctype.ch_eq c "013"
  || Ctype.ch_eq c Ctype.NUL.

Fixpoint ltrim (s : string) : string :=
  match s with
  | String c rest => if trim_byte c then ltrim rest else s
  | EmptyString => s
  end.

Fixpoint rtrim (s : string) : string :=
  match s with
  | String c rest =>
      match rtrim rest with
      | EmptyString => if trim_byte c then EmptyString else String c EmptyString
      | r => String c r
      end
  | EmptyString => s
  end.

Definition trim (s : string) : string := rtrim (ltrim s).

(** [min(max($maxPosts, 1), 50)]. *)
Definition clamp (maxPosts : Z) : Z := Z.min (Z.max maxPosts 1) 50.

Section WithEnvironment.

Variable E : environment.

(** From the validated request to [$responseData]: [actor_url] is the
    field of the request, [max_posts] its [max_posts] as an integer
    when it is set. *)
Definition fetch_posts (actor_url : string) (max_posts : option Z) : M array :=
  let actorUrl := trim actor_url in
  let maxPosts := match max_posts with
                  | Some n => n
                  | None => 20
                  end in
  let maxPosts := clamp maxPosts in
  let client := Client.construct 10 [] in
  result <- Client.fetch E client actorUrl maxPosts ;;
  ret (obj
    [("posts", VArr (list_array (map (fun note => VArr (Note.toArray note))
                                     (Client.posts result))));
     ("actor_info", VArr (Client.actor_info result));
     ("meta", VArr (Client.meta result));
     ("debug_outbox_page", VArr (Client.debug_outbox_page result));
     ("debug_test", VStr (Client.debug_test result))]).

End WithEnvironment.

End Api.

(* ================================================================== *)
(** * [php/FetchException.php] and [php/ParseException.php]            *)
(* ================================================================== *)

Module Exceptions.

(** The class constants: each holds its own name. *)
Definition fetch_code (c : fetch_error) : string :=
  match c with
  | NETWORK_ERROR => "NETWORK_ERROR"
  | HTTP_ERROR => "HTTP_ERROR"
  | TIMEOUT_ERROR => "TIMEOUT_ERROR"
  | INVALID_URL => "INVALID_URL"
  | DOMAIN_NOT_ALLOWED => "DOMAIN_NOT_ALLOWED"
  end.

Definition parse_code (c : parse_error) : string :=
  match c with
  | JSON_ERROR => "JSON_ERROR"
  | INVALID_ACTOR => "INVALID_ACTOR"
  | NO_OUTBOX => "NO_OUTBOX"
  | INVALID_NOTE => "INVALID_NOTE"
  end.

(** [getErrorCode()], which the two classes define. *)
Definition getErrorCode (t : throwable) : option string :=
  match t with
  | FetchException c => Some (fetch_code c)
  | ParseException c => Some (parse_code c)
  | _ => None
  end.

End Exceptions.

(* ================================================================== *)
(** * More of the runtime: escaping, [empty], the integer cast         *)
(* ================================================================== *)

Module Builtin.

Import Ctype.

(** The replacements of [ENT_QUOTES | ENT_HTML5] with [double_encode]
    left on: every ampersand is replaced. *)
Fixpoint escape_all (s : string) : string :=
  match s with
  | EmptyString => EmptyString
  | String c rest =>
      (if ch_eq c "&" then "&amp;"
       else if ch_eq c DQUOTE then "&quot;"
       else if ch_eq c "'" then "&apos;"
       else if ch_eq c "<" then "&lt;"
       else if ch_eq c ">" then "&gt;"
       else String c "")
      ++ escape_all rest
  end.

(** [htmlspecialchars($s, ENT_QUOTES | ENT_HTML5, 'UTF-8')]. *)
Definition htmlspecialchars_encode (s : string) : string :=
  if Php.utf8_valid s then escape_all s else "".

(** [empty($s)] for a string: the empty string and the string 0. *)
Definition empty (s : string) : bool := negb (Value.truthy (VStr s)).

(** [(int)$v]; what the runtime makes of a string and of a float is
    left to the two functions given. *)
Definition intval (string_to_int : string -> Z) (float_to_int : Z -> Z)
  (v : value) : Z :=
  match v with
  | VNull => 0
  | VBool b => if b then 1 else 0
  | VInt n => n
  | VFloat bits => float_to_int bits
  | VStr s => string_to_int s
  | VArr [] => 0
  | VArr _ => 1
  end.

End Builtin.

(* ================================================================== *)
(** * [php/ErrorResponse.php]                                          *)
(* ================================================================== *)

Module ErrorResponse.

Import Value.

(** One entry of [$errorMessages]. *)
Record info := {
  message : string;
  user_message : string
}.

Definition errorMessages : list (string * info) :=
  [("INVALID_URL",
    {| message := "Invalid URL format";
       user_message := "URLの形式が正しくありません。HTTPSのURLを入力してください。" |});
   ("DOMAIN_NOT_ALLOWED",
    {| message := "Domain not allowed";
       user_message := "許可されていないドメインです。" |});
   ("NETWORK_ERROR",
    {| message := "Network connection failed";
       user_message := "ネットワーク接続に失敗しました。しばらく時間をおいてから再試行してください。" |});
   ("HTTP_ERROR",
    {| message := "HTTP request failed";
       user_message := "データの取得に失敗しました。URLが正しいか確認してください。" |});
   ("TIMEOUT_ERROR",
    {| message := "Request timeout";
       user_message := "応答時間が長すぎます。しばらく時間をおいてから再試行してください。" |});
   ("JSON_ERROR",
    {| message := "JSON parsing failed";
       user_message := "データの解析に失敗しました。" |});
   ("INVALID_ACTOR",
    {| message := "Invalid ActivityPub Actor";
       user_message := "有効なActivityPubユーザーではありません。" |});
   ("NO_OUTBOX",
    {| message := "Outbox not found";
       user_message := "投稿データが見つかりません。" |});
   ("INVALID_NOTE",
    {| message := "Invalid Note object";
       user_message := "投稿データの形式が正しくありません。" |});
   ("UNKNOWN_ERROR",
    {| message := "Unknown error occurred";
       user_message := "予期しないエラーが発生しました。" |})].

(** [self::$errorMessages[$k]]. *)
Fixpoint entry (table : list (string * info)) (k : string) : option info :=
  match table with
  | [] => None
  | (k', i) :: rest => if String.eqb k' k then Some i else entry rest k
  end.

(** [self::$errorMessages[$errorCode] ?? self::$errorMessages['UNKNOWN_ERROR']]. *)
Definition errorInfo (errorCode : string) : option info :=
  match entry errorMessages errorCode with
  | Some i => Some i
  | None => entry errorMessages "UNKNOWN_ERROR"
  end.

(** What the script ends with: the status given to [http_response_code]
    and the array given to [json_encode] and echoed before [exit].  The
    content type sent with it is always JSON. *)
Record answer := {
  http_response_code : Z;
  response : array
}.

Section WithEnvironment.

Variable E : environment.

(** A field read from [$errorInfo]; reading it from null gives null. *)
Definition field (i : option info) (f : info -> string) : value :=
  match i with
  | Some x => VStr (f x)
  | None => VNull
  end.

Definition output (errorCode : string) (customMessage : option string)
  (httpCode : Z) : M answer :=
  let errorInfo := errorInfo errorCode in
  timestamp <- now_local E ;;
  ret {| http_response_code := httpCode;
         response :=
           obj [("success", VBool false);
                ("error",
                 VArr (obj [("code", VStr errorCode);
                            ("message", match customMessage with
                                        | Some m => VStr m
                                        | None => field errorInfo message
                                        end);
                            ("user_message", field errorInfo user_message);
                            ("timestamp", VStr (Date.format_c timestamp))]))] |}.

(** [fromException($exception)]; [getMessage] is the message the
    exception carries.  The parameter is declared [Exception]. *)
Definition fromException (exception : throwable) (getMessage : string) : M answer :=
  if negb (instanceof_Exception exception) then throw TypeError
  else
    let '(errorCode, httpCode) :=
      match Exceptions.getErrorCode exception with
      | Some code => (code, 400)
      | None => ("UNKNOWN_ERROR", 500)
      end in
    output errorCode (Some getMessage) httpCode.

End WithEnvironment.

Definition success (data : array) : answer :=
  {| http_response_code := 200;
     response := obj [("success", VBool true); ("data", VArr data)] |}.

End ErrorResponse.

(* ================================================================== *)
(** * [php/SecurityHandler.php]                                        *)
(* ================================================================== *)

Module SecurityHandler.

Import Value.

(** The [header] calls of [setCorsHeaders], and whether it ends the
    script (the answer to a preflight request has status 200 and no
    body). *)
Definition setCorsHeaders (allowedOrigin REQUEST_METHOD : string)
  : list string * bool :=
  (["Access-Control-Allow-Origin: " ++ allowedOrigin;
    "Access-Control-Allow-Methods: GET, POST, OPTIONS";
    "Access-Control-Allow-Headers: Content-Type, Accept";
    "Access-Control-Max-Age: 86400"],
   String.eqb REQUEST_METHOD "OPTIONS").

(** The [header] calls of [setSecurityHeaders]; [HTTPS] is
    [$_SERVER['HTTPS']] when it is set. *)
Definition setSecurityHeaders (HTTPS : option string) : list string :=
  (["X-Content-Type-Options: nosniff";
    "X-Frame-Options: DENY";
    "X-XSS-Protection: 1; mode=block"]
   ++ match HTTPS with
      | Some v => if String.eqb v "on"
                  then ["Strict-Transport-Security: max-age=31536000; includeSubDomains"]
                  else []
      | None => []
      end
   ++ ["Content-Type: application/json; charset=utf-8"])%list.

Definition allowedTags : string :=
  "<p><br><a><strong><em><b><i><u><s><code><pre><blockquote><ul><ol><li>".

Definition sanitizeForOutput (text : string) : string :=
  Builtin.htmlspecialchars_encode text.

Section WithEnvironment.

Variable E : environment.

Definition sanitizeHtml (content : string) : string :=
  let sanitized := Php.strip_tags content (Some allowedTags) in
  let sanitized := Php.htmlspecialchars (html5_entity E) sanitized in
  if 10000 <? Php.mb_strlen sanitized
  then Php.mb_substr0 sanitized 10000 ++ "..."
  else sanitized.

Definition outputError (errorCode message userMessage : string) (httpCode : Z)
  : M ErrorResponse.answer :=
  timestamp <- now_local E ;;
  ret {| ErrorResponse.http_response_code := httpCode;
         ErrorResponse.response :=
           obj [("success", VBool false);
                ("error",
                 VArr (obj [("code", VStr errorCode);
                            ("message", VStr (sanitizeForOutput message));
                            ("user_message", VStr (sanitizeForOutput userMessage));
                            ("timestamp", VStr (Date.format_c timestamp))]))] |}.

End WithEnvironment.

(** [validateJsonInput]; [json_decode s] is what [json_decode($s, true)]
    returns, [None] when [json_last_error()] is set after it.  The
    declared return type is [array]. *)
Definition validateJsonInput (json_decode : string -> option value)
  (jsonInput : string) : outcome array :=
  match json_decode jsonInput with
  | None => Thrown (ParseException JSON_ERROR)
  | Some data =>
      if negb (isset (at_key data "action")) || negb (isset (at_key data "actor_url"))
      then Thrown (ParseException JSON_ERROR)
      else if negb (identical_str (coalesce (at_key data "action") VNull) "fetch_posts")
      then Thrown (ParseException JSON_ERROR)
      else
        let actor_url := coalesce (at_key data "actor_url") VNull in
        if negb (is_string actor_url)
           || Builtin.empty (Api.trim (Client.url_of actor_url))
        then Thrown (ParseException JSON_ERROR)
        else match data with
             | VArr a => Returned a
             | _ => Thrown TypeError
             end
  end.

End SecurityHandler.

(* ================================================================== *)
(** * [api.php]: the script                                            *)
(* ================================================================== *)

Module Endpoint.

Import Value.

(** What the script reads of the request: two entries of [$_SERVER] and
    the body ([php://input]). *)
Record request := {
  REQUEST_METHOD : string;
  HTTPS : option string;
  input : string
}.

(** The functions of the runtime the script relies on and that are not
    written out: [json_decode] (see [SecurityHandler.validateJsonInput])
    and the integer casts of a string and of a float. *)
Record runtime := {
  json_decode : string -> option value;
  string_to_int : string -> Z;
  float_to_int : Z -> Z
}.

(** How the script ends: the call of [ErrorResponse] that writes the
    answer and exits (an exception is kept without its message), or the
    exit of [setCorsHeaders] on a preflight request. *)
Inductive ending :=
| Preflight
| Output (errorCode customMessage : string) (httpCode : Z)
| FromException (e : throwable)
| Success (data : array).

Section WithEnvironment.

Variable E : environment.
Variable R : runtime.

(** The [header] calls made before anything else. *)
Definition headers (req : request) : list string :=
  (SecurityHandler.setSecurityHeaders (HTTPS req)
   ++ fst (SecurityHandler.setCorsHeaders "*" (REQUEST_METHOD req)))%list.

(** The action, from the validated request on. *)
Definition dispatch (requestData : array) : M ending :=
  if identical_str (coalesce (get requestData "action") VNull) "fetch_posts" then
    actor_url <- as_string E (coalesce (get requestData "actor_url") VNull) ;;
    responseData <-
      Api.fetch_posts E actor_url
        (option_map (Builtin.intval (string_to_int R) (float_to_int R))
                    (get requestData "max_posts")) ;;
    ret (Success responseData)
  else ret (Output "INVALID_ACTION" "Unsupported action" 400).

(** The body of the [try]. *)
Definition attempt (req : request) : M ending :=
  if negb (String.eqb (REQUEST_METHOD req) "POST")
  then ret (Output "INVALID_REQUEST" "Only POST method is allowed" 405)
  else if Builtin.empty (input req)
  then ret (Output "JSON_ERROR" "Empty request body" 400)
  else
    requestData <- lift (SecurityHandler.validateJsonInput (json_decode R) (input req)) ;;
    dispatch requestData.

(** The three [catch] clauses: an [Error] is caught by none of them. *)
Definition handle (t : throwable) : M ending :=
  match t with
  | FetchException _ | ParseException _ => ret (FromException t)
  | _ =>
      if instanceof_Exception t
      then ret (Output "UNKNOWN_ERROR" "An unexpected error occurred" 500)
      else throw t
  end.

Definition main (req : request) : M ending :=
  if snd (SecurityHandler.setCorsHeaders "*" (REQUEST_METHOD req)) then ret Preflight
  else
    fun w =>
      match attempt req w with
      | (Thrown t, w') => handle t w'
      | done => done
      end.

End WithEnvironment.

End Endpoint.

(* ================================================================== *)
(** * A small federation to run the pipeline on                         *)
(* ================================================================== *)

Module Reference.

Import Value.

Definition number (s : string) : option Z :=
  match s with
  | EmptyString => None
  | _ => if Php.all_bytes Ctype.isdigit s
         then Some (fst (Php.strtol_digits false 0 s))
         else None
  end.

Fixpoint skip_digits (s : string) : string :=
  match s with
  | String c rest => if Ctype.isdigit c then skip_digits rest else s
  | EmptyString => s
  end.

(** The zone designator of an ISO 8601 timestamp: [Z] or [+hh:mm]. *)
Definition zone (s : string) : option Z :=
  if String.eqb s "Z" then Some 0
  else
    match number (substring 1 2 s), number (substring 4 2 s) with
    | Some h, Some m =>
        if negb (String.length s =? 6)%nat || negb (String.eqb (substring 3 1 s) ":")
        then None
        else if String.eqb (substring 0 1 s) "+" then Some (h * 3600 + m * 60)
        else if String.eqb (substring 0 1 s) "-" then Some (- (h * 3600 + m * 60))
        else None
    | _, _ => None
    end.

(** The two forms of date text the examples use: nothing or [now] for the
    time of the call, and [YYYY-MM-DDThh:mm:ss] with an optional fraction
    and a zone designator.  Everything else is refused here. *)
Definition iso8601 (default_offset : Z -> Z) (now : Z) (text : string)
  : option DateTime :=
  if String.eqb text "" || String.eqb text "now"
  then Some {| timestamp := now; utc_offset := default_offset now |}
  else
    match number (substring 0 4 text), number (substring 5 2 text),
          number (substring 8 2 text), number (substring 11 2 text),
          number (substring 14 2 text), number (substring 17 2 text) with
    | Some y, Some mo, Some d, Some h, Some mi, Some se =>
        if String.eqb (substring 4 1 text) "-" && String.eqb (substring 7 1 text) "-"
           && String.eqb (substring 10 1 text) "T"
           && String.eqb (substring 13 1 text) ":"
           && String.eqb (substring 16 1 text) ":"
        then
          let tail := Php.drop 19 text in
          let tail := match tail with
                      | String "." rest => skip_digits rest
                      | _ => tail
                      end in
          match zone tail with
          | Some off =>
              Some {| timestamp :=
                        Date.days_from_civil y mo d * 86400 + h * 3600 + mi * 60 + se - off;
                      utc_offset := off |}
          | None => None
          end
        else None
    | _, _, _, _, _, _ => None
    end.

Definition actorUrl : string := "https://social.example/users/alice".
Definition outboxUrl : string := "https://social.example/users/alice/outbox".
Definition firstUrl : string := "https://social.example/users/alice/outbox?page=1".
Definition nextUrl : string := "https://social.example/users/alice/outbox?page=2".

Definition actor : array :=
  obj [("id", VStr actorUrl); ("type", VStr "Person"); ("outbox", VStr outboxUrl);
       ("preferredUsername", VStr "alice"); ("summary", VStr "<p>Hello</p>")].

Definition outbox : array :=
  obj [("type", VStr "OrderedCollection"); ("totalItems", VInt 7);
       ("first", VStr firstUrl)].

Definition note (id text : string) : array :=
  obj [("type", VStr "Note"); ("id", VStr id); ("content", VStr text);
       ("published", VStr "2024-08-10T12:34:56Z");
       ("attributedTo", VStr actorUrl)].

(** A valid note without [published]. *)
Definition undated : array :=
  obj [("type", VStr "Note"); ("id", VStr "https://social.example/notes/8");
       ("content", VStr "when?")].

Definition n1 : array := note "https://social.example/notes/1" "<p>hi</p>".
Definition n3 : array := note "https://other.example/notes/3" "boosted".
Definition article : array :=
  obj [("type", VStr "Article"); ("id", VStr "https://other.example/articles/4");
       ("content", VStr "long read")].

Definition create_embedded : value :=
  VArr (obj [("type", VStr "Create"); ("object", VArr n1)]).
Definition announce_note : value :=
  VArr (obj [("type", VStr "Announce"); ("object", VStr "https://other.example/notes/3")]).
Definition announce_article : value :=
  VArr (obj [("type", VStr "Announce");
             ("object", VStr "https://other.example/articles/4")]).
Definition announce_gone : value :=
  VArr (obj [("type", VStr "Announce"); ("object", VStr "https://gone.example/notes/5")]).
Definition create_gone : value :=
  VArr (obj [("type", VStr "Create"); ("object", VStr "https://gone.example/notes/6")]).
Definition like : value :=
  VArr (obj [("type", VStr "Like"); ("object", VStr "https://other.example/notes/3")]).
Definition reference_gone : value := VStr "https://gone.example/activities/7".

Definition items : array :=
  list_array [create_embedded; announce_note; announce_article; announce_gone;
              create_gone; like; reference_gone].

Definition page : array :=
  obj [("type", VStr "OrderedCollectionPage"); ("next", VStr nextUrl);
       ("orderedItems", VArr items)].

(** Every server answers the same whenever it is asked; [gone.example]
    answers 404 and unknown hosts refuse the connection. *)
Definition serve (n : nat) (url : string) : response :=
  if String.eqb url actorUrl then Reply 200 (Some (VArr actor))
  else if String.eqb url outboxUrl then Reply 200 (Some (VArr outbox))
  else if String.eqb url firstUrl then Reply 200 (Some (VArr page))
  else if String.eqb url "https://other.example/notes/3" then Reply 200 (Some (VArr n3))
  else if String.eqb url "https://other.example/articles/4"
  then Reply 200 (Some (VArr article))
  else if Php.str_starts_with url "https://gone.example/" then Reply 404 None
  else CurlError.

(** The clock advances by a minute at every reading; the documents of
    the federation hold no float, and no host of the federation is a
    number. *)
Definition env : environment :=
  {| net := serve;
     clock := fun n => 1723293296 + 60 * Z.of_nat n;
     default_offset := fun _ => 0;
     timelib := iso8601 (fun _ => 0);
     html5_entity := fun name => Php.member name ["amp"; "lt"; "gt"; "quot"; "apos"];
     validate_ipv6 := fun _ => false;
     float_text := fun _ => "0";
     numeric_equal := String.eqb |}.

Definition client : Client.t := Client.construct 10 [].

End Reference.

(* ================================================================== *)
(** * Markup made of text and simple tags                               *)
(* ================================================================== *)

(** A document as a list of text runs and tags [<name>], [</name>]: the
    shape on which what the tag filter does can be said without the
    filter itself. *)
Module Markup.

Import Ctype.

Inductive token :=
| Text (s : string)
| Open (name : string)
| Close (name : string).

Definition render_token (t : token) : string :=
  match t with
  | Text s => s
  | Open name => "<" ++ name ++ ">"
  | Close name => "</" ++ name ++ ">"
  end.

Fixpoint render (doc : list token) : string :=
  match doc with
  | [] => ""
  | t :: rest => render_token t ++ render rest
  end.

(** A text run holds no [<] and no NUL; a tag name is a non-empty run of
    letters and digits. *)
Definition text_byte (c : ascii) : bool := negb (ch_eq c NUL) && negb (ch_eq c "<").

Definition name_ok (name : string) : bool :=
  negb (String.eqb name "") && Php.all_bytes isalnum name.

Definition well_formed (t : token) : bool :=
  match t with
  | Text s => Php.all_bytes text_byte s
  | Open name | Close name => name_ok name
  end.

(** The whitelist of the specification. *)
Definition whitelist : list string :=
  ["p"; "br"; "a"; "strong"; "em"; "b"; "i"; "u"; "s"; "code"; "pre";
   "blockquote"; "ul"; "ol"; "li"].

Definition whitelisted (name : string) : bool :=
  Php.member (Php.strtolower name) whitelist.

Definition kept (t : token) : bool :=
  match t with
  | Text _ => true
  | Open name | Close name => whitelisted name
  end.

(** No byte of [s] is [d]. *)
Definition free_of (d : ascii) (s : string) : bool :=
  Php.all_bytes (fun c => negb (ch_eq c d)) s.

(** The name of the tag written [<inner>]: in lower case, without the
    slash of a closing tag, cut at the first white space after it. *)
Definition tag_name (inner : string) : string :=
  Php.tag_normalize false (inner ++ ">").

(** Text in which every tag is a whitelisted one: bytes other than [<], a
    [<] that white space follows (no tag starts there), and tags
    [<inner>] whose name is on the whitelist. *)
Inductive only_whitelisted_tags : string -> Prop :=
| owt_end : only_whitelisted_tags ""
| owt_byte (c : ascii) (s : string) :
    ch_eq c "<" = false ->
    only_whitelisted_tags s -> only_whitelisted_tags (String c s)
| owt_less_than (s : string) :
    isspace (Php.peek s) = true ->
    only_whitelisted_tags s -> only_whitelisted_tags (String "<" s)
| owt_tag (inner s : string) :
    free_of ">" inner = true ->
    In (tag_name inner) whitelist ->
    only_whitelisted_tags s ->
    only_whitelisted_tags ("<" ++ inner ++ ">" ++ s).

(** Plain characters: printable ASCII other than the five that HTML
    gives a meaning to. *)
Definition plain_byte (c : ascii) : bool :=
  between 32 126 c
  && negb (ch_eq c "&" || ch_eq c "<" || ch_eq c ">" || ch_eq c "'" || ch_eq c DQUOTE).

Fixpoint replicate (n : nat) (c : ascii) : string :=
  match n with
  | O => ""
  | S n' => String c (replicate n' c)
  end.

End Markup.

(* ================================================================== *)
(** * Shapes of strings and of failures                                *)
(* ================================================================== *)

Module Shape.

Import Ctype.

(** The four bytes that open or close a tag or an attribute value. *)
Definition markup_byte (c : ascii) : bool :=
  ch_eq c "<" || ch_eq c ">" || ch_eq c DQUOTE || ch_eq c "'".

Definition markup_free (s : string) : bool :=
  Php.all_bytes (fun c => negb (markup_byte c)) s.

(** The five bytes that [htmlspecialchars] replaces. *)
Definition special (c : ascii) : bool := ch_eq c "&" || markup_byte c.

(** Two strings that agree up to a byte that [htmlspecialchars]
    replaces, where the second has an ampersand. *)
Inductive alike : string -> string -> Prop :=
| alike_end : alike "" ""
| alike_byte (c : ascii) (a b : string) :
    special c = false -> alike a b -> alike (String c a) (String c b)
| alike_special (c : ascii) (a b : string) :
    special c = true -> alike (String c a) (String "&" b).

Definition nul_free (s : string) : bool :=
  Php.all_bytes (fun c => negb (ch_eq c NUL)) s.

(** A test of the entity parser: no byte that is replaced passes it. *)
Definition blind (f : ascii -> bool) : Prop :=
  forall c, special c = true -> f c = false.

(** Two steps of [process_numeric_entity]: the bytes after an optional
    [x], and the digits without a [0x] that a digit follows. *)
Definition after_x (hex : bool) (s : string) : string :=
  if hex then match s with String _ r => r | _ => s end else s.

Definition after_0x (hex : bool) (s1 : string) : string :=
  match s1 with
  | String z (String x (String d r)) =>
      if hex && ch_eq z "0" && ch_eq (tolower x) "x" && isxdigit d
      then String d r else s1
  | _ => s1
  end.

(** No tag starts in [s]: white space follows every [<]. *)
Fixpoint tagless (s : string) : bool :=
  match s with
  | EmptyString => true
  | String c rest =>
      (negb (ch_eq c "<") || isspace (Php.peek rest)) && tagless rest
  end.

(** Every ampersand of [s] starts one of the five character references
    that [htmlspecialchars] writes. *)
Fixpoint references_only (s : string) : bool :=
  match s with
  | EmptyString => true
  | String c rest =>
      (negb (ch_eq c "&")
       || existsb (fun name => String.prefix name rest)
                  ["amp;"; "quot;"; "apos;"; "lt;"; "gt;"])
      && references_only rest
  end.

(** What [Client::fetch] can end with when it throws: every code but
    the two that nothing raises. *)
Definition fetch_failure (t : throwable) : bool :=
  match t with
  | FetchException TIMEOUT_ERROR => false
  | ParseException NO_OUTBOX => false
  | _ => true
  end.

(** An attachment as [Note::fromArray] writes it: a lower-case type, the
    three keys of every attachment, and the two sizes when the type is
    [image]. *)
Definition attachment_shape (a : array) : Prop :=
  exists type,
    Value.lookup a "type" = Some (VStr type)
    /\ Php.strtolower type = type
    /\ map fst a
       = if String.eqb type "image"
         then [KStr "type"; KStr "url"; KStr "alt_text"; KStr "width"; KStr "height"]
         else [KStr "type"; KStr "url"; KStr "alt_text"].

(** A post of a response whose [content] holds no markup byte and has
    at most 10003 characters. *)
Definition inert_post (post : value) : Prop :=
  exists fields content,
    post = VArr fields
    /\ Value.lookup fields "content" = Some (VStr content)
    /\ markup_free content = true
    /\ Php.mb_strlen content <= 10003.

End Shape.

(* ================================================================== *)
(** * More documents and requests to run the code on                   *)
(* ================================================================== *)

Module Scenario.

Import Value.

(** A note whose date the parser of the reference federation refuses. *)
Definition misdated : array :=
  obj [("type", VStr "Note"); ("id", VStr "https://social.example/notes/9");
       ("content", VStr "late"); ("published", VStr "the day before yesterday")].

(** A note with a summary and no content. *)
Definition summary_only : array :=
  obj [("type", VStr "Note"); ("id", VStr "https://social.example/notes/10");
       ("summary", VStr "spoiler")].

(** A note with a picture, a video and an entry that is no attachment. *)
Definition illustrated : array :=
  obj [("type", VStr "Note"); ("id", VStr "https://social.example/notes/11");
       ("content", VStr "look");
       ("attachment",
        VArr (list_array
                [VArr (obj [("type", VStr "Image");
                            ("url", VStr "https://social.example/media/1.png");
                            ("name", VStr "a cat"); ("width", VInt 640)]);
                 VStr "https://social.example/media/2.png";
                 VArr (obj [("type", VStr "Video");
                            ("url", VStr "https://social.example/media/3.mp4")])]))].

(** The body of a request, with the text of its JSON document. *)
Definition quoted (s : string) : string :=
  String Ctype.DQUOTE s ++ String Ctype.DQUOTE "".

Definition body : string :=
  "{" ++ quoted "action" ++ ":" ++ quoted "fetch_posts" ++ ","
  ++ quoted "actor_url" ++ ":" ++ quoted Reference.actorUrl ++ ","
  ++ quoted "max_posts" ++ ":1}".

Definition body_decoded : array :=
  obj [("action", VStr "fetch_posts"); ("actor_url", VStr Reference.actorUrl);
       ("max_posts", VInt 1)].

(** A runtime that knows this one document. *)
Definition runtime : Endpoint.runtime :=
  {| Endpoint.json_decode :=
       fun s => if String.eqb s body then Some (VArr body_decoded) else None;
     Endpoint.string_to_int := fun _ => 0;
     Endpoint.float_to_int := fun _ => 0 |}.

Definition post : Endpoint.request :=
  {| Endpoint.REQUEST_METHOD := "POST"; Endpoint.HTTPS := Some "on";
     Endpoint.input := body |}.

(** A server that answers one URL with status 200 and the JSON text
    [null], beside the servers of the reference federation. *)
Definition voidUrl : string := "https://void.example/notes/12".

Definition serve_void (n : nat) (url : string) : response :=
  if String.eqb url voidUrl then Reply 200 (Some VNull) else Reference.serve n url.

Definition env_void : environment :=
  {| net := serve_void;
     clock := clock Reference.env;
     default_offset := default_offset Reference.env;
     timelib := timelib Reference.env;
     html5_entity := html5_entity Reference.env;
     validate_ipv6 := validate_ipv6 Reference.env;
     float_text := float_text Reference.env;
     numeric_equal := numeric_equal Reference.env |}.

Definition announce_void : value :=
  VArr (obj [("type", VStr "Announce"); ("object", VStr voidUrl)]).

End Scenario.

(* ================================================================== *)
(** * Shapes of runs                                                   *)
(* ================================================================== *)

Module Runs.

(** At most [n] requests whatever the outcome, and no failure other
    than those of [Shape.fetch_failure]. *)
Definition tame {A} (n : nat) (m : M A) : Prop :=
  forall w,
    (exists l, requests (snd (m w)) = (requests w ++ l)%list /\ (length l <= n)%nat)
    /\ (forall t, fst (m w) = Thrown t -> Shape.fetch_failure t = true).

(** No failure other than those of [Shape.fetch_failure]. *)
Definition safe {A} (m : M A) : Prop :=
  forall w t, fst (m w) = Thrown t -> Shape.fetch_failure t = true.

Section WithEnvironment.

Variable E : environment.
Variable R : Endpoint.runtime.

(** What the body of the [try] of [api.php] can come to. *)
Inductive attempted (req : Endpoint.request) (w : world)
  : outcome Endpoint.ending * world -> Prop :=
| Not_post :
    Endpoint.REQUEST_METHOD req <> "POST" ->
    attempted req w
      (Returned (Endpoint.Output "INVALID_REQUEST" "Only POST method is allowed" 405), w)
| Empty_body :
    Endpoint.REQUEST_METHOD req = "POST" ->
    attempted req w (Returned (Endpoint.Output "JSON_ERROR" "Empty request body" 400), w)
| Bad_body :
    Endpoint.REQUEST_METHOD req = "POST" ->
    attempted req w (Thrown (ParseException JSON_ERROR), w)
| Action (requestData : array) (u : string) :
    Endpoint.REQUEST_METHOD req = "POST" ->
    SecurityHandler.validateJsonInput (Endpoint.json_decode R) (Endpoint.input req)
    = Returned requestData ->
    Value.get requestData "actor_url" = Some (VStr u) ->
    attempted req w
      ((responseData <-
          Api.fetch_posts E u
            (option_map
               (Builtin.intval (Endpoint.string_to_int R) (Endpoint.float_to_int R))
               (Value.get requestData "max_posts")) ;;
        ret (Endpoint.Success responseData)) w).

End WithEnvironment.

End Runs.

(* ================================================================== *)
(** * Properties                                                       *)
(* ================================================================== *)

(** ** Strings *)

Lemma append_nil_r (s : string) : s ++ "" = s.
Proof. induction s; simpl; congruence. Qed.

Lemma append_assoc (a b c : string) : (a ++ b) ++ c = a ++ (b ++ c).
Proof. induction a; simpl; congruence. Qed.

Lemma append_cons (c : ascii) (a b : string) : String c a ++ b = String c (a ++ b).
Proof. reflexivity. Qed.

Lemma length_append (a b : string) :
  String.length (a ++ b) = (String.length a + String.length b)%nat.
Proof. induction a; simpl; congruence. Qed.

Lemma all_bytes_append (p : ascii -> bool) (a b : string) :
  Php.all_bytes p (a ++ b) = Php.all_bytes p a && Php.all_bytes p b.
Proof.
  induction a as [|c a IH]; simpl; [reflexivity|].
  rewrite IH. now rewrite andb_assoc.
Qed.

Lemma all_bytes_impl (p q : ascii -> bool) (s : string) :
  (forall c, p c = true -> q c = true) ->
  Php.all_bytes p s = true -> Php.all_bytes q s = true.
Proof.
  intros Hpq. induction s as [|c s IH]; [reflexivity|].
  cbn [Php.all_bytes]. intros H. apply andb_prop in H as [Hc H].
  now rewrite (Hpq c Hc), IH.
Qed.

(** Case analysis over the 256 bytes. *)
Ltac each_byte c :=
  destruct c as [[] [] [] [] [] [] [] []]; try discriminate; try reflexivity.

(** ** The tag filter on simple markup *)

Module StripFacts.

Import Ctype Php Markup.

(** What a letter or digit is not. *)
Record name_byte (c : ascii) : Prop := {
  nb_nul : ch_eq c NUL = false;
  nb_lt : ch_eq c "<" = false;
  nb_gt : ch_eq c ">" = false;
  nb_dq : ch_eq c DQUOTE = false;
  nb_sq : ch_eq c "'" = false;
  nb_bang : ch_eq c "!" = false;
  nb_quest : ch_eq c "?" = false;
  nb_dash : ch_eq c "-" = false;
  nb_space : isspace c = false;
  nb_low_lt : ch_eq (tolower c) "<" = false;
  nb_low_gt : ch_eq (tolower c) ">" = false;
  nb_low_slash : ch_eq (tolower c) "/" = false;
  nb_low_space : isspace (tolower c) = false
}.

Lemma isalnum_name_byte (c : ascii) : isalnum c = true -> name_byte c.
Proof. intros H. each_byte c; constructor; reflexivity. Qed.

Lemma strtolower_append (a b : string) :
  strtolower (a ++ b) = strtolower a ++ strtolower b.
Proof. induction a; simpl; congruence. Qed.

(** *** [php_tag_find] and the whitelist *)

Lemma tag_normalize_name (name rest : string) :
  all_bytes isalnum name = true ->
  tag_normalize true (name ++ String ">" rest) = strtolower name.
Proof.
  induction name as [|c name IH]; intros H; [reflexivity|].
  simpl in H. apply andb_prop in H as [Hc Hn].
  destruct (isalnum_name_byte c Hc).
  rewrite append_cons. cbn [tag_normalize].
  rewrite nb_low_lt0, nb_low_gt0, nb_low_space0, nb_low_slash0.
  cbn. now rewrite IH.
Qed.

Lemma tag_normalize_open (name : string) :
  all_bytes isalnum name = true ->
  tag_normalize false ("<" ++ name ++ ">") = "<" ++ strtolower name.
Proof.
  intros H. destruct name as [|c name]; [reflexivity|].
  pose proof (tag_normalize_name (String c name) "" H) as Hn.
  simpl in H. apply andb_prop in H as [Hc _].
  destruct (isalnum_name_byte c Hc).
  change ("<" ++ String c name ++ ">") with (String "<" (String c (name ++ ">"))).
  cbn [tag_normalize]. cbn [tolower isupper between code N_of_ascii ascii_of_N].
  change (tolower "<") with "<"%char. cbn [ch_eq Ascii.eqb Bool.eqb].
  rewrite append_cons in Hn. cbn [tag_normalize] in Hn.
  rewrite nb_low_lt0, nb_low_gt0, nb_low_space0, nb_low_slash0 in *.
  cbn in *. now rewrite Hn.
Qed.

Lemma tag_normalize_close (name : string) :
  name_ok name = true ->
  tag_normalize false ("</" ++ name ++ ">") = "<" ++ strtolower name.
Proof.
  unfold name_ok. intros H. apply andb_prop in H as [Hne H].
  destruct name as [|c name]; [discriminate|].
  pose proof (tag_normalize_name (String c name) "" H) as Hn.
  simpl in H. apply andb_prop in H as [Hc _].
  destruct (isalnum_name_byte c Hc).
  change ("</" ++ String c name ++ ">")
    with (String "<" (String "/" (String c (name ++ ">")))).
  cbn [tag_normalize]. change (tolower "<") with "<"%char.
  change (tolower "/") with "/"%char. cbn [ch_eq Ascii.eqb Bool.eqb peek].
  change (isspace "/") with false. cbn [negb orb].
  rewrite nb_gt0. now rewrite <- Hn.
Qed.

Lemma ascii_dec_eqb (A : Type) (a b : ascii) (x y : A) :
  (if ascii_dec a b then x else y) = (if Ascii.eqb a b then x else y).
Proof.
  destruct (ascii_dec a b) as [->|Hne].
  - now rewrite Ascii.eqb_refl.
  - apply Ascii.eqb_neq in Hne. now rewrite Hne.
Qed.

Lemma prefix_empty (s : string) : String.prefix "" s = true.
Proof. now destruct s. Qed.

Lemma prefix_cons (a b : ascii) (s1 s2 : string) :
  String.prefix (String a s1) (String b s2) = Ascii.eqb a b && String.prefix s1 s2.
Proof. cbn [String.prefix]. now rewrite ascii_dec_eqb. Qed.

Lemma strstr_cons (c : ascii) (h needle : string) :
  strstr (String c h) needle = String.prefix needle (String c h) || strstr h needle.
Proof. reflexivity. Qed.

Lemma prefix_tag (name t rest : string) :
  free_of ">" name = true -> free_of ">" t = true ->
  String.prefix (name ++ ">") (t ++ String ">" rest) = String.eqb name t.
Proof.
  revert t. induction name as [|a name IH]; intros [|b t] Hn Ht; simpl in Hn, Ht;
    rewrite ?append_cons; cbn [append String.eqb]; rewrite prefix_cons.
  - now rewrite prefix_empty.
  - apply andb_prop in Ht as [Hb _]. unfold ch_eq in Hb.
    rewrite Ascii.eqb_sym. now destruct (Ascii.eqb b ">").
  - apply andb_prop in Hn as [Ha _]. unfold ch_eq in Ha.
    now destruct (Ascii.eqb a ">").
  - apply andb_prop in Hn as [_ Hn]. apply andb_prop in Ht as [_ Ht].
    now rewrite IH.
Qed.

Lemma strstr_skip (t rest needle : string) :
  free_of "<" t = true ->
  strstr (t ++ rest) (String "<" needle) = strstr rest (String "<" needle).
Proof.
  induction t as [|c t IH]; intros H; [reflexivity|].
  simpl in H. apply andb_prop in H as [Hc Ht].
  rewrite append_cons, strstr_cons, prefix_cons, Ascii.eqb_sym.
  unfold ch_eq in Hc. destruct (Ascii.eqb c "<"); [discriminate|].
  now rewrite IH.
Qed.

(** The allowed set written as the list of its names. *)
Fixpoint tags_string (names : list string) : string :=
  match names with
  | [] => ""
  | t :: rest => "<" ++ t ++ ">" ++ tags_string rest
  end.

Lemma strstr_tags_string (names : list string) (name : string) :
  free_of ">" name = true ->
  forallb (fun t => free_of "<" t && free_of ">" t) names = true ->
  strstr (tags_string names) ("<" ++ name ++ ">") = member name names.
Proof.
  intros Hn. induction names as [|t names IH]; intros H; [reflexivity|].
  simpl in H. apply andb_prop in H as [Ht H]. apply andb_prop in Ht as [Hlt Hgt].
  change (tags_string (t :: names)) with (String "<" (t ++ String ">" (tags_string names))).
  change ("<" ++ name ++ ">") with (String "<" (name ++ ">")).
  rewrite strstr_cons, prefix_cons, prefix_tag by assumption.
  rewrite strstr_skip by assumption.
  rewrite strstr_cons, prefix_cons.
  change (Ascii.eqb "<" "<") with true. change (Ascii.eqb "<" ">") with false.
  cbn [andb orb]. change (String "<" (name ++ ">")) with ("<" ++ name ++ ">").
  now rewrite IH.
Qed.

Lemma strtolower_free (d : ascii) (name : string) :
  all_bytes isalnum name = true -> isalnum d = false ->
  free_of d (strtolower name) = true.
Proof.
  intros H Hd. induction name as [|c name IH]; [reflexivity|].
  simpl in H. apply andb_prop in H as [Hc Hn].
  change (free_of d (strtolower (String c name)))
    with (negb (ch_eq (tolower c) d) && free_of d (strtolower name)).
  rewrite (IH Hn), andb_true_r. unfold ch_eq.
  destruct (Ascii.eqb_spec (tolower c) d) as [<-|]; [|reflexivity].
  clear -Hc Hd. each_byte c.
Qed.

(** A simple tag passes [php_tag_find] exactly when its name, in lower
    case, is one of the fifteen of the whitelist. *)
Lemma php_tag_find_whitelist (slash name : string) :
  slash = "" \/ slash = "/" ->
  name_ok name = true ->
  php_tag_find ("<" ++ slash ++ name ++ ">") (strtolower Note.allowedTags)
  = whitelisted name.
Proof.
  intros Hs H. pose proof H as Hok. unfold name_ok in H.
  apply andb_prop in H as [_ Hal].
  assert (tag_normalize false ("<" ++ slash ++ name ++ ">") = "<" ++ strtolower name)
    as Hnorm.
  { destruct Hs as [-> | ->].
    - now apply tag_normalize_open.
    - now apply tag_normalize_close. }
  unfold php_tag_find.
  change ("<" ++ slash ++ name ++ ">") with (String "<" (slash ++ name ++ ">")) in *.
  rewrite Hnorm, append_assoc.
  change (strtolower Note.allowedTags) with (tags_string whitelist).
  apply strstr_tags_string; [|reflexivity].
  now apply strtolower_free.
Qed.

(** *** The scan *)

(** The machine between two tags, and inside a tag with [tb] read so
    far. *)
Definition idle (m : stripper) : Prop :=
  state m = S0 /\ depth m = O /\ in_q m = None /\ is_xml m = false /\ tbuf m = "".

Definition in_tag (m : stripper) (tb : string) : Prop :=
  state m = S1 /\ depth m = O /\ in_q m = None /\ is_xml m = false /\ tbuf m = tb.

Lemma idle_init : idle stripper_init.
Proof. repeat split. Qed.

Lemma strip_from_cons allow m prev c rest :
  strip_from allow m prev (String c rest)
  = fst (step allow m prev c (peek rest))
    ++ strip_from allow (snd (step allow m prev c (peek rest))) (c :: prev) rest.
Proof. cbn [strip_from]. now destruct (step allow m prev c (peek rest)). Qed.

Lemma text_run allow m s rest :
  idle m -> all_bytes text_byte s = true ->
  forall prev, exists prev',
    strip_from allow m prev (s ++ rest) = s ++ strip_from allow m prev' rest.
Proof.
  intros (Hs & Hd & Hq & _ & _). induction s as [|c s IH]; intros H prev.
  - now exists prev.
  - simpl in H. apply andb_prop in H as [Hc H].
    unfold text_byte in Hc. apply andb_prop in Hc as [Hnul Hlt].
    apply negb_true_iff in Hnul, Hlt.
    destruct (IH H (c :: prev)) as [prev' IH'].
    exists prev'. rewrite append_cons, strip_from_cons.
    unfold step. rewrite Hs. unfold step0. rewrite Hnul, Hlt, Hd, Hq.
    destruct (ch_eq c ">"); cbn [fst snd]; now rewrite IH'.
Qed.

Definition tag_byte (c : ascii) : bool := isalnum c || ch_eq c "/".

Lemma tag_byte_step allow m prev c next :
  state m = S1 -> tag_byte c = true ->
  step allow m prev c next = ("", push allow m c).
Proof.
  intros Hs Hc. unfold step. rewrite Hs. unfold step1.
  assert (ch_eq c NUL = false /\ ch_eq c "<" = false /\ ch_eq c ">" = false
          /\ ch_eq c DQUOTE = false /\ ch_eq c "'" = false
          /\ ch_eq c "!" = false /\ ch_eq c "?" = false) as (H1 & H2 & H3 & H4 & H5 & H6 & H7).
  { clear -Hc. each_byte c; repeat split. }
  now rewrite H1, H2, H3, H4, H5, H6, H7.
Qed.

Lemma tag_bytes_run set s rest :
  all_bytes tag_byte s = true ->
  forall m tb prev, in_tag m tb ->
  exists prev',
    strip_from (Some set) m prev (s ++ rest)
    = strip_from (Some set) (set_tbuf m (tb ++ s)) prev' rest.
Proof.
  induction s as [|c s IH]; intros H m tb prev (Hs & Hd & Hq & Hx & Ht).
  - exists prev. rewrite append_nil_r. destruct m; simpl in *. now subst.
  - simpl in H. apply andb_prop in H as [Hc H].
    destruct (IH H (push (Some set) m c) (tb ++ String c "") (c :: prev)) as [prev' IH'].
    { unfold push, set_tbuf. cbn. repeat split; try assumption. now rewrite Ht. }
    exists prev'. rewrite append_cons, strip_from_cons.
    rewrite (tag_byte_step _ _ _ _ _ Hs Hc). cbn [fst snd append].
    rewrite IH'. unfold push, set_tbuf. cbn.
    now rewrite append_assoc.
Qed.

Lemma tag_run set m slash name rest :
  idle m -> slash = "" \/ slash = "/" -> name_ok name = true ->
  forall prev, exists m' prev',
    idle m'
    /\ strip_from (Some set) m prev ("<" ++ slash ++ name ++ ">" ++ rest)
       = (if php_tag_find ("<" ++ slash ++ name ++ ">") (strtolower set)
          then "<" ++ slash ++ name ++ ">" else "")
         ++ strip_from (Some set) m' prev' rest.
Proof.
  intros (Hs & Hd & Hq & Hx & Ht) Hslash Hname prev.
  pose proof Hname as Hok. unfold name_ok in Hname.
  apply andb_prop in Hname as [Hne Hal].
  assert (all_bytes tag_byte (slash ++ name) = true) as Hbytes.
  { rewrite all_bytes_append. apply andb_true_intro. split.
    - now destruct Hslash as [-> | ->].
    - apply (all_bytes_impl isalnum); [|assumption].
      intros c Hc. unfold tag_byte. now rewrite Hc. }
  assert (isspace (peek (slash ++ name ++ ">" ++ rest)) = false) as Hnext.
  { destruct Hslash as [-> | ->]; [|reflexivity].
    destruct name as [|c name]; [discriminate|].
    simpl in Hal. apply andb_prop in Hal as [Hc _].
    now destruct (isalnum_name_byte c Hc). }
  set (m1 := push (Some set) (set_state (set_lc m "<") S1) "<").
  assert (in_tag m1 "<") as Hin.
  { unfold m1, push, set_tbuf, set_state, set_lc. cbn.
    repeat split; try assumption. now rewrite Ht. }
  destruct (tag_bytes_run set (slash ++ name) (">" ++ rest) Hbytes m1 "<" ("<"%char :: prev) Hin)
    as [prev1 Hrun].
  set (m' := set_tbuf (set_is_xml (set_in_q (set_state
               (set_lc (set_tbuf m1 ("<" ++ slash ++ name)) ">") S0) None) false) "").
  exists m', (">"%char :: prev1). split.
  { unfold m', idle. cbn. repeat split; try reflexivity; assumption. }
  change ("<" ++ slash ++ name ++ ">" ++ rest)
    with (String "<" (slash ++ name ++ ">" ++ rest)).
  rewrite strip_from_cons. unfold step at 1 2. rewrite Hs. unfold step0.
  change (ch_eq "<" NUL) with false. change (ch_eq "<" "<") with true.
  cbn iota. rewrite Hq, Hnext. cbn [fst snd append]. fold m1.
  rewrite append_assoc in Hrun. change (">" ++ rest) with (String ">" rest) in Hrun.
  rewrite Hrun, strip_from_cons. unfold step at 1 2.
  replace (state (set_tbuf m1 ("<" ++ slash ++ name))) with S1 by reflexivity.
  unfold step1.
  change (ch_eq ">" NUL) with false. change (ch_eq ">" "<") with false.
  change (ch_eq ">" ">") with true. cbn iota.
  replace (depth (set_tbuf m1 ("<" ++ slash ++ name))) with (depth m)
    by reflexivity.
  replace (in_q (set_tbuf m1 ("<" ++ slash ++ name))) with (in_q m)
    by reflexivity.
  rewrite Hd, Hq.
  replace (is_xml (set_lc (set_tbuf m1 ("<" ++ slash ++ name)) ">")) with (is_xml m)
    by reflexivity.
  rewrite Hx. cbn [andb fst snd].
  replace (tbuf (set_is_xml (set_in_q (set_state
             (set_lc (set_tbuf m1 ("<" ++ slash ++ name)) ">") S0) None) false))
    with ("<" ++ slash ++ name) by reflexivity.
  fold m'. rewrite !append_assoc. reflexivity.
Qed.

(** On simple markup the filter drops the tags that are not whitelisted
    and nothing else. *)
Lemma strip_markup (doc : list token) :
  forallb well_formed doc = true ->
  forall m prev, idle m ->
  strip_from (Some Note.allowedTags) m prev (render doc) = render (filter kept doc).
Proof.
  induction doc as [|t doc IH]; intros H m prev Hm; [reflexivity|].
  simpl in H. apply andb_prop in H as [Ht H].
  cbn [render filter].
  destruct t as [s | name | name]; cbn [render_token kept well_formed] in *.
  - destruct (text_run (Some Note.allowedTags) m s (render doc) Hm Ht prev) as [prev' ->].
    cbn [render render_token]. now rewrite IH.
  - destruct (tag_run Note.allowedTags m "" name (render doc) Hm (or_introl eq_refl) Ht prev)
      as (m' & prev' & Hm' & Hrun).
    cbn [append] in Hrun. rewrite !append_assoc. cbn [append]. rewrite Hrun.
    rewrite (IH H m' prev' Hm').
    pose proof (php_tag_find_whitelist "" name (or_introl eq_refl) Ht) as Hfind.
    cbn [append] in Hfind. rewrite Hfind.
    destruct (whitelisted name); cbn [render render_token append];
      [now rewrite append_assoc | reflexivity].
  - destruct (tag_run Note.allowedTags m "/" name (render doc) Hm (or_intror eq_refl) Ht prev)
      as (m' & prev' & Hm' & Hrun).
    cbn [append] in Hrun. rewrite !append_assoc. cbn [append]. rewrite Hrun.
    rewrite (IH H m' prev' Hm').
    pose proof (php_tag_find_whitelist "/" name (or_intror eq_refl) Ht) as Hfind.
    cbn [append] in Hfind. rewrite Hfind.
    destruct (whitelisted name); cbn [render render_token append];
      [now rewrite append_assoc | reflexivity].
Qed.

(** *** Every string *)

Lemma tag_normalize_free (started : bool) (t : string) :
  free_of ">" (tag_normalize started t) = true.
Proof.
  revert started. induction t as [|c0 t IH]; intros started; [reflexivity|].
  cbn [tag_normalize].
  destruct (ch_eq (tolower c0) "<") eqn:Hlt.
  - change (free_of ">" (String (tolower c0) (tag_normalize started t)))
      with (negb (ch_eq (tolower c0) ">") && free_of ">" (tag_normalize started t)).
    rewrite IH, andb_true_r. unfold ch_eq in *. apply Ascii.eqb_eq in Hlt.
    now rewrite Hlt.
  - destruct (ch_eq (tolower c0) ">") eqn:Hgt; [reflexivity|].
    destruct (isspace (tolower c0)); [now destruct started|].
    match goal with
    | |- context [if ?b then _ else _] => destruct b
    end; [|apply IH].
    change (free_of ">" (String (tolower c0) (tag_normalize true t)))
      with (negb (ch_eq (tolower c0) ">") && free_of ">" (tag_normalize true t)).
    now rewrite IH, Hgt.
Qed.

(** A tag of any shape passes [php_tag_find] exactly when its name is on
    the whitelist. *)
Lemma php_tag_find_name (inner : string) :
  php_tag_find ("<" ++ inner ++ ">") (strtolower Note.allowedTags)
  = member (tag_name inner) whitelist.
Proof.
  unfold php_tag_find, tag_name.
  change ("<" ++ inner ++ ">") with (String "<" (inner ++ ">")).
  cbn [tag_normalize]. change (tolower "<") with "<"%char.
  change (ch_eq "<" "<") with true. cbv iota.
  change (strtolower Note.allowedTags) with (tags_string whitelist).
  change (String "<" (tag_normalize false (inner ++ ">")) ++ ">")
    with ("<" ++ tag_normalize false (inner ++ ">") ++ ">").
  apply strstr_tags_string; [apply tag_normalize_free | reflexivity].
Qed.

(** The tag buffer is empty outside a tag and holds [<] and bytes other
    than [>] inside one. *)
Definition buffer_ok (m : stripper) : Prop :=
  match state m with
  | S0 => tbuf m = ""
  | _ => exists inner, tbuf m = String "<" inner /\ free_of ">" inner = true
  end.

Lemma free_of_push (d c : ascii) (s : string) :
  free_of d s = true -> ch_eq c d = false -> free_of d (s ++ String c "") = true.
Proof.
  intros Hs Hc. unfold free_of in *. rewrite all_bytes_append, Hs. cbn.
  now rewrite Hc.
Qed.

Lemma member_In (x : string) (l : list string) :
  member x l = true <-> In x l.
Proof.
  unfold member. rewrite existsb_exists. split.
  - intros (y & Hy & Heq). apply String.eqb_eq in Heq. now subst.
  - intros H. exists x. split; [assumption | apply String.eqb_refl].
Qed.

(** What one step writes, and the machine it leaves. *)
Inductive step_result (m : stripper) (c next : ascii) : string -> stripper -> Prop :=
| sr_nothing (m' : stripper) : step_result m c next "" m'
| sr_byte (m' : stripper) :
    ch_eq c "<" = false -> step_result m c next (String c "") m'
| sr_less_than :
    isspace next = true -> state m = S0 -> step_result m c next "<" m
| sr_tag (inner : string) (m' : stripper) :
    free_of ">" inner = true ->
    In (tag_name inner) whitelist ->
    step_result m c next ("<" ++ inner ++ ">") m'.

Lemma buffer_ok_push (m : stripper) (c : ascii) :
  state m <> S0 -> buffer_ok m -> ch_eq c ">" = false ->
  buffer_ok (push (Some Note.allowedTags) m c).
Proof.
  unfold buffer_ok, push, set_tbuf. cbn. intros Hs Hb Hc.
  destruct (state m); [contradiction| | | |];
    destruct Hb as (inner & -> & Hfree);
    exists (inner ++ String c ""); (split; [reflexivity | now apply free_of_push]).
Qed.

Lemma step0_spec (m : stripper) (c next : ascii) (written : string) (m' : stripper) :
  state m = S0 -> buffer_ok m ->
  step0 (Some Note.allowedTags) m c next = (written, m') ->
  buffer_ok m' /\ step_result m c next written m'.
Proof.
  intros Hs Hb. pose proof Hb as Hb0. unfold buffer_ok in Hb0. rewrite Hs in Hb0.
  unfold step0.
  destruct (ch_eq c NUL) eqn:Hnul.
  { intros H; inversion H; subst. split; [assumption | constructor]. }
  destruct (ch_eq c "<") eqn:Hlt.
  { destruct (in_q m).
    - intros H; inversion H; subst. split; [assumption | constructor].
    - destruct (isspace next) eqn:Hsp; intros H; inversion H; subst.
      + apply Ascii.eqb_eq in Hlt. subst c. split; [assumption | now constructor].
      + split; [|constructor].
        unfold buffer_ok, push, set_tbuf, set_state, set_lc. cbn. rewrite Hb0.
        now exists "". }
  destruct (ch_eq c ">") eqn:Hgt.
  { destruct (depth m); [destruct (in_q m)|]; intros H; inversion H; subst;
      (split; [assumption | first [now constructor | constructor]]). }
  intros H; inversion H; subst. split; [assumption | now constructor].
Qed.

Lemma step1_spec (m : stripper) (prev : list ascii) (c next : ascii)
  (written : string) (m' : stripper) :
  state m = S1 -> buffer_ok m ->
  step1 (Some Note.allowedTags) m prev c next = (written, m') ->
  buffer_ok m' /\ step_result m c next written m'.
Proof.
  intros Hs Hb.
  assert (state m <> S0) as Hne by (rewrite Hs; discriminate).
  pose proof Hb as Hb1. unfold buffer_ok in Hb1. rewrite Hs in Hb1.
  destruct Hb1 as (inner & Hbuf & Hfree).
  unfold step1.
  destruct (ch_eq c NUL) eqn:Hnul.
  { intros H; inversion H; subst. split; [assumption | constructor]. }
  destruct (ch_eq c "<") eqn:Hlt.
  { apply Ascii.eqb_eq in Hlt. subst c. destruct (in_q m).
    - intros H; inversion H; subst. split; [assumption | constructor].
    - destruct (isspace next); intros H; inversion H; subst.
      + split; [now apply buffer_ok_push | constructor].
      + split; [assumption | constructor]. }
  destruct (ch_eq c ">") eqn:Hgt.
  { destruct (depth m).
    2:{ intros H; inversion H; subst. split; [assumption | constructor]. }
    destruct (in_q m).
    { intros H; inversion H; subst. split; [assumption | constructor]. }
    destruct (is_xml (set_lc m ">") && back_is prev 0 "-").
    { intros H; inversion H; subst. split; [assumption | constructor]. }
    cbn [tbuf set_is_xml set_in_q set_state set_lc]. rewrite Hbuf.
    change (String "<" inner ++ ">") with ("<" ++ inner ++ ">").
    rewrite php_tag_find_name.
    destruct (member (tag_name inner) whitelist) eqn:Hin;
      intros H; inversion H; subst.
    - split; [reflexivity|]. apply sr_tag; [assumption | now apply member_In].
    - split; [reflexivity | constructor]. }
  destruct (ch_eq c DQUOTE || ch_eq c "'").
  { intros H; inversion H; subst. split; [|constructor].
    apply buffer_ok_push; try assumption;
      destruct prev; try assumption; unfold toggle_quote;
      destruct (in_q m); try assumption;
      match goal with
      | |- context [if ?b then _ else _] => destruct b
      end; assumption. }
  destruct (ch_eq c "!").
  { destruct (back_is prev 0 "<"); intros H; inversion H; subst.
    - split; [|constructor]. unfold buffer_ok. cbn. now exists inner.
    - split; [now apply buffer_ok_push | constructor]. }
  destruct (ch_eq c "?").
  { destruct (back_is prev 0 "<"); intros H; inversion H; subst.
    - split; [|constructor]. unfold buffer_ok. cbn. now exists inner.
    - split; [now apply buffer_ok_push | constructor]. }
  intros H; inversion H; subst. split; [now apply buffer_ok_push | constructor].
Qed.

(** Leaving a tag, or staying in it with other registers. *)
Lemma buffer_ok_leave (m : stripper) : buffer_ok (leave_tag m).
Proof. reflexivity. Qed.

Lemma buffer_ok_same (m m' : stripper) :
  state m' = state m -> tbuf m' = tbuf m -> buffer_ok m -> buffer_ok m'.
Proof. unfold buffer_ok. now intros -> ->. Qed.

Lemma buffer_ok_enter (m m' : stripper) :
  state m <> S0 -> state m' = S1 -> tbuf m' = tbuf m -> buffer_ok m -> buffer_ok m'.
Proof.
  unfold buffer_ok. intros Hne -> ->. now destruct (state m).
Qed.

Ltac branches :=
  repeat match goal with
    | |- context [if ?b then _ else _] => destruct b
    | |- context [match ?x with _ => _ end] => destruct x
    end.

Lemma step234_spec (m : stripper) (prev : list ascii) (c : ascii) :
  state m <> S0 -> buffer_ok m ->
  buffer_ok (step2 m prev c) /\ buffer_ok (step3 m prev c)
  /\ buffer_ok (step4 m prev c).
Proof.
  intros Hne Hb. split; [|split].
  - unfold step2, quoted_lc, toggle_quote. branches;
      first [ apply buffer_ok_leave
            | apply (buffer_ok_enter m); [assumption | reflexivity | reflexivity | assumption]
            | apply (buffer_ok_same m); [reflexivity | reflexivity | assumption] ].
  - unfold step3, toggle_quote. branches;
      first [ apply buffer_ok_leave
            | apply (buffer_ok_enter m); [assumption | reflexivity | reflexivity | assumption]
            | apply (buffer_ok_same m); [reflexivity | reflexivity | assumption]
            | (unfold buffer_ok in *; cbn; now destruct (state m)) ].
  - unfold step4. branches;
      first [ apply buffer_ok_leave | assumption ].
Qed.

Lemma step_spec (m : stripper) (prev : list ascii) (c next : ascii) :
  buffer_ok m ->
  buffer_ok (snd (step (Some Note.allowedTags) m prev c next))
  /\ step_result m c next (fst (step (Some Note.allowedTags) m prev c next))
       (snd (step (Some Note.allowedTags) m prev c next)).
Proof.
  intros Hb. unfold step. destruct (state m) eqn:Hs.
  - destruct (step0 (Some Note.allowedTags) m c next) as [written m'] eqn:H.
    now apply step0_spec.
  - destruct (step1 (Some Note.allowedTags) m prev c next) as [written m'] eqn:H.
    now apply (step1_spec m prev).
  - cbn [fst snd]. split; [|constructor].
    apply step234_spec; [rewrite Hs; discriminate | assumption].
  - cbn [fst snd]. split; [|constructor].
    apply step234_spec; [rewrite Hs; discriminate | assumption].
  - cbn [fst snd]. split; [|constructor].
    apply step234_spec; [rewrite Hs; discriminate | assumption].
Qed.

Lemma white_space_is_written (allow : option string) (m : stripper)
  (prev : list ascii) (rest : string) :
  state m = S0 -> isspace (peek rest) = true ->
  isspace (peek (strip_from allow m prev rest)) = true.
Proof.
  intros Hs Hsp. destruct rest as [|w rest]; [discriminate|].
  cbn [peek] in Hsp. rewrite strip_from_cons. unfold step. rewrite Hs. unfold step0.
  assert (ch_eq w NUL = false /\ ch_eq w "<" = false /\ ch_eq w ">" = false)
    as (-> & -> & ->) by (clear -Hsp; each_byte w; repeat split).
  assumption.
Qed.

(** Whatever goes in, only whitelisted tags come out. *)
Lemma strip_only_whitelisted (input : string) :
  forall m prev, buffer_ok m ->
  only_whitelisted_tags (strip_from (Some Note.allowedTags) m prev input).
Proof.
  induction input as [|c rest IH]; intros m prev Hb; [constructor|].
  rewrite strip_from_cons.
  destruct (step_spec m prev c (peek rest) Hb) as [Hb' Hr].
  specialize (IH _ (c :: prev) Hb').
  destruct Hr as [m' | m' Hc | Hsp Hs | inner m' Hfree Hin].
  - assumption.
  - now constructor.
  - apply owt_less_than; [|assumption]. now apply white_space_is_written.
  - rewrite !append_assoc. now apply owt_tag.
Qed.

End StripFacts.


(** ** Sanitising content: [Note::sanitizeContent] *)

Module SanitizeFacts.

Import Ctype Php Markup StripFacts.

Lemma filter_kept_idem (doc : list token) :
  filter kept (filter kept doc) = filter kept doc.
Proof.
  induction doc as [|t doc IH]; [reflexivity|].
  cbn [filter]. destruct (kept t) eqn:Hk; [|assumption].
  cbn [filter]. now rewrite Hk, IH.
Qed.

Lemma filter_well_formed (doc : list token) :
  forallb well_formed doc = true -> forallb well_formed (filter kept doc) = true.
Proof.
  induction doc as [|t doc IH]; [reflexivity|].
  cbn [forallb filter]. intros H. apply andb_prop in H as [Ht H].
  destruct (kept t); [|auto].
  cbn [forallb]. now rewrite Ht, IH.
Qed.

Lemma strip_tags_markup (doc : list token) :
  forallb well_formed doc = true ->
  strip_tags (render doc) (Some Note.allowedTags) = render (filter kept doc).
Proof. intros H. apply strip_markup; [assumption | apply idle_init]. Qed.

(** *** Plain text goes through both filters unchanged *)

Record plain (c : ascii) : Prop := {
  pl_text : text_byte c = true;
  pl_ascii : (code c <? 128) = true;
  pl_amp : ch_eq c "&" = false;
  pl_dq : ch_eq c DQUOTE = false;
  pl_sq : ch_eq c "'" = false;
  pl_lt : ch_eq c "<" = false;
  pl_gt : ch_eq c ">" = false;
  pl_lead : utf8_trail c = false
}.

Lemma plain_byte_plain (c : ascii) : plain_byte c = true -> plain c.
Proof. intros H. each_byte c; constructor; reflexivity. Qed.

Lemma strip_tags_plain (allow : option string) (s : string) :
  all_bytes plain_byte s = true -> strip_tags s allow = s.
Proof.
  intros H.
  assert (all_bytes text_byte s = true) as Ht.
  { apply (all_bytes_impl plain_byte); [|assumption].
    intros c Hc. now destruct (plain_byte_plain c Hc). }
  destruct (text_run allow stripper_init s "" idle_init Ht []) as [prev' Hrun].
  unfold strip_tags. rewrite append_nil_r in Hrun. rewrite Hrun.
  apply append_nil_r.
Qed.

Lemma htmlspecialchars_plain (table : string -> bool) (s : string) :
  all_bytes plain_byte s = true -> htmlspecialchars table s = s.
Proof.
  intros H. unfold htmlspecialchars.
  assert (utf8_valid s = true /\ escape_html table s = s) as [-> ->]; [|reflexivity].
  induction s as [|c s IH]; [now split|].
  cbn [all_bytes] in H. apply andb_prop in H as [Hc H].
  destruct (IH H) as [Hv He]. destruct (plain_byte_plain c Hc).
  cbn [utf8_valid escape_html].
  now rewrite pl_ascii0, pl_amp0, pl_dq0, pl_sq0, pl_lt0, pl_gt0, Hv, He.
Qed.

Lemma mb_strlen_plain (s : string) :
  all_bytes plain_byte s = true -> mb_strlen s = Z.of_nat (String.length s).
Proof.
  induction s as [|c s IH]; [reflexivity|].
  cbn [all_bytes]. intros H. apply andb_prop in H as [Hc H].
  destruct (plain_byte_plain c Hc).
  cbn [mb_strlen String.length]. rewrite pl_lead0, (IH H). lia.
Qed.

Lemma mb_take_plain (n : nat) (s : string) :
  all_bytes plain_byte s = true -> mb_take n s = take n s.
Proof.
  revert n. induction s as [|c s IH]; intros n H; [now destruct n|].
  cbn [all_bytes] in H. apply andb_prop in H as [Hc H].
  destruct (plain_byte_plain c Hc).
  cbn [mb_take]. rewrite pl_lead0. destruct n; [reflexivity|].
  cbn [take]. now rewrite (IH n H).
Qed.

Lemma length_take (n : nat) (s : string) :
  (n <= String.length s)%nat -> String.length (take n s) = n.
Proof.
  revert s. induction n as [|n IH]; intros [|c s] H; cbn in *; try lia.
  rewrite IH; lia.
Qed.

(** *** Cutting at a number of characters *)

Lemma mb_strlen_nonneg (s : string) : 0 <= mb_strlen s.
Proof.
  induction s as [|c s IH]; cbn [mb_strlen]; [lia|].
  destruct (utf8_trail c); lia.
Qed.

Lemma mb_strlen_mb_take (n : nat) (s : string) :
  mb_strlen (mb_take n s) = Z.min (Z.of_nat n) (mb_strlen s).
Proof.
  revert n. induction s as [|c s IH]; intros n.
  - cbn. lia.
  - pose proof (mb_strlen_nonneg s). cbn [mb_take mb_strlen].
    destruct (utf8_trail c) eqn:Hc.
    + cbn [mb_strlen]. rewrite Hc, IH. lia.
    + destruct n as [|n]; cbn [mb_strlen]; [lia|].
      rewrite Hc, IH. lia.
Qed.

Lemma mb_take_prefix (n : nat) (s : string) : String.prefix (mb_take n s) s = true.
Proof.
  revert n. induction s as [|c s IH]; intros n; [reflexivity|].
  cbn [mb_take]. destruct (utf8_trail c).
  - now rewrite prefix_cons, Ascii.eqb_refl, IH.
  - destruct n; [reflexivity|].
    now rewrite prefix_cons, Ascii.eqb_refl, IH.
Qed.

End SanitizeFacts.

(** C1, on the code.  Whatever the environment, the content
    [<script>evil()</script><p>hi</p>] is sanitised to
    [evil()&lt;p&gt;hi&lt;/p&gt;]: the text between the script tags is
    still there, and the result is not [<p>hi</p>]. *)
Lemma sanitize_script_counterexample :
  (fun E => Note.sanitizeContent E "<script>evil()</script><p>hi</p>")
  = (fun _ => "evil()&lt;p&gt;hi&lt;/p&gt;")
  /\ Php.strstr "evil()&lt;p&gt;hi&lt;/p&gt;" "evil()" = true
  /\ String.eqb "evil()&lt;p&gt;hi&lt;/p&gt;" "<p>hi</p>" = false.
Proof. repeat split. Qed.

(** C1, as amended.  For every content string, what the tag filter of
    the sanitiser passes on holds no tag outside the whitelist p, br, a,
    strong, em, b, i, u, s, code, pre, blockquote, ul, ol, li.  The filter
    removes tags, not what they enclose: on content made of text runs and
    simple tags [<name>], [</name>] it removes exactly the tags whose name
    is outside the whitelist and keeps every text run, the text between
    removed tags included, and sanitising the content gives what
    sanitising it without those tags gives. *)
Theorem sanitize_strips_tags_outside_whitelist
  (E : environment) (content : string) (doc : list Markup.token) :
  Markup.only_whitelisted_tags (Php.strip_tags content (Some Note.allowedTags))
  /\ (forallb Markup.well_formed doc = true ->
      Php.strip_tags (Markup.render doc) (Some Note.allowedTags)
      = Markup.render (filter Markup.kept doc)
      /\ Note.sanitizeContent E (Markup.render doc)
         = Note.sanitizeContent E (Markup.render (filter Markup.kept doc))).
Proof.
  split.
  - apply StripFacts.strip_only_whitelisted. reflexivity.
  - intros H. pose proof (SanitizeFacts.strip_tags_markup doc H) as Hs.
    split; [assumption|].
    unfold Note.sanitizeContent. rewrite Hs.
    rewrite (SanitizeFacts.strip_tags_markup _ (SanitizeFacts.filter_well_formed doc H)).
    now rewrite SanitizeFacts.filter_kept_idem.
Qed.

(** The script example: the script tags go, their text and the
    whitelisted [p] element pass the tag filter. *)
Lemma sanitize_strips_tags_witness :
  Php.strip_tags "<script>evil()</script><p>hi</p>" (Some Note.allowedTags)
  = "evil()<p>hi</p>"
  /\ Note.sanitizeContent Reference.env "<script>evil()</script><p>hi</p>"
     = Note.sanitizeContent Reference.env "evil()<p>hi</p>".
Proof.
  exact (proj2 (sanitize_strips_tags_outside_whitelist Reference.env ""
                  [Markup.Open "script"; Markup.Text "evil()"; Markup.Close "script";
                   Markup.Open "p"; Markup.Text "hi"; Markup.Close "p"])
           eq_refl).
Defined.

(** C8.  When the filtered and escaped content is longer than 10000
    characters, the result is its first 10000 characters followed by
    [...]; content of 10050 plain characters is sanitised to its first
    10000 characters followed by [...]. *)
Theorem sanitizeContent_truncates (E : environment) (content : string) :
  let sanitized :=
    Php.htmlspecialchars (html5_entity E)
      (Php.strip_tags content (Some Note.allowedTags)) in
  (10000 < Php.mb_strlen sanitized ->
   Note.sanitizeContent E content = Php.mb_substr0 sanitized 10000 ++ "..."
   /\ Php.mb_strlen (Php.mb_substr0 sanitized 10000) = 10000
   /\ String.prefix (Php.mb_substr0 sanitized 10000) sanitized = true)
  /\ (Php.all_bytes Markup.plain_byte content = true ->
      Z.of_nat (String.length content) = 10050 ->
      Note.sanitizeContent E content = Php.take (Z.to_nat 10000) content ++ "..."
      /\ Z.of_nat (String.length (Php.take (Z.to_nat 10000) content)) = 10000).
Proof.
  cbv zeta. split.
  - intros Hlong. unfold Note.sanitizeContent.
    apply Z.ltb_lt in Hlong. rewrite Hlong. split; [reflexivity|].
    apply Z.ltb_lt in Hlong. unfold Php.mb_substr0. split.
    + rewrite SanitizeFacts.mb_strlen_mb_take. lia.
    + apply SanitizeFacts.mb_take_prefix.
  - intros Hplain Hlen. unfold Note.sanitizeContent.
    rewrite SanitizeFacts.strip_tags_plain, SanitizeFacts.htmlspecialchars_plain
      by assumption.
    rewrite SanitizeFacts.mb_strlen_plain, Hlen by assumption.
    change (10000 <? 10050) with true. cbv iota.
    unfold Php.mb_substr0. rewrite SanitizeFacts.mb_take_plain by assumption.
    split; [reflexivity|].
    rewrite SanitizeFacts.length_take; lia.
Qed.

(** 10050 times the letter a. *)
Lemma sanitizeContent_truncates_witness :
  Note.sanitizeContent Reference.env (Markup.replicate (Z.to_nat 10050) "a")
  = Php.take (Z.to_nat 10000) (Markup.replicate (Z.to_nat 10050) "a") ++ "..."
  /\ Z.of_nat (String.length
                 (Php.take (Z.to_nat 10000) (Markup.replicate (Z.to_nat 10050) "a")))
     = 10000.
Proof.
  apply (proj2 (sanitizeContent_truncates Reference.env
                  (Markup.replicate (Z.to_nat 10050) "a")));
    vm_compute; reflexivity.
Defined.

(** ** Runs of the monad *)

Lemma bind_inv {A B} (m : M A) (k : A -> M B) (w w' : world) (b : B) :
  bind m k w = (Returned b, w') ->
  exists a w1, m w = (Returned a, w1) /\ k a w1 = (Returned b, w').
Proof.
  unfold bind. destruct (m w) as [[a|t] w1]; intros H; [|discriminate].
  now exists a, w1.
Qed.

Lemma bind_returned {A B} (m : M A) (k : A -> M B) (w w1 : world) (a : A) :
  m w = (Returned a, w1) -> bind m k w = k a w1.
Proof. unfold bind. now intros ->. Qed.

Lemma bind_thrown {A B} (m : M A) (k : A -> M B) (w w1 : world) (t : throwable) :
  m w = (Thrown t, w1) -> bind m k w = (Thrown t, w1).
Proof. unfold bind. now intros ->. Qed.

Lemma ret_inv {A} (a b : A) (w w' : world) :
  ret a w = (Returned b, w') -> a = b /\ w = w'.
Proof. unfold ret. intros H. now inversion H. Qed.

Lemma as_array_inv (v : value) (a : array) (w w' : world) :
  as_array v w = (Returned a, w') -> v = VArr a /\ w = w'.
Proof. destruct v; cbn; intros H; inversion H. now split. Qed.

Lemma as_string_run (E : environment) (v : value) (w : world) :
  as_string E v w
  = (match Value.string_param (float_text E) v with
     | Some s => Returned s
     | None => Thrown TypeError
     end, w).
Proof. unfold as_string. now destruct (Value.string_param (float_text E) v). Qed.

Lemma as_string_inv (E : environment) (v : value) (s : string) (w w' : world) :
  as_string E v w = (Returned s, w') ->
  Value.string_param (float_text E) v = Some s /\ w = w'.
Proof.
  rewrite as_string_run. destruct (Value.string_param (float_text E) v);
    intros H; inversion H.
  now split.
Qed.

(** Taking a returned run apart, bind by bind. *)
Ltac minv :=
  repeat match goal with
    | H : bind _ _ _ = (Returned _, _) |- _ =>
        let a := fresh "a" in
        let w := fresh "w" in
        let Hm := fresh "Hm" in
        apply bind_inv in H; destruct H as (a & w & Hm & H)
    | H : ret _ _ = (Returned _, _) |- _ =>
        apply ret_inv in H; destruct H; subst
    | H : throw _ _ = (Returned _, _) |- _ => discriminate H
    | H : as_array _ _ = (Returned _, _) |- _ =>
        apply as_array_inv in H; destruct H; subst
    | H : as_string _ _ _ = (Returned _, _) |- _ =>
        apply as_string_inv in H; destruct H; subst
    end.

Section HttpFacts.

Variable E : environment.

(** A URL that passes the URL filter holds no NUL byte. *)
Lemma filter_no_nul (ipv6 : string -> bool) (url : string) :
  Php.filter_validate_url ipv6 url = true -> Php.has_nul url = false.
Proof.
  unfold Php.filter_validate_url, Php.has_nul.
  destruct (Php.all_bytes Php.url_byte url) eqn:Hb; [|discriminate]. intros _.
  apply negb_false_iff. apply (all_bytes_impl Php.url_byte); [|assumption].
  intros c Hc. each_byte c.
Qed.

(** A URL that [validateUrl] accepts holds no NUL byte. *)
Lemma validateUrl_no_nul (url : string) (allowedDomains : list string) :
  Validator.validateUrl E url allowedDomains = Returned tt -> Php.has_nul url = false.
Proof.
  intros H. apply (filter_no_nul (validate_ipv6 E)).
  unfold Validator.validateUrl in H.
  destruct (Php.filter_validate_url (validate_ipv6 E) url); [reflexivity|discriminate].
Qed.

(** The world after a call of [httpGet]: one request more, unless the
    URL holds a NUL byte. *)
Lemma httpGet_world (url : string) (w : world) :
  snd (Client.httpGet E url w) = if Php.has_nul url then w else logged w url.
Proof.
  unfold Client.httpGet. destruct (Php.has_nul url); [reflexivity|].
  destruct (net E (length (requests w)) url) as [|code body].
  - reflexivity.
  - destruct ((code <? 200) || (300 <=? code)); [reflexivity|].
    destruct body as [v|]; [|reflexivity]. now destruct v.
Qed.

(** Every call of [httpGet] with such a URL is one request, whatever
    comes back. *)
Lemma httpGet_logs (url : string) (w : world) :
  Php.has_nul url = false -> snd (Client.httpGet E url w) = logged w url.
Proof. intros H. now rewrite httpGet_world, H. Qed.

Lemma httpGet_inv (url : string) (w w' : world) (a : array) :
  Client.httpGet E url w = (Returned a, w') ->
  w' = logged w url
  /\ exists code, net E (length (requests w)) url = Reply code (Some (VArr a))
                  /\ 200 <= code < 300.
Proof.
  intros H.
  assert (Php.has_nul url = false) as Hnul.
  { unfold Client.httpGet in H. now destruct (Php.has_nul url). }
  pose proof (httpGet_logs url w Hnul) as Hl. rewrite H in Hl. cbn in Hl.
  split; [assumption|]. unfold Client.httpGet in H. rewrite Hnul in H.
  destruct (net E (length (requests w)) url) as [|code body]; [discriminate|].
  destruct ((code <? 200) || (300 <=? code)) eqn:Hc; [discriminate|].
  destruct body as [v|]; [|discriminate].
  destruct v; try discriminate. cbn in H. inversion H; subst.
  exists code. split; [reflexivity|].
  apply orb_false_elim in Hc as [Hlo Hhi].
  apply Z.ltb_ge in Hlo. apply Z.leb_gt in Hhi. lia.
Qed.

Lemma httpGet_ok (url : string) (w : world) (code : Z) (a : array) :
  Php.has_nul url = false ->
  net E (length (requests w)) url = Reply code (Some (VArr a)) ->
  200 <= code < 300 ->
  Client.httpGet E url w = (Returned a, logged w url).
Proof.
  intros Hnul Hn Hc. unfold Client.httpGet. rewrite Hnul, Hn.
  replace (code <? 200) with false by (symmetry; apply Z.ltb_ge; lia).
  replace (300 <=? code) with false by (symmetry; apply Z.leb_gt; lia).
  reflexivity.
Qed.

End HttpFacts.

(** ** What a returned [fetch] went through *)

Section FetchFacts.

Variable E : environment.

(** The steps of [Client::fetch] that a returned run has taken. *)
Inductive fetch_trace (this : Client.t) (actorUrl : string) (maxPosts : Z)
  (w w' : world) (res : Client.result) : Prop :=
| Fetch_trace (actorJson : array) (outboxUrl : string) (outboxCollection : array)
    (unparsed : list value) (w_page w_items : world)
    (ft_authorized :
      Validator.validateUrl E actorUrl (Client.allowedDomains this) = Returned tt)
    (ft_actor : Client.httpGet E actorUrl w = (Returned actorJson, logged w actorUrl))
    (ft_actor_valid : Validator.validateActorObject E actorJson = true)
    (ft_outbox_field : Value.get actorJson "outbox" = Some (VStr outboxUrl))
    (ft_outbox :
      Client.httpGet E outboxUrl (logged w actorUrl)
      = (Returned outboxCollection, logged (logged w actorUrl) outboxUrl))
    (ft_page :
      match Value.get outboxCollection "first" with
      | Some (VStr first) => Client.httpGet E first
      | _ => ret outboxCollection
      end (logged (logged w actorUrl) outboxUrl)
      = (Returned (Client.debug_outbox_page res), w_page))
    (ft_page_valid :
      Validator.validateOutboxCollection (Client.debug_outbox_page res) = true)
    (ft_items :
      Client.extractNotesFromOutbox E (Client.debug_outbox_page res) maxPosts [] w_page
      = (Returned (Client.posts res, unparsed), w_items))
    (ft_meta_count :
      Value.lookup (Client.meta res) "count"
      = Some (VInt (Z.of_nat (length (Client.posts res)))))
    (ft_meta_actor : Value.lookup (Client.meta res) "actor_url" = Some (VStr actorUrl))
    (ft_meta_outbox :
      Value.lookup (Client.meta res) "outbox_url" = Some (VStr outboxUrl))
    (ft_requests : requests w' = requests w_items)
    (ft_test :
      exists k,
        clock_reads w' = S k
        /\ Client.debug_test res
           = "THIS_IS_A_TEST_"
             ++ Date.format_His {| timestamp := clock E k;
                                   utc_offset := default_offset E (clock E k) |}).

Lemma validateActorObject_outbox (data : array) :
  Validator.validateActorObject E data = true ->
  exists u, Value.get data "outbox" = Some (VStr u).
Proof.
  unfold Validator.validateActorObject.
  destruct (negb (forallb _ _)); [discriminate|].
  destruct (negb (Value.in_array_loose _ _)); [discriminate|].
  destruct (Value.get data "outbox") as [v|]; cbn; [|discriminate].
  destruct v; cbn; try discriminate. intros _. now eexists.
Qed.

Lemma fetch_returned this actorUrl maxPosts w w' res :
  Client.fetch E this actorUrl maxPosts w = (Returned res, w') ->
  fetch_trace this actorUrl maxPosts w w' res.
Proof.
  unfold Client.fetch. intros H.
  apply bind_inv in H. destruct H as ([] & w0 & Hauth & H).
  unfold lift in Hauth.
  destruct (Validator.validateUrl E actorUrl (Client.allowedDomains this))
    as [[]|t] eqn:Hv; inversion Hauth; subst w0; clear Hauth.
  apply bind_inv in H. destruct H as (actorJson & w1 & Hactor & H).
  destruct (httpGet_inv E _ _ _ _ Hactor) as [-> _].
  destruct (Validator.validateActorObject E actorJson) eqn:Hvalid; [|discriminate H].
  destruct (validateActorObject_outbox actorJson Hvalid) as [u Hu].
  rewrite Hu in H. cbn [Value.coalesce negb] in H.
  destruct (Value.truthy (VStr u)); [|discriminate H]. cbn [negb] in H.
  apply bind_inv in H. destruct H as (arg & w2 & Harg & H).
  apply as_string_inv in Harg. destruct Harg as [Harg <-].
  cbn in Harg. inversion Harg; subst arg; clear Harg.
  apply bind_inv in H. destruct H as (coll & w2 & Hcoll & H).
  destruct (httpGet_inv E _ _ _ _ Hcoll) as [-> _].
  apply bind_inv in H. destruct H as (page & w3 & Hpage & H).
  destruct (Validator.validateOutboxCollection page) eqn:Hpv; [|discriminate H].
  cbn [negb] in H.
  apply bind_inv in H. destruct H as ([notes unparsed] & w4 & Hitems & H).
  apply bind_inv in H. destruct H as (info & w5 & Hinfo & H).
  unfold Client.extractActorInfo in Hinfo.
  apply bind_inv in Hinfo. destruct Hinfo as (summary & w6 & Hsum & Hinfo).
  apply as_string_inv in Hsum. destruct Hsum as [_ <-].
  apply ret_inv in Hinfo. destruct Hinfo as [<- <-].
  unfold now_local, time in H. cbn in H. inversion H; subst; clear H.
  econstructor; cbn; try eassumption; try reflexivity.
  eexists. split; reflexivity.
Qed.

End FetchFacts.

(** C10.  In every result that [Client::fetch] returns, [meta.count] is the
    number of posts, [meta.actor_url] is the URL the fetch was asked for,
    and [meta.outbox_url] is the [outbox] of the actor document that was
    fetched from that URL and passed the actor validation. *)
Theorem fetch_meta_consistent (E : environment) (this : Client.t)
  (actorUrl : string) (maxPosts : Z) (w w' : world) (res : Client.result) :
  Client.fetch E this actorUrl maxPosts w = (Returned res, w') ->
  Value.lookup (Client.meta res) "count"
  = Some (VInt (Z.of_nat (length (Client.posts res))))
  /\ Value.lookup (Client.meta res) "actor_url" = Some (VStr actorUrl)
  /\ exists actorJson code,
       net E (length (requests w)) actorUrl = Reply code (Some (VArr actorJson))
       /\ Validator.validateActorObject E actorJson = true
       /\ Value.lookup (Client.meta res) "outbox_url" = Value.get actorJson "outbox".
Proof.
  intros H. destruct (fetch_returned E _ _ _ _ _ _ H).
  split; [assumption|]. split; [assumption|].
  destruct (httpGet_inv E _ _ _ _ ft_actor) as [_ (code & Hnet & _)].
  exists actorJson, code. repeat split; try assumption.
  now rewrite ft_outbox_field.
Qed.

(** The run on the reference federation: two posts, counted as two. *)
Lemma fetch_meta_consistent_witness :
  exists res w',
    Client.fetch Reference.env Reference.client Reference.actorUrl 20 world0
    = (Returned res, w')
    /\ Value.lookup (Client.meta res) "count"
       = Some (VInt (Z.of_nat (length (Client.posts res))))
    /\ Value.lookup (Client.meta res) "actor_url" = Some (VStr Reference.actorUrl)
    /\ exists actorJson code,
         net Reference.env (length (requests world0)) Reference.actorUrl
         = Reply code (Some (VArr actorJson))
         /\ Validator.validateActorObject Reference.env actorJson = true
         /\ Value.lookup (Client.meta res) "outbox_url" = Value.get actorJson "outbox".
Proof.
  eexists. eexists. split.
  - vm_compute. reflexivity.
  - eapply (fetch_meta_consistent Reference.env Reference.client Reference.actorUrl 20
              world0).
    vm_compute. reflexivity.
Defined.

(** C9, on the code.  A successful request against the reference
    federation, with nothing set beyond the actor URL: the response holds
    the raw outbox page under [debug_outbox_page] and a test string under
    [debug_test]. *)
Lemma response_debug_counterexample :
  exists data w',
    Api.fetch_posts Reference.env Reference.actorUrl None world0 = (Returned data, w')
    /\ Value.lookup data "debug_outbox_page" = Some (VArr Reference.page)
    /\ Value.lookup data "debug_test" = Some (VStr "THIS_IS_A_TEST_12:37:56").
Proof.
  eexists. eexists. split; [vm_compute; reflexivity|].
  split; reflexivity.
Qed.

(** C9, as amended.  Every success response has the five fields posts,
    actor_info, meta, debug_outbox_page and debug_test, whatever the
    request and the configuration hold.  debug_outbox_page is the
    document that [fetch] validated as the outbox page, as a server sent
    it: the answer to the third request, for the URL under [first] of the
    outbox collection, when that [first] is a string, and the outbox
    collection itself, the answer to the second request, otherwise.
    debug_test is the fixed prefix and the time of day, in the default
    time zone, of the last reading of the clock.  The unparsed items are
    not part of the response. *)
Theorem response_always_carries_debug_fields (E : environment)
  (actor_url : string) (max_posts : option Z) (w w' : world) (data : array) :
  Api.fetch_posts E actor_url max_posts w = (Returned data, w') ->
  let n := length (requests w) in
  map fst data
  = [KStr "posts"; KStr "actor_info"; KStr "meta"; KStr "debug_outbox_page";
     KStr "debug_test"]
  /\ (exists actorJson outboxUrl outboxCollection code code',
        net E n (Api.trim actor_url) = Reply code (Some (VArr actorJson))
        /\ Value.get actorJson "outbox" = Some (VStr outboxUrl)
        /\ net E (S n) outboxUrl = Reply code' (Some (VArr outboxCollection))
        /\ match Value.get outboxCollection "first" with
           | Some (VStr first) =>
               exists page code'',
                 net E (S (S n)) first = Reply code'' (Some (VArr page))
                 /\ Value.lookup data "debug_outbox_page" = Some (VArr page)
                 /\ Validator.validateOutboxCollection page = true
           | _ =>
               Value.lookup data "debug_outbox_page" = Some (VArr outboxCollection)
               /\ Validator.validateOutboxCollection outboxCollection = true
           end)
  /\ (exists k,
        clock_reads w' = S k
        /\ Value.lookup data "debug_test"
           = Some (VStr ("THIS_IS_A_TEST_"
                         ++ Date.format_His
                              {| timestamp := clock E k;
                                 utc_offset := default_offset E (clock E k) |}))).
Proof.
  intros H n. unfold Api.fetch_posts in H. minv.
  destruct (fetch_returned E _ _ _ _ _ _ Hm).
  split; [reflexivity|]. split.
  - destruct (httpGet_inv E _ _ _ _ ft_actor) as [_ (code & Hnet & _)].
    destruct (httpGet_inv E _ _ _ _ ft_outbox) as [_ (code' & Hnet' & _)].
    assert (length (requests (logged w (Api.trim actor_url))) = S n) as Hn1.
    { cbn. rewrite length_app. cbn. subst n. lia. }
    assert (length (requests (logged (logged w (Api.trim actor_url)) outboxUrl))
            = S (S n)) as Hn2.
    { cbn. rewrite !length_app. cbn. subst n. lia. }
    rewrite Hn1 in Hnet'.
    exists actorJson, outboxUrl, outboxCollection, code, code'.
    split; [exact Hnet|]. split; [exact ft_outbox_field|]. split; [exact Hnet'|].
    destruct (Value.get outboxCollection "first") as [[| | | |first|]|];
      try (apply ret_inv in ft_page; destruct ft_page as [Heq _];
           rewrite <- Heq in ft_page_valid |- *; split; [reflexivity | assumption]).
    destruct (httpGet_inv E _ _ _ _ ft_page) as [_ (code'' & Hnet'' & _)].
    rewrite Hn2 in Hnet''.
    exists (Client.debug_outbox_page a), code''.
    split; [exact Hnet''|]. split; [reflexivity | assumption].
  - destruct ft_test as (k & Hk & Hstamp). exists k. split; [exact Hk|].
    cbn. now rewrite Hstamp.
Qed.

(** The request for one post of the reference actor: the page is the
    answer to the third request and the clock is read three times. *)
Lemma response_always_carries_debug_fields_witness :
  exists data w',
    Api.fetch_posts Reference.env Reference.actorUrl (Some 1) world0 = (Returned data, w')
    /\ map fst data
       = [KStr "posts"; KStr "actor_info"; KStr "meta"; KStr "debug_outbox_page";
          KStr "debug_test"]
    /\ Value.lookup data "debug_outbox_page" = Some (VArr Reference.page)
    /\ exists k,
         clock_reads w' = S k
         /\ Value.lookup data "debug_test"
            = Some (VStr ("THIS_IS_A_TEST_"
                          ++ Date.format_His
                               {| timestamp := clock Reference.env k;
                                  utc_offset :=
                                    default_offset Reference.env
                                      (clock Reference.env k) |})).
Proof.
  eexists. eexists. split; [vm_compute; reflexivity|].
  destruct (response_always_carries_debug_fields Reference.env Reference.actorUrl
              (Some 1) world0 _ _ eq_refl) as (Hkeys & _ & Hstamp).
  split; [exact Hkeys|]. split; [reflexivity | exact Hstamp].
Defined.

(** ** URL authorisation: [Validator::validateUrl] *)

Module UrlFacts.

Import Ctype Php.

Lemma prefix_split (p s : string) :
  String.prefix p s = true -> exists rest, s = p ++ rest.
Proof.
  revert s. induction p as [|a p IH]; intros s H.
  - now exists s.
  - destruct s as [|b s]; [discriminate|].
    rewrite StripFacts.prefix_cons in H. apply andb_prop in H as [Hab H].
    apply Ascii.eqb_eq in Hab. subst b.
    destruct (IH s H) as [rest ->]. now exists rest.
Qed.

Lemma parse_host_scheme (sch s : string) (u : php_url) :
  parse_host sch s = Some u -> scheme u = sch.
Proof.
  unfold parse_host.
  destruct (memrchr "@" _) as [p|]; [destruct (memchr ":" _)|];
    (match goal with
     | |- context [if negb ?b then _ else _] => destruct b
     end; cbn [negb]; [|discriminate];
     match goal with
     | |- context [match ?h with EmptyString => _ | String _ _ => _ end] => destruct h
     end; [discriminate|]; intros H; inversion H; reflexivity).
Qed.

(** After [https://] the parser finds the scheme https or rejects the
    string. *)
Lemma https_scheme (url : string) :
  str_starts_with url "https://" = true ->
  parse_url_scheme url = None \/ parse_url_scheme url = Some "https".
Proof.
  unfold str_starts_with. intros H.
  destruct (prefix_split _ _ H) as [rest ->].
  unfold parse_url_scheme, php_url_parse_ex. cbn -[parse_host].
  destruct (parse_host "https" rest) as [u|] eqn:Hp; [|now left].
  right. now rewrite (parse_host_scheme _ _ _ Hp).
Qed.

Lemma filter_parses (ipv6 : string -> bool) (url : string) :
  filter_validate_url ipv6 url = true -> exists u, php_url_parse_ex url = Some u.
Proof.
  unfold filter_validate_url. destruct (negb (all_bytes url_byte url)); [discriminate|].
  destruct (php_url_parse_ex url) as [u|]; [|discriminate]. now exists u.
Qed.

Lemma letter_first_truthy (h : string) :
  isalpha (peek h) = true -> Value.truthy (VStr h) = true.
Proof.
  destruct h as [|c h]; [discriminate|]. cbn [peek Value.truthy String.eqb].
  intros Hc. replace (Ascii.eqb c "0") with false; [reflexivity|].
  clear -Hc. each_byte c.
Qed.

(** A string that passes the URL filter is not one that PHP takes for
    false. *)
Lemma filter_truthy (ipv6 : string -> bool) (s : string) :
  filter_validate_url ipv6 s = true -> Value.truthy (VStr s) = true.
Proof.
  intros H. destruct s as [|c [|c' r]].
  - discriminate H.
  - cbn. destruct (Ascii.eqb_spec c "0") as [->|]; [discriminate H | reflexivity].
  - cbn. now destruct (Ascii.eqb c "0").
Qed.

Lemma not_dangerous (numeric_equal : string -> string -> bool) (url : string) :
  str_starts_with url "https://" = true ->
  Validator.truthy_string (parse_url_scheme url)
  && in_array numeric_equal
       (strtolower (match parse_url_scheme url with
                    | Some s => s
                    | None => ""
                    end)) Validator.dangerousSchemes = false.
Proof.
  intros H. destruct (https_scheme url H) as [-> | ->]; reflexivity.
Qed.

(** A string that begins with a letter is not numeric. *)
Lemma letter_first_not_numeric (h : string) :
  Ctype.isalpha (peek h) = true -> is_numeric h = false.
Proof.
  destruct h as [|c r]; [discriminate|]. cbn [peek]. intros H.
  unfold is_numeric. cbn [drop_while].
  destruct c as [[] [] [] [] [] [] [] []]; try discriminate H; reflexivity.
Qed.

(** The loose comparison of a string that is not numeric is the
    comparison of the bytes. *)
Lemma in_array_not_numeric (numeric_equal : string -> string -> bool)
  (needle : string) (haystack : list string) :
  is_numeric needle = false ->
  in_array numeric_equal needle haystack = member needle haystack.
Proof.
  intros H. unfold in_array, member, loose_equal. now rewrite H.
Qed.

End UrlFacts.

(** The rules of URL authorisation, in the order of the code: a
    string that is not a URL fails with INVALID_URL; so does a URL whose
    scheme is not https; with a list of allowed domains that is not empty
    and has no wildcard, a URL whose host (a name that begins with a
    letter) is not in the list fails with DOMAIN_NOT_ALLOWED and one whose
    host is in the list is authorised; the three examples come out as
    stated; and a refused URL ends the fetch before any request is made. *)
Theorem validateUrl_rules (E : environment) (url : string)
  (allowedDomains : list string) :
  (Php.filter_validate_url (validate_ipv6 E) url = false ->
   Validator.validateUrl E url allowedDomains = Thrown (FetchException INVALID_URL))
  /\ (Php.parse_url_scheme url <> Some "https" ->
      Validator.validateUrl E url allowedDomains = Thrown (FetchException INVALID_URL))
  /\ (forall h,
        Php.filter_validate_url (validate_ipv6 E) url = true ->
        Php.str_starts_with url "https://" = true ->
        allowedDomains <> [] ->
        ~ In "*" allowedDomains ->
        Php.parse_url_host url = Some h ->
        Ctype.isalpha (Php.peek h) = true ->
        (In h allowedDomains -> Validator.validateUrl E url allowedDomains = Returned tt)
        /\ (~ In h allowedDomains ->
            Validator.validateUrl E url allowedDomains
            = Thrown (FetchException DOMAIN_NOT_ALLOWED)))
  /\ Validator.validateUrl E "http://x/actor" allowedDomains
     = Thrown (FetchException INVALID_URL)
  /\ Validator.validateUrl E "https://blocked.example/actor" ["good.example"]
     = Thrown (FetchException DOMAIN_NOT_ALLOWED)
  /\ Validator.validateUrl E "https://good.example/actor" ["good.example"] = Returned tt
  /\ (forall this maxPosts w t,
        Validator.validateUrl E url (Client.allowedDomains this) = Thrown t ->
        Client.fetch E this url maxPosts w = (Thrown t, w)).
Proof.
  split; [|split; [|split; [|split; [|split; [|split]]]]].
  - intros H. unfold Validator.validateUrl. now rewrite H.
  - intros Hs. unfold Validator.validateUrl.
    destruct (Php.filter_validate_url (validate_ipv6 E) url) eqn:Hf; [|reflexivity].
    destruct (Php.str_starts_with url "https://") eqn:Hp; [|reflexivity].
    exfalso. destruct (UrlFacts.https_scheme url Hp) as [Hn | Hh]; [|contradiction].
    destruct (UrlFacts.filter_parses _ _ Hf) as [u Hu].
    unfold Php.parse_url_scheme in Hn. now rewrite Hu in Hn.
  - intros h Hf Hp Hne Hstar Hh Hletter.
    unfold Validator.validateUrl. rewrite Hf, Hp, Hh. cbn [negb].
    rewrite (UrlFacts.not_dangerous _ url Hp).
    rewrite (UrlFacts.in_array_not_numeric _ "*") by reflexivity.
    rewrite (UrlFacts.in_array_not_numeric _ h)
      by exact (UrlFacts.letter_first_not_numeric h Hletter).
    assert (Php.member "*" allowedDomains = false) as ->.
    { destruct (Php.member "*" allowedDomains) eqn:Hi; [|reflexivity].
      apply StripFacts.member_In in Hi. contradiction. }
    unfold Validator.truthy_string. rewrite (UrlFacts.letter_first_truthy h Hletter).
    destruct allowedDomains as [|d l]; [contradiction|]. cbn [negb andb orb].
    split; intros Hin.
    + apply StripFacts.member_In in Hin. now rewrite Hin.
    + destruct (Php.member h (d :: l)) eqn:Hi; [|reflexivity].
      apply StripFacts.member_In in Hi. contradiction.
  - reflexivity.
  - reflexivity.
  - reflexivity.
  - intros this maxPosts w t H. unfold Client.fetch, lift, bind. now rewrite H.
Qed.

(** The allowed host of the examples, through the general rule. *)
Lemma validateUrl_rules_witness :
  Validator.validateUrl Reference.env "https://good.example/actor" ["good.example"]
  = Returned tt.
Proof.
  destruct (validateUrl_rules Reference.env "https://good.example/actor" ["good.example"])
    as (_ & _ & Hmember & _).
  apply (Hmember "good.example"); try reflexivity.
  - discriminate.
  - intros [H | []]. discriminate H.
  - now left.
Defined.

(** C6, on the code.  With the list of allowed domains holding the one
    host 0, the URL https://0/actor passes the URL filter, has the scheme
    https and the host 0, a literal member of the list: the test [!$host]
    takes the string 0 for false and the URL is refused as
    DOMAIN_NOT_ALLOWED.  With the same list, the host 00 of
    https://00/actor is no literal member, and the URL is authorised:
    [in_array] without the flag [strict] compares the two numeric strings
    as numbers. *)
Theorem validateUrl_numeric_hosts (E : environment) :
  Php.filter_validate_url (validate_ipv6 E) "https://0/actor" = true
  /\ Php.parse_url_scheme "https://0/actor" = Some "https"
  /\ Php.parse_url_host "https://0/actor" = Some "0"
  /\ In "0" ["0"]
  /\ Validator.validateUrl E "https://0/actor" ["0"]
     = Thrown (FetchException DOMAIN_NOT_ALLOWED)
  /\ Php.parse_url_host "https://00/actor" = Some "00"
  /\ ~ In "00" ["0"]
  /\ Validator.validateUrl E "https://00/actor" ["0"] = Returned tt.
Proof.
  repeat split; try reflexivity.
  - now left.
  - intros [H | []]. discriminate H.
Qed.

(** ** The loop over the items: [Client::processOrderedItems] *)

Section LoopFacts.

Local Open Scope list_scope.

Variable E : environment.

Lemma httpGet_failed (url : string) (w : world) :
  Php.has_nul url = false ->
  Resolver.failed (net E (length (requests w)) url) = true ->
  exists t, Client.httpGet E url w = (Thrown t, logged w url)
            /\ instanceof_Exception t = true.
Proof.
  intros Hnul. unfold Client.httpGet, Resolver.failed. rewrite Hnul.
  destruct (net E (length (requests w)) url) as [|status body]; intros H.
  - now eexists.
  - destruct ((status <? 200) || (300 <=? status)); [now eexists|].
    destruct body; [discriminate|]. now eexists.
Qed.

Lemma httpGet_decoded (url : string) (w : world) (a : array) :
  Php.has_nul url = false ->
  Resolver.decoded (net E (length (requests w)) url) = Some a ->
  Client.httpGet E url w = (Returned a, logged w url).
Proof.
  intros Hnul. unfold Client.httpGet, Resolver.decoded. rewrite Hnul.
  destruct (net E (length (requests w)) url) as [|status [[]|]]; try discriminate.
  destruct ((status <? 200) || (300 <=? status)); [discriminate|].
  intros H. now inversion H.
Qed.

Lemma try_catch_logs {A} (body handler : M A) (w w1 : world) :
  snd (body w) = w1 -> (forall w2, snd (handler w2) = w2) ->
  snd (try_catch body handler w) = w1.
Proof.
  unfold try_catch. intros Hb Hh. destruct (body w) as [[a|t] w2]; cbn in *.
  - assumption.
  - subst w2. destruct (instanceof_Exception t); [apply Hh | reflexivity].
Qed.

(** An Announce whose object is a URL string. *)
Definition announce_of_url (item : value) (u : string) : Prop :=
  Client.has_type item "Announce" = true
  /\ Value.at_key item "object" = Some (VStr u)
  /\ Php.filter_validate_url (validate_ipv6 E) u = true.

Lemma extract_announce (item : value) (u : string) (w : world) :
  announce_of_url item u ->
  Client.extract E item w
  = try_catch
      (originalPost <- Client.httpGet E u ;;
       if Client.has_type (VArr originalPost) "Note"
       then ret (Client.NoteObject (VArr originalPost))
       else ret (Client.NoteObject VNull))
      (ret (Client.NoteObject VNull)) w.
Proof.
  intros (Ht & Ho & Hu). unfold Client.extract.
  rewrite Ht, Ho. cbn [Value.isset andb Value.coalesce].
  unfold Client.is_url_string. cbn [Value.is_string andb Validator.filter_var_url].
  now rewrite Hu.
Qed.

Lemma step_unparsed (item : value) (rest : list value) (maxPosts : Z)
  (st : Client.progress) (w w1 : world) :
  Client.processedCount st < maxPosts ->
  Client.extract E item w = (Returned (Client.NoteObject VNull), w1) ->
  Client.process_loop E (item :: rest) maxPosts st w
  = Client.process_loop E rest maxPosts
      {| Client.notes := Client.notes st;
         Client.processedCount := Client.processedCount st;
         Client.debug_unparsed_items := Client.debug_unparsed_items st ++ [item] |}
      w1.
Proof.
  intros Hc Hx. cbn [Client.process_loop].
  replace (maxPosts <=? Client.processedCount st) with false
    by (symmetry; apply Z.leb_gt; lia).
  now rewrite (bind_returned _ _ _ _ _ Hx).
Qed.

Lemma built_cons (iv : value * Resolver.verdict) (vs : list (value * Resolver.verdict)) :
  Resolver.built (iv :: vs) = Resolver.built [iv] ++ Resolver.built vs.
Proof. unfold Resolver.built. cbn. now rewrite app_nil_r. Qed.

Lemma unparsed_cons (iv : value * Resolver.verdict)
  (vs : list (value * Resolver.verdict)) :
  Resolver.unparsed (iv :: vs) = Resolver.unparsed [iv] ++ Resolver.unparsed vs.
Proof. unfold Resolver.unparsed. cbn. now rewrite app_nil_r. Qed.

(** An item that is a URL string whose request fails leaves the
    accumulators as they were: the [continue] of the last branch. *)
Lemma url_reference_failure_skips (u : string) (rest : list value) (maxPosts : Z)
  (st : Client.progress) (w : world) :
  Php.filter_validate_url (validate_ipv6 E) u = true ->
  Client.processedCount st < maxPosts ->
  Resolver.failed (net E (length (requests w)) u) = true ->
  Client.process_loop E (VStr u :: rest) maxPosts st w
  = Client.process_loop E rest maxPosts st (logged w u).
Proof.
  intros Hu Hc Hf. cbn [Client.process_loop].
  replace (maxPosts <=? Client.processedCount st) with false
    by (symmetry; apply Z.leb_gt; lia).
  assert (Client.extract E (VStr u) w = (Returned Client.Continue, logged w u)) as Hx.
  { unfold Client.extract, Client.has_type, Client.is_url_string. cbn. rewrite Hu.
    unfold try_catch. destruct (httpGet_failed u w (filter_no_nul _ _ Hu) Hf) as (t & Hget & Hexc).
    now rewrite (bind_thrown _ _ _ _ _ Hget), Hexc. }
  now rewrite (bind_returned _ _ _ _ _ Hx).
Qed.

(** The loop against the item-by-item reading. *)
Lemma process_loop_refines (maxPosts : Z) (items : list value) :
  forall st w r w',
    Client.process_loop E items maxPosts st w = (Returned r, w') ->
    exists processed rest verdicts,
      items = processed ++ rest
      /\ Resolver.resolve_each E processed w = (Returned verdicts, w')
      /\ Client.notes r = Client.notes st ++ Resolver.built verdicts
      /\ Client.debug_unparsed_items r
         = Client.debug_unparsed_items st ++ Resolver.unparsed verdicts
      /\ Client.processedCount r
         = Client.processedCount st + Z.of_nat (length (Resolver.built verdicts))
      /\ Client.processedCount r <= Z.max maxPosts (Client.processedCount st)
      /\ (rest = [] \/ maxPosts <= Client.processedCount r)
      /\ (forall k, (k < length verdicts)%nat ->
            Client.processedCount st
            + Z.of_nat (length (Resolver.built (firstn k verdicts))) < maxPosts).
Proof.
  induction items as [|item items IH]; intros st w r w' H.
  - apply ret_inv in H. destruct H as [<- <-].
    exists [], [], []. cbn. rewrite !app_nil_r.
    repeat split; try reflexivity; try lia; now left.
  - cbn [Client.process_loop] in H.
    destruct (maxPosts <=? Client.processedCount st) eqn:Hstop.
    + apply ret_inv in H. destruct H as [<- <-]. apply Z.leb_le in Hstop.
      exists [], (item :: items), []. cbn. rewrite !app_nil_r.
      repeat split; try reflexivity; try lia; now right.
    + apply Z.leb_gt in Hstop.
      apply bind_inv in H. destruct H as (x & w1 & Hx & H).
      assert (forall v st1 w2,
                Resolver.resolve E item w = (Returned v, w2) ->
                Client.process_loop E items maxPosts st1 w2 = (Returned r, w') ->
                Client.notes st1 = Client.notes st ++ Resolver.built [(item, v)] ->
                Client.debug_unparsed_items st1
                = Client.debug_unparsed_items st ++ Resolver.unparsed [(item, v)] ->
                Client.processedCount st1
                = Client.processedCount st
                  + Z.of_nat (length (Resolver.built [(item, v)])) ->
                exists processed rest verdicts,
                  item :: items = processed ++ rest
                  /\ Resolver.resolve_each E processed w = (Returned verdicts, w')
                  /\ Client.notes r = Client.notes st ++ Resolver.built verdicts
                  /\ Client.debug_unparsed_items r
                     = Client.debug_unparsed_items st ++ Resolver.unparsed verdicts
                  /\ Client.processedCount r
                     = Client.processedCount st
                       + Z.of_nat (length (Resolver.built verdicts))
                  /\ Client.processedCount r <= Z.max maxPosts (Client.processedCount st)
                  /\ (rest = [] \/ maxPosts <= Client.processedCount r)
                  /\ (forall k, (k < length verdicts)%nat ->
                        Client.processedCount st
                        + Z.of_nat (length (Resolver.built (firstn k verdicts)))
                        < maxPosts)) as Hstep.
      { intros v st1 w2 Hv Hloop Hn Hu Hc.
        destruct (IH st1 w2 r w' Hloop)
          as (processed & rest & verdicts & -> & Heach & Hn' & Hu' & Hc' & Hb & Hr & Hk).
        exists (item :: processed), rest, ((item, v) :: verdicts).
        assert (length (Resolver.built [(item, v)]) <= 1)%nat as Hone
          by (cbn; destruct v; cbn; lia).
        rewrite (built_cons (item, v) verdicts), (unparsed_cons (item, v) verdicts).
        repeat split.
        - cbn [Resolver.resolve_each].
          rewrite (bind_returned _ _ _ _ _ Hv), (bind_returned _ _ _ _ _ Heach).
          reflexivity.
        - rewrite Hn', Hn. now rewrite <- app_assoc.
        - rewrite Hu', Hu. now rewrite <- app_assoc.
        - rewrite Hc', Hc, length_app. lia.
        - lia.
        - assumption.
        - intros [|k] Hlt; [cbn; lia|].
          cbn [firstn]. cbn [length] in Hlt.
          rewrite (built_cons (item, v) (firstn k verdicts)), length_app. specialize (Hk k ltac:(lia)). lia. }
      destruct x as [noteObject|].
      * apply bind_inv in H. destruct H as (valid & w2 & Hvalid & H).
        destruct valid.
        -- apply bind_inv in H. destruct H as (data & w3 & Hdata & H).
           apply bind_inv in H. destruct H as (note & w4 & Hnote & H).
           eapply (Hstep (Resolver.Built note)); [|exact H| | |]; cbn;
             rewrite ?app_nil_r; try reflexivity.
           unfold Resolver.resolve.
           rewrite (bind_returned _ _ _ _ _ Hx), (bind_returned _ _ _ _ _ Hvalid).
           rewrite (bind_returned _ _ _ _ _ Hdata), (bind_returned _ _ _ _ _ Hnote).
           reflexivity.
        -- eapply (Hstep Resolver.Unparsed); [|exact H| | |]; cbn;
             rewrite ?app_nil_r; try reflexivity; try lia.
           unfold Resolver.resolve.
           rewrite (bind_returned _ _ _ _ _ Hx), (bind_returned _ _ _ _ _ Hvalid).
           reflexivity.
      * eapply (Hstep Resolver.Skipped); [|exact H| | |]; cbn;
          rewrite ?app_nil_r; try reflexivity; try lia.
        unfold Resolver.resolve. rewrite (bind_returned _ _ _ _ _ Hx). reflexivity.
Qed.

End LoopFacts.

Section PipelineFacts.

Local Open Scope list_scope.

Variable E : environment.

Lemma extractNotes_inv (page : array) (maxPosts : Z) (un : list value)
  (w w' : world) (notes : list Note.t) (unparsed : list value) :
  Client.extractNotesFromOutbox E page maxPosts un w = (Returned (notes, unparsed), w') ->
  notes = []
  \/ exists items w0 r,
       Client.processOrderedItems E items maxPosts 0 un w0 = (Returned r, w')
       /\ notes = Client.notes r.
Proof.
  unfold Client.extractNotesFromOutbox. intros H.
  apply bind_inv in H. destruct H as ([] & w1 & _ & H).
  destruct (Client.items_of page) as [items|].
  - minv. inversion H; subst. right.
    do 3 eexists. split; [eassumption | reflexivity].
  - destruct (Value.get page "first") as [first|]; [|minv; inversion H; now left].
    destruct (Value.truthy _); [|minv; inversion H; now left].
    minv. destruct (Client.items_of a0) as [items|]; [|minv; inversion H; now left].
    minv. inversion H; subst. right.
    do 3 eexists. split; [eassumption | reflexivity].
Qed.

Lemma processOrderedItems_bound (items : array) (maxPosts : Z) (un : list value)
  (w w' : world) (r : Client.progress) :
  0 <= maxPosts ->
  Client.processOrderedItems E items maxPosts 0 un w = (Returned r, w') ->
  Z.of_nat (length (Client.notes r)) <= maxPosts.
Proof.
  intros Hmax H. unfold Client.processOrderedItems in H.
  destruct (process_loop_refines E _ _ _ _ _ _ H)
    as (processed & rest & verdicts & _ & _ & Hn & _ & Hc & Hb & _).
  cbn in Hn, Hc, Hb. rewrite Hn. lia.
Qed.

End PipelineFacts.

(** C3.  With a [maxPosts] that is not negative, as the caller's clamp to
    1..50 makes it: the loop handles a prefix of the items, one after the
    other, just as resolving, validating and building each on its own
    does; the notes are those built from that prefix, in its order; there
    are at most [maxPosts] of them; the loop goes on only while there are
    fewer, so that the items after the prefix are neither requested nor
    recorded (the final world and the unparsed list are those of the
    prefix); and the posts of a returned [fetch] number at most
    [maxPosts]. *)
Theorem notes_bounded_and_in_order (E : environment) (maxPosts : Z) :
  0 <= maxPosts ->
  (forall orderedItems unparsed0 w w' r,
     Client.processOrderedItems E orderedItems maxPosts 0 unparsed0 w = (Returned r, w') ->
     exists processed rest verdicts,
       Value.array_values orderedItems = (processed ++ rest)%list
       /\ Resolver.resolve_each E processed w = (Returned verdicts, w')
       /\ Client.notes r = Resolver.built verdicts
       /\ Client.debug_unparsed_items r = (unparsed0 ++ Resolver.unparsed verdicts)%list
       /\ Z.of_nat (length (Client.notes r)) <= maxPosts
       /\ (rest = [] \/ Z.of_nat (length (Client.notes r)) = maxPosts)
       /\ (forall k, (k < length verdicts)%nat ->
             Z.of_nat (length (Resolver.built (firstn k verdicts))) < maxPosts))
  /\ (forall this actorUrl w w' res,
        Client.fetch E this actorUrl maxPosts w = (Returned res, w') ->
        Z.of_nat (length (Client.posts res)) <= maxPosts).
Proof.
  intros Hmax. split.
  - intros orderedItems unparsed0 w w' r H. unfold Client.processOrderedItems in H.
    destruct (process_loop_refines E _ _ _ _ _ _ H)
      as (processed & rest & verdicts & Hsplit & Heach & Hn & Hu & Hc & Hb & Hr & Hk).
    cbn in Hn, Hu, Hc, Hb, Hk.
    exists processed, rest, verdicts. rewrite Hn in *.
    repeat split; try assumption; try lia.
    destruct Hr as [Hr | Hr]; [now left | right; lia].
  - intros this actorUrl w w' res H.
    destruct (fetch_returned E _ _ _ _ _ _ H).
    destruct (extractNotes_inv E _ _ _ _ _ _ _ ft_items) as [-> | (items & w0 & r & Hr & ->)].
    + cbn. lia.
    + now apply (processOrderedItems_bound E items maxPosts [] w0 w_items).
Qed.

(** The reference page with room for one post: the loop stops after the
    first item. *)
Lemma notes_bounded_witness :
  exists r w',
    Client.processOrderedItems Reference.env Reference.items 1 0 [] world0
    = (Returned r, w')
    /\ exists processed rest verdicts,
         Value.array_values Reference.items = (processed ++ rest)%list
         /\ Resolver.resolve_each Reference.env processed world0 = (Returned verdicts, w')
         /\ Client.notes r = Resolver.built verdicts
         /\ Client.debug_unparsed_items r = ([] ++ Resolver.unparsed verdicts)%list
         /\ Z.of_nat (length (Client.notes r)) <= 1
         /\ (rest = [] \/ Z.of_nat (length (Client.notes r)) = 1)
         /\ (forall k, (k < length verdicts)%nat ->
               Z.of_nat (length (Resolver.built (firstn k verdicts))) < 1).
Proof.
  eexists. eexists. split.
  - vm_compute. reflexivity.
  - eapply (proj1 (notes_bounded_and_in_order Reference.env 1 Z.le_0_1)).
    vm_compute. reflexivity.
Defined.

(** An Announce whose object is a URL string, and whose request is
    answered with a status 2xx and a JSON text that is no object (a
    number, a string, [true], [false] or [null]): the return type [array]
    of [httpGet] raises a [TypeError], which the clause [catch (Exception)]
    does not take.  The loop ends there with the error, and the item is
    not among the unparsed items of any result. *)
Lemma announce_scalar_reply (E : environment) (item : value) (u : string)
  (rest : list value) (maxPosts : Z) (st : Client.progress) (w : world)
  (code : Z) (v : value) :
  Client.has_type item "Announce" = true ->
  Value.at_key item "object" = Some (VStr u) ->
  Php.filter_validate_url (validate_ipv6 E) u = true ->
  Client.processedCount st < maxPosts ->
  net E (length (requests w)) u = Reply code (Some v) ->
  200 <= code < 300 ->
  Value.is_array v = false ->
  Client.process_loop E (item :: rest) maxPosts st w = (Thrown TypeError, logged w u).
Proof.
  intros Ht Ho Hu Hroom Hnet Hcode Hv.
  assert (announce_of_url E item u) as Ha by now repeat split.
  pose proof (filter_no_nul _ _ Hu) as Hnul.
  assert (Client.httpGet E u w = (Thrown TypeError, logged w u)) as Hget.
  { unfold Client.httpGet. rewrite Hnul, Hnet.
    replace ((code <? 200) || (300 <=? code)) with false
      by (symmetry; apply orb_false_iff; split; [apply Z.ltb_ge | apply Z.leb_gt]; lia).
    destruct v; try reflexivity. discriminate Hv. }
  cbn [Client.process_loop].
  replace (maxPosts <=? Client.processedCount st) with false
    by (symmetry; apply Z.leb_gt; lia).
  apply bind_thrown. rewrite (extract_announce E item u w Ha). unfold try_catch.
  now rewrite (bind_thrown _ _ _ _ _ Hget).
Qed.

(** An Announce whose object is a URL string, met while there is
    room for more posts: resolving it makes one request, to that URL; when
    the request delivers an object of type Note, that object is the
    candidate; when the request fails, or delivers an object of another
    type, the item is appended to the unparsed items and the loop goes on
    with the next item, nothing thrown. *)
Theorem announce_resolution (E : environment) (item : value) (u : string)
  (rest : list value) (maxPosts : Z) (st : Client.progress) (w : world) :
  Client.has_type item "Announce" = true ->
  Value.at_key item "object" = Some (VStr u) ->
  Php.filter_validate_url (validate_ipv6 E) u = true ->
  Client.processedCount st < maxPosts ->
  let reply := net E (length (requests w)) u in
  snd (Client.extract E item w) = logged w u
  /\ (forall post,
        Resolver.decoded reply = Some post ->
        Client.has_type (VArr post) "Note" = true ->
        Client.extract E item w = (Returned (Client.NoteObject (VArr post)), logged w u))
  /\ (Resolver.failed reply = true
      \/ (exists post, Resolver.decoded reply = Some post
                       /\ Client.has_type (VArr post) "Note" = false) ->
      Client.process_loop E (item :: rest) maxPosts st w
      = Client.process_loop E rest maxPosts
          {| Client.notes := Client.notes st;
             Client.processedCount := Client.processedCount st;
             Client.debug_unparsed_items := (Client.debug_unparsed_items st ++ [item])%list |}
          (logged w u)).
Proof.
  intros Ht Ho Hu Hroom reply.
  assert (announce_of_url E item u) as Ha by now repeat split.
  pose proof (filter_no_nul _ _ Hu) as Hnul.
  rewrite (extract_announce E item u w Ha).
  split; [|split].
  - apply try_catch_logs; [|reflexivity].
    unfold bind. pose proof (httpGet_logs E u w Hnul) as Hl.
    destruct (Client.httpGet E u w) as [[a|t] w1]; cbn in Hl |- *; [|assumption].
    subst w1. now destruct (Client.has_type (VArr a) "Note").
  - intros post Hd Hnote. unfold try_catch.
    rewrite (bind_returned _ _ _ _ _ (httpGet_decoded E u w post Hnul Hd)).
    now rewrite Hnote.
  - intros Hfail. apply step_unparsed; [assumption|].
    rewrite (extract_announce E item u w Ha). unfold try_catch.
    destruct Hfail as [Hf | (post & Hd & Hnote)].
    + destruct (httpGet_failed E u w Hnul Hf) as (t & Hget & Hexc).
      now rewrite (bind_thrown _ _ _ _ _ Hget), Hexc.
    + rewrite (bind_returned _ _ _ _ _ (httpGet_decoded E u w post Hnul Hd)).
      now rewrite Hnote.
Qed.

(** The Announce of an Article on the reference federation. *)
Lemma announce_resolution_witness :
  Client.process_loop Reference.env [Reference.announce_article] 20
    {| Client.notes := []; Client.processedCount := 0;
       Client.debug_unparsed_items := [] |} world0
  = Client.process_loop Reference.env [] 20
      {| Client.notes := []; Client.processedCount := 0;
         Client.debug_unparsed_items := [Reference.announce_article] |}
      (logged world0 "https://other.example/articles/4").
Proof.
  apply (proj2 (proj2 (announce_resolution Reference.env Reference.announce_article
                         "https://other.example/articles/4" [] 20
                         {| Client.notes := []; Client.processedCount := 0;
                            Client.debug_unparsed_items := [] |} world0
                         eq_refl eq_refl eq_refl eq_refl))).
  right. exists Reference.article. split; reflexivity.
Defined.

(** C5, on the code.  An Announce whose object URL is answered with the
    status 200 and the JSON text [null], followed by a Create with an
    embedded note.  The one request is made; the [TypeError] of the return
    type of [httpGet] is no [Exception], so the [catch] clause of the
    branch does not take it: the run of the loop ends with the error, the
    Announce is recorded nowhere and the note behind it is never built.
    Where the same request fails (the host refuses the connection), the
    Announce is recorded among the unparsed items and the note is built. *)
Theorem announce_scalar_reply_is_raised :
  Client.processOrderedItems Scenario.env_void
    (Value.list_array [Scenario.announce_void; Reference.create_embedded]) 20 0 []
    world0
  = (Thrown TypeError, {| requests := [Scenario.voidUrl]; clock_reads := 0 |})
  /\ instanceof_Exception TypeError = false
  /\ exists r w',
       Client.processOrderedItems Reference.env
         (Value.list_array [Scenario.announce_void; Reference.create_embedded]) 20 0 []
         world0
       = (Returned r, w')
       /\ requests w' = [Scenario.voidUrl]
       /\ Client.debug_unparsed_items r = [Scenario.announce_void]
       /\ length (Client.notes r) = 1%nat.
Proof.
  split; [vm_compute; reflexivity|]. split; [reflexivity|].
  eexists. eexists. split; [vm_compute; reflexivity|].
  split; [reflexivity|]. split; reflexivity.
Qed.

(** C2, on the code.  Two items whose secondary fetch fails (the server
    answers 404): an activity given by its URL, then a Create whose object
    is a URL.  Both are requested and the loop runs to the end; the Create
    is recorded among the unparsed items, the URL reference is not. *)
Theorem url_reference_failure_is_not_recorded :
  Client.processOrderedItems Reference.env
    (Value.list_array [Reference.reference_gone; Reference.create_gone]) 20 0 []
    world0
  = (Returned {| Client.notes := []; Client.processedCount := 0;
                 Client.debug_unparsed_items := [Reference.create_gone] |},
     {| requests := ["https://gone.example/activities/7";
                     "https://gone.example/notes/6"];
        clock_reads := 0 |}).
Proof. vm_compute. reflexivity. Qed.

(** ** Requests are only ever added *)

Section Growth.

Local Open Scope list_scope.

Variable E : environment.

Definition grows {A} (m : M A) : Prop :=
  forall w, exists l, requests (snd (m w)) = requests w ++ l.

Lemma grows_ret {A} (a : A) : grows (ret a).
Proof. intros w. exists []. cbn. now rewrite app_nil_r. Qed.

Lemma grows_throw {A} (t : throwable) : grows (@throw A t).
Proof. intros w. exists []. cbn. now rewrite app_nil_r. Qed.

Lemma grows_bind {A B} (m : M A) (k : A -> M B) :
  grows m -> (forall a, grows (k a)) -> grows (bind m k).
Proof.
  intros Hm Hk w. unfold bind. destruct (Hm w) as [l Hl].
  destruct (m w) as [[a|t] w1]; cbn in Hl.
  - destruct (Hk a w1) as [l' Hl']. exists (l ++ l').
    now rewrite Hl', Hl, app_assoc.
  - now exists l.
Qed.

Lemma grows_try_catch {A} (body handler : M A) :
  grows body -> grows handler -> grows (try_catch body handler).
Proof.
  intros Hb Hh w. unfold try_catch. destruct (Hb w) as [l Hl].
  destruct (body w) as [[a|t] w1]; cbn in Hl.
  - now exists l.
  - destruct (instanceof_Exception t); [|now exists l].
    destruct (Hh w1) as [l' Hl']. exists (l ++ l').
    now rewrite Hl', Hl, app_assoc.
Qed.

Lemma grows_httpGet (url : string) : grows (Client.httpGet E url).
Proof.
  intros w. rewrite httpGet_world. destruct (Php.has_nul url).
  - exists []. now rewrite app_nil_r.
  - now exists [url].
Qed.

Lemma grows_as_string (v : value) : grows (as_string E v).
Proof.
  unfold as_string.
  destruct (Value.string_param (float_text E) v); [apply grows_ret | apply grows_throw].
Qed.

Lemma grows_as_array (v : value) : grows (as_array v).
Proof. destruct v; first [apply grows_ret | apply grows_throw]. Qed.

Lemma grows_time : grows (time E).
Proof. intros w. exists []. cbn. now rewrite app_nil_r. Qed.

Ltac grow :=
  repeat first
    [ apply grows_ret | apply grows_throw | apply grows_httpGet
    | apply grows_as_string | apply grows_as_array | apply grows_time
    | apply grows_try_catch
    | apply grows_bind; [|intros ?]
    | match goal with
      | |- grows (if ?c then _ else _) => destruct c
      | |- grows (match ?x with _ => _ end) => destruct x
      end ].

Lemma grows_collect_attachments (atts : list value) :
  grows (Note.collect_attachments E atts).
Proof.
  induction atts as [|att atts IH]; cbn [Note.collect_attachments]; [apply grows_ret|].
  apply grows_bind; [unfold Note.attachment_of; grow|].
  intros o. apply grows_bind; [assumption|]. intros more. apply grows_ret.
Qed.

Lemma grows_fromArray (data : array) : grows (Note.fromArray E data).
Proof.
  unfold Note.fromArray, new_DateTimeImmutable.
  apply grows_bind; [grow|]. intros published.
  apply grows_bind; [grow|]. intros publishedAt.
  apply grows_bind.
  { destruct (Value.get data "attachment") as [[]|];
      first [apply grows_collect_attachments | apply grows_ret]. }
  intros attachments. grow.
Qed.

Lemma grows_extract (item : value) : grows (Client.extract E item).
Proof. unfold Client.extract. grow. Qed.

Lemma grows_process_loop (maxPosts : Z) (items : list value) :
  forall st, grows (Client.process_loop E items maxPosts st).
Proof.
  induction items as [|item items IH]; intros st; cbn [Client.process_loop];
    [apply grows_ret|].
  destruct (maxPosts <=? Client.processedCount st); [apply grows_ret|].
  apply grows_bind; [apply grows_extract|]. intros [noteObject|]; [|apply IH].
  apply grows_bind; [unfold Client.is_valid_note; grow|]. intros [|]; [|apply IH].
  apply grows_bind; [grow|]. intros data.
  apply grows_bind; [apply grows_fromArray|]. intros note. apply IH.
Qed.

End Growth.

(** C7.  An outbox collection whose [first] is a URL, and a page behind it
    that holds [orderedItems]: the requests of the whole fetch are the
    actor, the collection and that page, followed by the requests the loop
    over the items of the page makes, and by nothing else; the posts are
    the notes of that loop, however few.  The [next] link of the page
    plays no part.  A [first] that holds a NUL byte names no page:
    [curl_setopt] refuses it with a [ValueError] and the fetch ends after
    the requests for the actor and the collection. *)
Theorem first_page_only (E : environment) (this : Client.t) (actorUrl : string)
  (maxPosts : Z) (w : world) (actor : array) (outboxUrl : string)
  (collection : array) (firstUrl : string) (page items : array) :
  let n := length (requests w) in
  let w2 := logged (logged w actorUrl) outboxUrl in
  let w3 := logged w2 firstUrl in
  let items_run := Client.processOrderedItems E items maxPosts 0 [] w3 in
  Validator.validateUrl E actorUrl (Client.allowedDomains this) = Returned tt ->
  Resolver.decoded (net E n actorUrl) = Some actor ->
  Validator.validateActorObject E actor = true ->
  Value.get actor "outbox" = Some (VStr outboxUrl) ->
  Resolver.decoded (net E (S n) outboxUrl) = Some collection ->
  Value.get collection "first" = Some (VStr firstUrl) ->
  (Php.has_nul firstUrl = true ->
   Client.fetch E this actorUrl maxPosts w = (Thrown ValueError, w2))
  /\ (Php.has_nul firstUrl = false ->
      Resolver.decoded (net E (S (S n)) firstUrl) = Some page ->
      Validator.validateOutboxCollection page = true ->
      Value.get page "orderedItems" = Some (VArr items) ->
      (forall v, Value.get page "items" = Some v -> Value.is_array v = true) ->
      requests (snd (Client.fetch E this actorUrl maxPosts w)) = requests (snd items_run)
      /\ (exists item_requests,
            requests (snd items_run)
            = (requests w ++ [actorUrl; outboxUrl; firstUrl] ++ item_requests)%list)
      /\ (forall res w',
            Client.fetch E this actorUrl maxPosts w = (Returned res, w') ->
            exists r w'',
              items_run = (Returned r, w'') /\ Client.posts res = Client.notes r)).
Proof.
  intros n w2 w3 items_run Hauth Hactor Hvalid Houtbox Hcoll Hfirst.
  assert (length (requests (logged w actorUrl)) = S n) as Hn1.
  { cbn. rewrite length_app. cbn. subst n. lia. }
  assert (length (requests w2) = S (S n)) as Hn2.
  { cbn. rewrite !length_app. cbn. subst n. lia. }
  pose proof (validateUrl_no_nul E _ _ Hauth) as Hnul0.
  assert (Php.filter_validate_url (validate_ipv6 E) outboxUrl = true) as Hfilter.
  { unfold Validator.validateActorObject in Hvalid.
    destruct (negb (forallb _ _)); [discriminate|].
    destruct (negb (Value.in_array_loose _ _)); [discriminate|].
    rewrite Houtbox in Hvalid. cbn in Hvalid.
    now destruct (Php.filter_validate_url (validate_ipv6 E) outboxUrl). }
  pose proof (filter_no_nul _ _ Hfilter) as Hnul1.
  assert (Client.fetch E this actorUrl maxPosts w
          = (outboxPage <- Client.httpGet E firstUrl ;;
             if negb (Validator.validateOutboxCollection outboxPage)
             then throw (ParseException INVALID_NOTE)
             else
               pairs <- Client.extractNotesFromOutbox E outboxPage maxPosts [] ;;
               actorInfo <- Client.extractActorInfo E actor ;;
               fetched_at <- now_local E ;;
               tested_at <- now_local E ;;
               ret {| Client.posts := fst pairs;
                      Client.actor_info := actorInfo;
                      Client.meta :=
                        Value.obj [("count", VInt (Z.of_nat (length (fst pairs))));
                                   ("fetched_at", VStr (Date.format_c fetched_at));
                                   ("actor_url", VStr actorUrl);
                                   ("outbox_url", VStr outboxUrl)];
                      Client.debug_outbox_page := outboxPage;
                      Client.debug_test :=
                        "THIS_IS_A_TEST_" ++ Date.format_His tested_at |})
              w2) as Hprefix.
  { unfold Client.fetch.
    rewrite (bind_returned (lift _) _ w w tt) by (unfold lift; now rewrite Hauth).
    rewrite (bind_returned _ _ _ _ _ (httpGet_decoded E actorUrl w actor Hnul0 Hactor)).
    rewrite Hvalid, Houtbox. cbn [negb Value.coalesce].
    assert (Value.truthy (VStr outboxUrl) = true) as ->
      by exact (UrlFacts.filter_truthy (validate_ipv6 E) _ Hfilter).
    cbn [negb]. rewrite (bind_returned (as_string E _) _ _ _ outboxUrl) by reflexivity.
    rewrite (bind_returned (Client.httpGet E outboxUrl) _ _ _ collection)
      by (apply httpGet_decoded; [assumption | now rewrite Hn1]).
    rewrite Hfirst. reflexivity. }
  split.
  { intros Hnul. rewrite Hprefix.
    apply bind_thrown. unfold Client.httpGet. now rewrite Hnul. }
  intros Hnul Hpage Hpv Hitems Hother.
  assert (Client.fetch E this actorUrl maxPosts w
          = (pairs <- Client.extractNotesFromOutbox E page maxPosts [] ;;
             actorInfo <- Client.extractActorInfo E actor ;;
             fetched_at <- now_local E ;;
             tested_at <- now_local E ;;
             ret {| Client.posts := fst pairs;
                    Client.actor_info := actorInfo;
                    Client.meta :=
                      Value.obj [("count", VInt (Z.of_nat (length (fst pairs))));
                                 ("fetched_at", VStr (Date.format_c fetched_at));
                                 ("actor_url", VStr actorUrl);
                                 ("outbox_url", VStr outboxUrl)];
                    Client.debug_outbox_page := page;
                    Client.debug_test := "THIS_IS_A_TEST_" ++ Date.format_His tested_at |})
              w3) as Hfetch.
  { rewrite Hprefix.
    rewrite (bind_returned (Client.httpGet E firstUrl) _ _ _ page)
      by (apply httpGet_decoded; [assumption | now rewrite Hn2]).
    rewrite Hpv. cbn [negb]. reflexivity. }
  assert (Client.extractNotesFromOutbox E page maxPosts [] w3
          = (r <- Client.processOrderedItems E items maxPosts 0 [] ;;
             ret (Client.notes r, Client.debug_unparsed_items r)) w3) as Hextract.
  { unfold Client.extractNotesFromOutbox, Client.log_counts, Client.items_of.
    rewrite Hitems. cbn [count].
    destruct (Value.get page "items") as [v|] eqn:Hv.
    - specialize (Hother v eq_refl). destruct v; try discriminate. reflexivity.
    - reflexivity. }
  fold items_run. split; [|split].
  - rewrite Hfetch. unfold bind at 1. rewrite Hextract. unfold bind at 1.
    fold items_run. destruct items_run as [[r|t] w4]; [|reflexivity].
    cbn [ret]. unfold bind, Client.extractActorInfo, bind.
    rewrite as_string_run.
    destruct (Value.string_param _); reflexivity.
  - destruct (grows_process_loop E maxPosts (Value.array_values items)
                {| Client.notes := []; Client.processedCount := 0;
                   Client.debug_unparsed_items := [] |} w3) as [l Hl].
    exists l. unfold items_run, Client.processOrderedItems. rewrite Hl.
    cbn. now rewrite <- !app_assoc.
  - intros res w' H. rewrite Hfetch in H.
    apply bind_inv in H. destruct H as ([notes unparsed] & w4 & Hx & H).
    rewrite Hextract in Hx. apply bind_inv in Hx. destruct Hx as (r & w5 & Hr & Hx).
    apply ret_inv in Hx. destruct Hx as [Hx <-]. inversion Hx; subst.
    exists r, w5. split; [assumption|]. minv. reflexivity.
Qed.

(** The requests of the fetch on the reference federation: the page named
    by [next] is not among them. *)
Lemma first_page_only_witness :
  let w3 := logged (logged (logged world0 Reference.actorUrl) Reference.outboxUrl)
              Reference.firstUrl in
  let items_run :=
    Client.processOrderedItems Reference.env Reference.items 20 0 [] w3 in
  requests (snd (Client.fetch Reference.env Reference.client Reference.actorUrl 20 world0))
  = requests (snd items_run)
  /\ (exists item_requests,
        requests (snd items_run)
        = (requests world0
           ++ [Reference.actorUrl; Reference.outboxUrl; Reference.firstUrl]
           ++ item_requests)%list)
  /\ (forall res w',
        Client.fetch Reference.env Reference.client Reference.actorUrl 20 world0
        = (Returned res, w') ->
        exists r w'', items_run = (Returned r, w'') /\ Client.posts res = Client.notes r).
Proof.
  apply (first_page_only Reference.env Reference.client Reference.actorUrl 20 world0
           Reference.actor Reference.outboxUrl Reference.outbox Reference.firstUrl
           Reference.page Reference.items); try reflexivity.
  intros v H. discriminate H.
Defined.

Example reference_fetch_requests :
  requests (snd (Client.fetch Reference.env Reference.client Reference.actorUrl 20 world0))
  = [Reference.actorUrl; Reference.outboxUrl; Reference.firstUrl;
     "https://other.example/notes/3"; "https://other.example/articles/4";
     "https://gone.example/notes/5"; "https://gone.example/notes/6";
     "https://gone.example/activities/7"].
Proof. vm_compute. reflexivity. Qed.

(** ** Building a note twice: [Note::fromArray] *)

Section BuildFacts.

Variable E : environment.

(** A computation that neither reads nor changes the world. *)
Definition pure {A} (m : M A) : Prop := exists o, forall w, m w = (o, w).

Lemma pure_ret {A} (a : A) : pure (ret a).
Proof. now exists (Returned a). Qed.

Lemma pure_as_string (v : value) : pure (as_string E v).
Proof. eexists. intros w. apply as_string_run. Qed.

Lemma pure_bind {A B} (m : M A) (k : A -> M B) :
  pure m -> (forall a, pure (k a)) -> pure (bind m k).
Proof.
  intros [o Ho] Hk. unfold bind. destruct o as [a|t].
  - destruct (Hk a) as [o' Ho']. exists o'. intros w. now rewrite Ho, Ho'.
  - exists (Thrown t). intros w. now rewrite Ho.
Qed.

Lemma pure_attachment_of (att : value) : pure (Note.attachment_of E att).
Proof.
  unfold Note.attachment_of.
  destruct (Value.at_key att "type"); [|apply pure_ret].
  destruct (Value.at_key att "url"); [|apply pure_ret].
  apply pure_bind; [apply pure_as_string|]. intros ty. apply pure_ret.
Qed.

Lemma pure_collect_attachments (atts : list value) :
  pure (Note.collect_attachments E atts).
Proof.
  induction atts as [|att atts IH]; cbn [Note.collect_attachments]; [apply pure_ret|].
  apply pure_bind; [apply pure_attachment_of|]. intros o.
  apply pure_bind; [assumption|]. intros more. apply pure_ret.
Qed.

Lemma pure_same {A} (m : M A) (w1 w1' w2 w2' : world) (a1 a2 : A) :
  pure m -> m w1 = (Returned a1, w1') -> m w2 = (Returned a2, w2') -> a1 = a2.
Proof.
  intros [o Ho] H1 H2. rewrite Ho in H1, H2. congruence.
Qed.

Lemma new_DateTimeImmutable_inv (text : string) (w w' : world) (d : DateTime) :
  new_DateTimeImmutable E text w = (Returned d, w') ->
  timelib E (clock E (clock_reads w)) text = Some d.
Proof.
  unfold new_DateTimeImmutable, time, bind.
  destruct (timelib E (clock E (clock_reads w)) text); intros H; now inversion H.
Qed.

(** What a returned [fromArray] has read and built. *)
Lemma fromArray_returned (data : array) (w w' : world) (n : Note.t) :
  Note.fromArray E data w = (Returned n, w') ->
  exists published w0 w1,
    Value.string_param (float_text E) (Value.coalesce (Value.get data "published") (VStr "now"))
    = Some published
    /\ timelib E (clock E (clock_reads w)) published = Some (Note.publishedAt n)
    /\ Note.formattedDate n = Date.format_tokyo (Note.publishedAt n)
    /\ match Value.get data "attachment" with
       | Some (VArr atts) => Note.collect_attachments E (Value.array_values atts)
       | _ => ret []
       end w0 = (Returned (Note.attachments n), w1)
    /\ Note.author n = Note.author_of data
    /\ exists text,
         Value.string_param (float_text E) (Value.coalesce (Value.get data "content") (VStr ""))
         = Some text
         /\ Note.sanitizedContent n = Note.sanitizeContent E text.
Proof.
  unfold Note.fromArray. intros H.
  apply bind_inv in H. destruct H as (published & w0 & Hp & H).
  apply as_string_inv in Hp. destruct Hp as [Hp <-].
  apply bind_inv in H. destruct H as (d & w1 & Hd & H).
  apply new_DateTimeImmutable_inv in Hd.
  apply bind_inv in H. destruct H as (atts & w2 & Hatts & H).
  apply bind_inv in H. destruct H as (text & w3 & Htext & H).
  apply as_string_inv in Htext. destruct Htext as [Htext <-].
  apply bind_inv in H. destruct H as (id & w4 & _ & H).
  apply bind_inv in H. destruct H as (url & w5 & _ & H).
  apply ret_inv in H. destruct H as [<- _]. cbn.
  exists published, w1, w2. repeat split; try assumption.
  now exists text.
Qed.

End BuildFacts.

(** C4, on the code.  A valid note without [published], built twice in a
    row on the reference federation, whose clock moves on by a minute
    between the calls: the two formatted dates differ. *)
Lemma undated_note_counterexample :
  exists n1 n2 w1 w2,
    Validator.validateNoteObject Reference.undated = true
    /\ Note.fromArray Reference.env Reference.undated world0 = (Returned n1, w1)
    /\ Note.fromArray Reference.env Reference.undated w1 = (Returned n2, w2)
    /\ Note.formattedDate n1 = "2024年08月10日 21:34"
    /\ Note.formattedDate n2 = "2024年08月10日 21:35".
Proof.
  do 4 eexists. split; [reflexivity|].
  split; [vm_compute; reflexivity|].
  split; [vm_compute; reflexivity|].
  split; reflexivity.
Qed.

(** C4, as amended.  Two calls of the build on the same object return the
    same sanitized content, attachments and author; they return the same
    formatted date when the text of [published] is read to the same
    instant at both calls, as an absolute timestamp is; without
    [published] the formatted date is that of the clock at the call. *)
Theorem note_build_repeatable (E : environment) (data : array)
  (w1 w1' w2 w2' : world) (n1 n2 : Note.t) :
  Note.fromArray E data w1 = (Returned n1, w1') ->
  Note.fromArray E data w2 = (Returned n2, w2') ->
  Note.sanitizedContent n1 = Note.sanitizedContent n2
  /\ Note.attachments n1 = Note.attachments n2
  /\ Note.author n1 = Note.author n2
  /\ (forall published,
        Value.string_param (float_text E) (Value.coalesce (Value.get data "published") (VStr "now"))
        = Some published ->
        timelib E (clock E (clock_reads w1)) published
        = timelib E (clock E (clock_reads w2)) published ->
        Note.formattedDate n1 = Note.formattedDate n2)
  /\ (Value.get data "published" = None ->
      exists now,
        timelib E (clock E (clock_reads w1)) "now" = Some now
        /\ Note.formattedDate n1 = Date.format_tokyo now).
Proof.
  intros H1 H2.
  destruct (fromArray_returned E data w1 w1' n1 H1)
    as (p1 & wa1 & wb1 & Hp1 & Hd1 & Hf1 & Ha1 & Hau1 & t1 & Ht1 & Hs1).
  destruct (fromArray_returned E data w2 w2' n2 H2)
    as (p2 & wa2 & wb2 & Hp2 & Hd2 & Hf2 & Ha2 & Hau2 & t2 & Ht2 & Hs2).
  split; [|split; [|split; [|split]]].
  - rewrite Hs1, Hs2. congruence.
  - revert Ha1 Ha2. apply pure_same.
    destruct (Value.get data "attachment") as [[]|];
      first [apply pure_collect_attachments | apply pure_ret].
  - congruence.
  - intros published Hp Hsame. rewrite Hf1, Hf2. congruence.
  - intros Habsent. rewrite Habsent in Hp1. cbn in Hp1. inversion Hp1; subst p1.
    exists (Note.publishedAt n1). now split.
Qed.

(** A dated note of the reference federation, built at two readings of
    the clock. *)
Lemma note_build_repeatable_witness :
  exists n1 n2 w1 w2,
    Note.fromArray Reference.env Reference.n1 world0 = (Returned n1, w1)
    /\ Note.fromArray Reference.env Reference.n1 w1 = (Returned n2, w2)
    /\ Note.sanitizedContent n1 = Note.sanitizedContent n2
    /\ Note.attachments n1 = Note.attachments n2
    /\ Note.author n1 = Note.author n2
    /\ Note.formattedDate n1 = Note.formattedDate n2.
Proof.
  destruct (Note.fromArray Reference.env Reference.n1 world0) as [o1 w1] eqn:H1.
  destruct (Note.fromArray Reference.env Reference.n1 w1) as [o2 w2] eqn:H2.
  vm_compute in H1. inversion H1; subst o1 w1; clear H1.
  vm_compute in H2. inversion H2; subst o2 w2; clear H2.
  do 4 eexists. split; [reflexivity|]. split; [reflexivity|].
  match goal with
  | |- Note.sanitizedContent ?a = Note.sanitizedContent ?b /\ _ =>
      assert (Note.fromArray Reference.env Reference.n1 world0
              = (Returned a, {| requests := []; clock_reads := 1 |})) as Ha1
        by (vm_compute; reflexivity);
      assert (Note.fromArray Reference.env Reference.n1
                {| requests := []; clock_reads := 1 |}
              = (Returned b, {| requests := []; clock_reads := 2 |})) as Ha2
        by (vm_compute; reflexivity)
  end.
  destruct (note_build_repeatable Reference.env Reference.n1 _ _ _ _ _ _ Ha1 Ha2)
    as (Hs & Ha & Hau & Hf & _).
  split; [exact Hs|]. split; [exact Ha|]. split; [exact Hau|].
  apply (Hf "2024-08-10T12:34:56Z"); reflexivity.
Defined.


(* ================================================================== *)
(** * Further properties of the code                                   *)
(* ================================================================== *)

(** ** What the sanitisers let through *)

Module EscapeFacts.

Import Ctype Php Shape.

Lemma markup_free_append (a b : string) :
  markup_free (a ++ b) = markup_free a && markup_free b.
Proof. apply all_bytes_append. Qed.

Lemma escape_html_markup_free (table : string -> bool) (s : string) :
  markup_free (escape_html table s) = true.
Proof.
  induction s as [|c s IH]; [reflexivity|].
  cbn [escape_html]. rewrite markup_free_append, IH, andb_true_r.
  destruct (ch_eq c "&") eqn:Ha; [now destruct (starts_entity table s)|].
  destruct (ch_eq c DQUOTE) eqn:Hd; [reflexivity|].
  destruct (ch_eq c "'") eqn:Hs; [reflexivity|].
  destruct (ch_eq c "<") eqn:Hl; [reflexivity|].
  destruct (ch_eq c ">") eqn:Hg; [reflexivity|].
  unfold markup_free, markup_byte. cbn [all_bytes]. now rewrite Hd, Hs, Hl, Hg.
Qed.

Lemma htmlspecialchars_markup_free (table : string -> bool) (s : string) :
  markup_free (htmlspecialchars table s) = true.
Proof.
  unfold htmlspecialchars. destruct (utf8_valid s); [|reflexivity].
  apply escape_html_markup_free.
Qed.

Lemma all_bytes_mb_take (p : ascii -> bool) (n : nat) (s : string) :
  all_bytes p s = true -> all_bytes p (mb_take n s) = true.
Proof.
  revert n. induction s as [|c s IH]; intros n H; [reflexivity|].
  cbn [all_bytes] in H. apply andb_prop in H as [Hc H].
  cbn [mb_take]. destruct (utf8_trail c).
  - cbn [all_bytes]. now rewrite Hc, IH.
  - destruct n; [reflexivity|]. cbn [all_bytes]. now rewrite Hc, IH.
Qed.

Lemma mb_strlen_append (a b : string) :
  mb_strlen (a ++ b) = mb_strlen a + mb_strlen b.
Proof.
  induction a as [|c a IH]; [reflexivity|].
  cbn [append mb_strlen]. rewrite IH. lia.
Qed.

(** The three steps of both sanitisers, for any set of allowed tags. *)
Lemma sanitized_shape (table : string -> bool) (allow : option string)
  (content : string) :
  let sanitized := htmlspecialchars table (strip_tags content allow) in
  let result := if 10000 <? mb_strlen sanitized
                then mb_substr0 sanitized 10000 ++ "..."
                else sanitized in
  markup_free result = true /\ mb_strlen result <= 10003.
Proof.
  cbv zeta.
  pose proof (htmlspecialchars_markup_free table (strip_tags content allow)) as Hfree.
  destruct (10000 <? mb_strlen _) eqn:Hlong.
  - split.
    + rewrite markup_free_append. unfold mb_substr0.
      unfold markup_free in *. now rewrite all_bytes_mb_take.
    + rewrite mb_strlen_append. unfold mb_substr0.
      rewrite SanitizeFacts.mb_strlen_mb_take.
      change (mb_strlen "...") with 3. rewrite Z2Nat.id by lia. lia.
  - split; [assumption|]. apply Z.ltb_ge in Hlong. lia.
Qed.

Lemma escape_all_markup_free (s : string) : markup_free (Builtin.escape_all s) = true.
Proof.
  induction s as [|c s IH]; [reflexivity|].
  cbn [Builtin.escape_all]. rewrite markup_free_append, IH, andb_true_r.
  destruct (ch_eq c "&") eqn:Ha; [reflexivity|].
  destruct (ch_eq c DQUOTE) eqn:Hd; [reflexivity|].
  destruct (ch_eq c "'") eqn:Hs; [reflexivity|].
  destruct (ch_eq c "<") eqn:Hl; [reflexivity|].
  destruct (ch_eq c ">") eqn:Hg; [reflexivity|].
  unfold markup_free, markup_byte. cbn [all_bytes]. now rewrite Hd, Hs, Hl, Hg.
Qed.

Lemma escape_all_references (s : string) :
  references_only (Builtin.escape_all s) = true.
Proof.
  induction s as [|c s IH]; [reflexivity|].
  cbn [Builtin.escape_all].
  destruct (ch_eq c "&") eqn:Ha; [|destruct (ch_eq c DQUOTE) eqn:Hd;
    [|destruct (ch_eq c "'") eqn:Hs; [|destruct (ch_eq c "<") eqn:Hl;
    [|destruct (ch_eq c ">") eqn:Hg]]]];
    cbn [append references_only ch_eq code]; rewrite ?IH;
    try (cbn; rewrite ?StripFacts.prefix_empty; reflexivity).
  now rewrite Ha.
Qed.

Lemma escape_all_plain (s : string) :
  all_bytes Markup.plain_byte s = true -> Builtin.htmlspecialchars_encode s = s.
Proof.
  intros H. unfold Builtin.htmlspecialchars_encode.
  assert (utf8_valid s = true /\ Builtin.escape_all s = s) as [-> ->]; [|reflexivity].
  induction s as [|c s IH]; [now split|].
  cbn [all_bytes] in H. apply andb_prop in H as [Hc H].
  destruct (IH H) as [Hv He]. destruct (SanitizeFacts.plain_byte_plain c Hc).
  cbn [utf8_valid Builtin.escape_all].
  now rewrite pl_ascii, pl_amp, pl_dq, pl_sq, pl_lt, pl_gt, Hv, He.
Qed.

End EscapeFacts.

(** Whatever the content and the table of entities, what
    [Note::sanitizeContent] returns holds none of the bytes [<], [>],
    the double quote and the single quote, and has at most 10003
    characters. *)
Theorem sanitizeContent_output_is_inert (E : environment) (content : string) :
  Shape.markup_free (Note.sanitizeContent E content) = true
  /\ Php.mb_strlen (Note.sanitizeContent E content) <= 10003.
Proof.
  apply (EscapeFacts.sanitized_shape (html5_entity E) (Some Note.allowedTags) content).
Qed.

(** Content of at most 10000 printable ASCII characters, none of them
    [&], [<], [>] or a quote, is returned by [Note::sanitizeContent] as
    it is. *)
Theorem sanitizeContent_keeps_plain_text (E : environment) (content : string) :
  Php.all_bytes Markup.plain_byte content = true ->
  Z.of_nat (String.length content) <= 10000 ->
  Note.sanitizeContent E content = content.
Proof.
  intros Hplain Hlen. unfold Note.sanitizeContent.
  rewrite SanitizeFacts.strip_tags_plain, SanitizeFacts.htmlspecialchars_plain
    by assumption.
  rewrite SanitizeFacts.mb_strlen_plain by assumption.
  replace (10000 <? Z.of_nat (String.length content)) with false; [reflexivity|].
  symmetry. apply Z.ltb_ge. lia.
Qed.

Lemma sanitizeContent_keeps_plain_text_witness :
  Note.sanitizeContent Reference.env "Hello, fediverse!" = "Hello, fediverse!".
Proof.
  apply (sanitizeContent_keeps_plain_text Reference.env "Hello, fediverse!").
  - reflexivity.
  - cbn. lia.
Defined.

(** [SecurityHandler::sanitizeHtml] is [Note::sanitizeContent] under
    another name: the two return the same string for every content, so
    what it returns holds no markup byte either and is as short. *)
Theorem sanitizeHtml_is_sanitizeContent (E : environment) (content : string) :
  SecurityHandler.sanitizeHtml E content = Note.sanitizeContent E content
  /\ Shape.markup_free (SecurityHandler.sanitizeHtml E content) = true
  /\ Php.mb_strlen (SecurityHandler.sanitizeHtml E content) <= 10003.
Proof.
  split; [reflexivity|].
  apply (EscapeFacts.sanitized_shape (html5_entity E)
           (Some SecurityHandler.allowedTags) content).
Qed.

(** The two messages that [SecurityHandler::outputError] writes hold no
    markup byte, every ampersand in them starts one of the references
    [&amp;], [&quot;], [&apos;], [&lt;], [&gt;], and the status is the one
    given. *)
Theorem outputError_escapes_messages (E : environment)
  (errorCode message userMessage : string) (httpCode : Z) (w : world) :
  exists a w' error m um,
    SecurityHandler.outputError E errorCode message userMessage httpCode w
    = (Returned a, w')
    /\ ErrorResponse.http_response_code a = httpCode
    /\ requests w' = requests w
    /\ Value.lookup (ErrorResponse.response a) "error" = Some (VArr error)
    /\ Value.lookup error "code" = Some (VStr errorCode)
    /\ Value.lookup error "message" = Some (VStr m)
    /\ Value.lookup error "user_message" = Some (VStr um)
    /\ Shape.markup_free m = true /\ Shape.references_only m = true
    /\ Shape.markup_free um = true /\ Shape.references_only um = true.
Proof.
  assert (forall s, Shape.markup_free (SecurityHandler.sanitizeForOutput s) = true
                    /\ Shape.references_only (SecurityHandler.sanitizeForOutput s) = true)
    as Hs.
  { intros s. unfold SecurityHandler.sanitizeForOutput, Builtin.htmlspecialchars_encode.
    destruct (Php.utf8_valid s); [|now split].
    split; [apply EscapeFacts.escape_all_markup_free
           | apply EscapeFacts.escape_all_references]. }
  do 5 eexists. split; [reflexivity|]. cbn.
  repeat split; try reflexivity; apply Hs.
Qed.

(** ** The tag filter without a whitelist: [Client::extractActorInfo] *)

Module TaglessFacts.

Import Ctype Php Shape StripFacts.

(** With no tag allowed, a byte is dropped or written as it is, and a
    [<] is written only in state 0 before white space. *)
Lemma step_none (m : stripper) (prev : list ascii) (c next : ascii) :
  fst (step None m prev c next) = ""
  \/ (fst (step None m prev c next) = String c ""
      /\ (ch_eq c "<" = false
          \/ (isspace next = true /\ state (snd (step None m prev c next)) = S0))).
Proof.
  unfold step. destruct (state m) eqn:Hs; [| |now left..].
  - unfold step0. destruct (ch_eq c NUL); [now left|].
    destruct (ch_eq c "<") eqn:Hl.
    + destruct (in_q m); [now left|]. destruct (isspace next) eqn:Hsp; [|now left].
      right. split; [reflexivity|]. right. now split.
    + destruct (ch_eq c ">"); [|right; split; [reflexivity | now left]].
      destruct (depth m); [|now left]. destruct (in_q m); [now left|].
      right. split; [reflexivity | now left].
  - left. unfold step1.
    repeat match goal with
      | |- context [if ?b then _ else _] => destruct b
      | |- context [match ?x with _ => _ end] => destruct x
      end; reflexivity.
Qed.

Lemma strip_none_tagless (input : string) :
  forall m prev, tagless (strip_from None m prev input) = true.
Proof.
  induction input as [|c rest IH]; intros m prev; [reflexivity|].
  rewrite strip_from_cons.
  destruct (step_none m prev c (peek rest)) as [-> | [-> [Hc | [Hsp Hs]]]].
  - apply IH.
  - cbn [append tagless]. now rewrite Hc, IH.
  - cbn [append tagless].
    rewrite (white_space_is_written None _ (c :: prev) rest Hs Hsp), IH.
    now rewrite orb_true_r.
Qed.

End TaglessFacts.

(** The actor information that [Client::extractActorInfo] returns has
    its nine keys, in their order, and a summary in which no tag is left:
    white space follows every [<].  Nothing is requested for it. *)
Theorem actor_info_summary_has_no_tag (E : environment) (actorData : array)
  (w w' : world) (info : array) :
  Client.extractActorInfo E actorData w = (Returned info, w') ->
  w' = w
  /\ map fst info
     = [KStr "id"; KStr "name"; KStr "preferredUsername"; KStr "summary"; KStr "url";
        KStr "avatar"; KStr "header"; KStr "followers_count"; KStr "following_count"]
  /\ exists summary,
       Value.lookup info "summary" = Some (VStr summary)
       /\ Shape.tagless summary = true.
Proof.
  unfold Client.extractActorInfo. intros H.
  apply bind_inv in H. destruct H as (summary & w1 & Hs & H).
  apply as_string_inv in Hs. destruct Hs as [_ <-].
  apply ret_inv in H. destruct H as [<- <-].
  split; [reflexivity|]. split; [reflexivity|].
  exists (Php.strip_tags summary None). split; [reflexivity|].
  apply TaglessFacts.strip_none_tagless.
Qed.

(** The actor of the reference federation, whose summary is a
    paragraph. *)
Lemma actor_info_summary_witness :
  exists info w',
    Client.extractActorInfo Reference.env Reference.actor world0 = (Returned info, w')
    /\ w' = world0
    /\ map fst info
       = [KStr "id"; KStr "name"; KStr "preferredUsername"; KStr "summary"; KStr "url";
          KStr "avatar"; KStr "header"; KStr "followers_count"; KStr "following_count"]
    /\ exists summary,
         Value.lookup info "summary" = Some (VStr summary)
         /\ Shape.tagless summary = true.
Proof.
  eexists. eexists. split.
  - vm_compute. reflexivity.
  - eapply (actor_info_summary_has_no_tag Reference.env Reference.actor world0).
    vm_compute. reflexivity.
Defined.

(** ** Requests made and failures raised *)

Section EffectFacts.

Import Runs.

Local Open Scope list_scope.

Variable E : environment.

Lemma tame_ret {A} (n : nat) (a : A) : tame n (ret a).
Proof.
  intros w. split; [|discriminate].
  exists []. cbn. rewrite app_nil_r. split; [reflexivity | lia].
Qed.

Lemma tame_throw {A} (n : nat) (t : throwable) :
  Shape.fetch_failure t = true -> tame n (@throw A t).
Proof.
  intros Ht w. split.
  - exists []. cbn. rewrite app_nil_r. split; [reflexivity | lia].
  - cbn. intros t' H. now inversion H; subst.
Qed.

Lemma tame_weaken {A} (n n' : nat) (m : M A) :
  (n <= n')%nat -> tame n m -> tame n' m.
Proof.
  intros Hn Hm w. destruct (Hm w) as [(l & Hl & Hlen) Ht].
  split; [|assumption]. exists l. split; [assumption | lia].
Qed.

Lemma tame_bind {A B} (n k : nat) (m : M A) (f : A -> M B) :
  tame n m -> (forall a, tame k (f a)) -> tame (n + k) (bind m f).
Proof.
  intros Hm Hf w. unfold bind. destruct (Hm w) as [(l & Hl & Hlen) Ht].
  destruct (m w) as [[a|t] w1]; cbn in Hl, Ht.
  - destruct (Hf a w1) as [(l' & Hl' & Hlen') Ht']. split; [|exact Ht'].
    exists (l ++ l'). rewrite Hl', Hl, app_assoc, length_app.
    split; [reflexivity | lia].
  - split; [|intros t0 H0; apply Ht; cbn in H0; now inversion H0].
    exists l. split; [exact Hl | lia].
Qed.

Lemma tame_bind0 {A B} (n : nat) (m : M A) (f : A -> M B) :
  tame 0 m -> (forall a, tame n (f a)) -> tame n (bind m f).
Proof. intros Hm Hf. now apply (tame_bind 0 n). Qed.

Lemma tame_try_catch {A} (n k : nat) (body handler : M A) :
  tame n body -> tame k handler -> tame (n + k) (try_catch body handler).
Proof.
  intros Hb Hh w. unfold try_catch. destruct (Hb w) as [(l & Hl & Hlen) Ht].
  destruct (body w) as [[a|t] w1]; cbn in Hl, Ht.
  - split; [|exact Ht]. exists l. split; [exact Hl | lia].
  - destruct (instanceof_Exception t).
    + destruct (Hh w1) as [(l' & Hl' & Hlen') Ht']. split; [|exact Ht'].
      exists (l ++ l'). rewrite Hl', Hl, app_assoc, length_app.
      split; [reflexivity | lia].
    + split; [|exact Ht]. exists l. split; [exact Hl | lia].
Qed.

Lemma tame_httpGet (url : string) : tame 1 (Client.httpGet E url).
Proof.
  intros w. split.
  - rewrite httpGet_world. destruct (Php.has_nul url).
    + exists []. rewrite app_nil_r. split; [reflexivity | cbn; lia].
    + exists [url]. split; [reflexivity | cbn; lia].
  - unfold Client.httpGet.
    destruct (Php.has_nul url); [intros t H; now inversion H|].
    destruct (net E (length (requests w)) url) as [|code body]; cbn.
    + intros t H. now inversion H.
    + destruct ((code <? 200) || (300 <=? code)); cbn.
      * intros t H. now inversion H.
      * destruct body as [v|]; cbn; [|intros t H; now inversion H].
        destruct v; cbn; intros t H; inversion H; reflexivity.
Qed.

Lemma tame_as_string (n : nat) (v : value) : tame n (as_string E v).
Proof.
  unfold as_string. destruct (Value.string_param (float_text E) v);
    [apply tame_ret | now apply tame_throw].
Qed.

Lemma tame_as_array (n : nat) (v : value) : tame n (as_array v).
Proof. destruct v; first [apply tame_ret | now apply tame_throw]. Qed.

Lemma tame_count (n : nat) (v : value) : tame n (count v).
Proof. destruct v; first [apply tame_ret | now apply tame_throw]. Qed.

Lemma tame_time (n : nat) : tame n (time E).
Proof.
  intros w. split; [|discriminate].
  exists []. cbn. rewrite app_nil_r. split; [reflexivity | lia].
Qed.

Ltac tame0 :=
  repeat first
    [ apply tame_ret | apply tame_throw; reflexivity
    | apply tame_as_string | apply tame_as_array | apply tame_count | apply tame_time
    | apply tame_bind0; [|intros ?]
    | match goal with
      | |- tame _ (if ?c then _ else _) => destruct c
      | |- tame _ (match ?x with _ => _ end) => destruct x
      end ].

Lemma tame_now_local (n : nat) : tame n (now_local E).
Proof. unfold now_local. tame0. Qed.

Lemma tame_new_DateTimeImmutable (n : nat) (text : string) :
  tame n (new_DateTimeImmutable E text).
Proof. unfold new_DateTimeImmutable. tame0. Qed.

Lemma tame_collect_attachments (atts : list value) :
  tame 0 (Note.collect_attachments E atts).
Proof.
  induction atts as [|att atts IH]; cbn [Note.collect_attachments]; [apply tame_ret|].
  apply tame_bind0; [unfold Note.attachment_of; tame0|].
  intros o. apply tame_bind0; [assumption|]. intros more. apply tame_ret.
Qed.

Lemma tame_fromArray (data : array) : tame 0 (Note.fromArray E data).
Proof.
  unfold Note.fromArray.
  apply tame_bind0; [tame0|]. intros published.
  apply tame_bind0; [apply tame_new_DateTimeImmutable|]. intros publishedAt.
  apply tame_bind0.
  { destruct (Value.get data "attachment") as [[]|];
      first [apply tame_collect_attachments | apply tame_ret]. }
  intros attachments. tame0.
Qed.

Lemma tame_extract (item : value) : tame 1 (Client.extract E item).
Proof.
  unfold Client.extract.
  repeat first
    [ apply tame_ret
    | apply (tame_try_catch 1 0)
    | apply (tame_bind 1 0); [apply tame_httpGet | intros ?]
    | match goal with
      | |- tame _ (if ?c then _ else _) => destruct c
      end ].
Qed.

Lemma tame_is_valid_note (noteObject : value) :
  tame 0 (Client.is_valid_note noteObject).
Proof. unfold Client.is_valid_note. tame0. Qed.

Lemma tame_process_loop (maxPosts : Z) (items : list value) :
  forall st, tame (length items) (Client.process_loop E items maxPosts st).
Proof.
  induction items as [|item items IH]; intros st; cbn [Client.process_loop length];
    [apply tame_ret|].
  destruct (maxPosts <=? Client.processedCount st); [apply tame_ret|].
  apply (tame_bind 1 (length items)); [apply tame_extract|].
  intros [noteObject|]; [|apply IH].
  apply tame_bind0; [apply tame_is_valid_note|]. intros [|]; [|apply IH].
  apply tame_bind0; [apply tame_as_array|]. intros data.
  apply tame_bind0; [apply tame_fromArray|]. intros note. apply IH.
Qed.

Lemma tame_safe {A} (n : nat) (m : M A) : tame n m -> safe m.
Proof. intros H w. apply H. Qed.

Lemma safe_ret {A} (a : A) : safe (ret a).
Proof. apply (tame_safe 0), tame_ret. Qed.

Lemma safe_bind {A B} (m : M A) (f : A -> M B) :
  safe m -> (forall a, safe (f a)) -> safe (bind m f).
Proof.
  intros Hm Hf w t. unfold bind. specialize (Hm w).
  destruct (m w) as [[a|t'] w1]; cbn in *; [apply Hf|].
  intros H. apply Hm. now inversion H.
Qed.

Lemma safe_processOrderedItems (items : array) (maxPosts count : Z)
  (un : list value) :
  safe (Client.processOrderedItems E items maxPosts count un).
Proof. unfold Client.processOrderedItems. eapply tame_safe, tame_process_loop. Qed.

Lemma safe_extractNotesFromOutbox (page : array) (maxPosts : Z) (un : list value) :
  safe (Client.extractNotesFromOutbox E page maxPosts un).
Proof.
  unfold Client.extractNotesFromOutbox.
  apply safe_bind; [apply (tame_safe 0); unfold Client.log_counts; tame0|]. intros _.
  destruct (Client.items_of page) as [l|].
  - apply safe_bind; [apply safe_processOrderedItems|]. intros r. apply safe_ret.
  - destruct (Value.get page "first") as [first|]; [|apply safe_ret].
    destruct (Value.truthy _); [|apply safe_ret].
    apply safe_bind; [apply (tame_safe 0), tame_as_string|]. intros u.
    apply safe_bind; [apply (tame_safe 1), tame_httpGet|]. intros firstPageJson.
    destruct (Client.items_of firstPageJson) as [l|]; [|apply safe_ret].
    apply safe_bind; [apply safe_processOrderedItems|]. intros r. apply safe_ret.
Qed.

Lemma validateActorObject_outbox_url (data : array) :
  Validator.validateActorObject E data = true ->
  exists u, Value.get data "outbox" = Some (VStr u)
            /\ Php.filter_validate_url (validate_ipv6 E) u = true.
Proof.
  unfold Validator.validateActorObject.
  destruct (negb (forallb _ _)); [discriminate|].
  destruct (negb (Value.in_array_loose _ _)); [discriminate|].
  destruct (Value.get data "outbox") as [v|]; cbn; [|discriminate].
  destruct v; cbn; try discriminate.
  destruct (Php.filter_validate_url (validate_ipv6 E) s) eqn:Hf; [|discriminate].
  intros _. now exists s.
Qed.

Lemma safe_validateUrl (url : string) (allowedDomains : list string) :
  safe (lift (Validator.validateUrl E url allowedDomains)).
Proof.
  intros w t. unfold lift, Validator.validateUrl. cbn [fst].
  repeat match goal with
    | |- context [if ?b then _ else _] => destruct b
    end; intros H; inversion H; reflexivity.
Qed.

Lemma safe_fetch (this : Client.t) (actorUrl : string) (maxPosts : Z) :
  safe (Client.fetch E this actorUrl maxPosts).
Proof.
  unfold Client.fetch.
  apply safe_bind; [apply safe_validateUrl|]. intros _.
  apply safe_bind; [apply (tame_safe 1), tame_httpGet|]. intros actorJson.
  destruct (Validator.validateActorObject E actorJson) eqn:Hvalid; cbn [negb];
    [|apply (tame_safe 0); now apply tame_throw].
  destruct (validateActorObject_outbox_url actorJson Hvalid) as (u & Hu & Hf).
  rewrite Hu. cbn [Value.coalesce]. rewrite (UrlFacts.filter_truthy _ _ Hf). cbn [negb].
  apply safe_bind; [apply (tame_safe 0), tame_as_string|]. intros outbox_arg.
  apply safe_bind; [apply (tame_safe 1), tame_httpGet|]. intros outboxCollection.
  apply safe_bind.
  { destruct (Value.get outboxCollection "first") as [[]|];
      first [apply (tame_safe 1), tame_httpGet | apply safe_ret]. }
  intros outboxPage.
  destruct (Validator.validateOutboxCollection outboxPage); cbn [negb];
    [|apply (tame_safe 0); now apply tame_throw].
  apply safe_bind; [apply safe_extractNotesFromOutbox|]. intros extractResult.
  apply safe_bind.
  { apply (tame_safe 0). unfold Client.extractActorInfo. tame0. }
  intros actorInfo.
  apply safe_bind; [apply (tame_safe 0), tame_now_local|]. intros fetched_at.
  apply safe_bind; [apply (tame_safe 0), tame_now_local|]. intros tested_at.
  apply safe_ret.
Qed.

End EffectFacts.

(** [Client::processOrderedItems] makes at most one request for each
    item of the list it is given, whether it returns or throws; the
    requests made before it are kept as they are. *)
Theorem processOrderedItems_requests_bound (E : environment) (orderedItems : array)
  (maxPosts processedCount : Z) (debug_unparsed_items : list value) (w : world) :
  exists l,
    requests (snd (Client.processOrderedItems E orderedItems maxPosts processedCount
                     debug_unparsed_items w))
    = (requests w ++ l)%list
    /\ (length l <= length orderedItems)%nat.
Proof.
  unfold Client.processOrderedItems.
  destruct (tame_process_loop E maxPosts (Value.array_values orderedItems)
              {| Client.notes := [];
                 Client.processedCount := processedCount;
                 Client.debug_unparsed_items := debug_unparsed_items |} w)
    as [(l & Hl & Hlen) _].
  exists l. split; [assumption|].
  unfold Value.array_values in Hlen. now rewrite length_map in Hlen.
Qed.

(** [Client::fetch] never fails with the codes TIMEOUT_ERROR and
    NO_OUTBOX: nothing raises the first, and an actor that passes
    [validateActorObject] has an [outbox] that is not empty. *)
Theorem fetch_never_raises_timeout_or_no_outbox (E : environment) (this : Client.t)
  (actorUrl : string) (maxPosts : Z) (w w' : world) (t : throwable) :
  Client.fetch E this actorUrl maxPosts w = (Thrown t, w') ->
  t <> FetchException TIMEOUT_ERROR /\ t <> ParseException NO_OUTBOX.
Proof.
  intros H. pose proof (safe_fetch E this actorUrl maxPosts w t) as Hs.
  rewrite H in Hs. specialize (Hs eq_refl).
  split; intros ->; discriminate Hs.
Qed.

(** An actor on a server that answers 404. *)
Lemma fetch_never_raises_witness :
  exists t w',
    Client.fetch Reference.env Reference.client "https://gone.example/users/bob" 20 world0
    = (Thrown t, w')
    /\ t <> FetchException TIMEOUT_ERROR /\ t <> ParseException NO_OUTBOX.
Proof.
  eexists. eexists. split.
  - vm_compute. reflexivity.
  - eapply (fetch_never_raises_timeout_or_no_outbox Reference.env Reference.client
              "https://gone.example/users/bob" 20 world0).
    vm_compute. reflexivity.
Defined.

(** ** Notes that are built, and notes that stop the loop *)

Section NoteFacts.

Local Open Scope list_scope.

Variable E : environment.

Lemma valid_note_type (data : array) :
  Validator.validateNoteObject data = true ->
  Value.get data "type" = Some (VStr "Note").
Proof.
  unfold Validator.validateNoteObject.
  destruct (Value.get data "type") as [ty|]; [|discriminate].
  cbn [Value.isset negb orb Value.coalesce].
  destruct ty; cbn; try discriminate.
  destruct (String.eqb_spec s "Note") as [->|]; [reflexivity | discriminate].
Qed.

Lemma get_not_empty (data : array) (k : string) (v : value) :
  Value.get data k = Some v -> Value.truthy (VArr data) = true.
Proof. destruct data; [discriminate | reflexivity]. Qed.

(** A valid note is its own note object: no branch of the loop body
    requests anything for it. *)
Lemma extract_valid_note (data : array) (w : world) :
  Validator.validateNoteObject data = true ->
  Client.extract E (VArr data) w = (Returned (Client.NoteObject (VArr data)), w)
  /\ Client.is_valid_note (VArr data) w = (Returned true, w).
Proof.
  intros Hv. pose proof (valid_note_type data Hv) as Ht. split.
  - unfold Client.extract, Client.has_type. cbn [Value.at_key]. rewrite Ht. reflexivity.
  - unfold Client.is_valid_note. rewrite (get_not_empty _ _ _ Ht).
    cbn [as_array]. unfold bind, ret. now rewrite Hv.
Qed.

Lemma tolower_idem (c : ascii) : Ctype.tolower (Ctype.tolower c) = Ctype.tolower c.
Proof. each_byte c. Qed.

Lemma strtolower_idem (s : string) : Php.strtolower (Php.strtolower s) = Php.strtolower s.
Proof.
  induction s as [|c s IH]; [reflexivity|].
  cbn [Php.strtolower]. now rewrite tolower_idem, IH.
Qed.

Lemma attachment_of_shape (att : value) (w w' : world) (a : array) :
  Note.attachment_of E att w = (Returned (Some a), w') -> Shape.attachment_shape a.
Proof.
  unfold Note.attachment_of.
  destruct (Value.at_key att "type") as [ty|]; [|intros H; inversion H].
  destruct (Value.at_key att "url") as [u|]; [|intros H; inversion H].
  intros H. apply bind_inv in H. destruct H as (ty_s & w1 & _ & H).
  apply ret_inv in H. destruct H as [H _]. inversion H; subst a; clear H.
  exists (Php.strtolower ty_s).
  destruct (String.eqb (Php.strtolower ty_s) "image");
    (split; [reflexivity | split; [apply strtolower_idem | reflexivity]]).
Qed.

Lemma collect_attachments_shape (atts : list value) :
  forall w w' l,
    Note.collect_attachments E atts w = (Returned l, w') ->
    Forall Shape.attachment_shape l /\ (length l <= length atts)%nat.
Proof.
  induction atts as [|att atts IH]; intros w w' l H; cbn [Note.collect_attachments] in H.
  - apply ret_inv in H. destruct H as [<- _]. split; [constructor | reflexivity].
  - apply bind_inv in H. destruct H as (o & w1 & Ho & H).
    apply bind_inv in H. destruct H as (more & w2 & Hmore & H).
    apply ret_inv in H. destruct H as [<- _].
    destruct (IH _ _ _ Hmore) as [Hf Hlen]. cbn [length].
    destruct o as [a|]; [|split; [assumption | lia]].
    split; [|cbn [length]; lia].
    constructor; [|assumption]. eapply attachment_of_shape, Ho.
Qed.

Lemma grows_now_local : grows (now_local E).
Proof.
  unfold now_local. apply grows_bind; [apply grows_time|]. intros t. apply grows_ret.
Qed.

Lemma grows_extractNotesFromOutbox (page : array) (maxPosts : Z) (un : list value) :
  grows (Client.extractNotesFromOutbox E page maxPosts un).
Proof.
  pose proof (fun l => grows_process_loop E maxPosts (Value.array_values l)) as Hloop.
  unfold Client.extractNotesFromOutbox, Client.log_counts, Client.processOrderedItems.
  repeat first
    [ apply grows_ret | apply grows_throw | apply grows_httpGet | apply grows_as_string
    | apply Hloop
    | apply grows_bind; [|intros ?]
    | match goal with
      | |- grows (count ?v) => destruct v
      | |- grows (if ?c then _ else _) => destruct c
      | |- grows (match ?x with _ => _ end) => destruct x
      end ].
Qed.

Lemma process_loop_without_quota (items : list value) (maxPosts : Z)
  (st : Client.progress) :
  maxPosts <= Client.processedCount st ->
  Client.process_loop E items maxPosts st = ret st.
Proof.
  intros H. destruct items as [|item items]; [reflexivity|].
  cbn [Client.process_loop].
  now replace (maxPosts <=? Client.processedCount st) with true
    by (symmetry; apply Z.leb_le; lia).
Qed.

End NoteFacts.

(** A note without [content], such as one that [validateNoteObject]
    accepts for its [summary], is built with empty content: the summary
    is not read, and the [content] that [toArray] gives is the empty
    string. *)
Theorem note_without_content_is_built_empty (E : environment) (data : array)
  (w w' : world) (n : Note.t) :
  Value.get data "content" = None ->
  Note.fromArray E data w = (Returned n, w') ->
  Note.content n = ""
  /\ Note.sanitizedContent n = ""
  /\ Value.lookup (Note.toArray n) "content" = Some (VStr "").
Proof.
  intros Hc H. unfold Note.fromArray in H. rewrite Hc in H.
  apply bind_inv in H. destruct H as (published & w0 & _ & H).
  apply bind_inv in H. destruct H as (d & w1 & _ & H).
  apply bind_inv in H. destruct H as (atts & w2 & _ & H).
  apply bind_inv in H. destruct H as (text & w3 & Htext & H).
  apply as_string_inv in Htext. destruct Htext as [Htext _].
  cbn in Htext. inversion Htext; subst text; clear Htext.
  apply bind_inv in H. destruct H as (id & w4 & _ & H).
  apply bind_inv in H. destruct H as (url & w5 & _ & H).
  apply ret_inv in H. destruct H as [<- _].
  repeat split.
Qed.

(** The note with a summary only passes the validation and is built
    with empty content. *)
Lemma note_without_content_witness :
  Validator.validateNoteObject Scenario.summary_only = true
  /\ exists n w',
       Note.fromArray Reference.env Scenario.summary_only world0 = (Returned n, w')
       /\ Note.content n = ""
       /\ Note.sanitizedContent n = ""
       /\ Value.lookup (Note.toArray n) "content" = Some (VStr "").
Proof.
  split; [reflexivity|]. eexists. eexists. split.
  - vm_compute. reflexivity.
  - eapply (note_without_content_is_built_empty Reference.env Scenario.summary_only
              world0).
    + reflexivity.
    + vm_compute. reflexivity.
Defined.

(** One valid note whose date the runtime cannot read ends
    [Client::processOrderedItems] with the exception of
    [DateTimeImmutable]: when the note comes first and the count is below
    [maxPosts], the call throws after one reading of the clock and no
    request, and nothing is returned for the items that follow. *)
Theorem malformed_date_aborts_processing (E : environment) (orderedItems data : array)
  (rest : list value) (maxPosts processedCount : Z)
  (debug_unparsed_items : list value) (w : world) (published : string) :
  Value.array_values orderedItems = VArr data :: rest ->
  processedCount < maxPosts ->
  Validator.validateNoteObject data = true ->
  Value.string_param (float_text E)
    (Value.coalesce (Value.get data "published") (VStr "now")) = Some published ->
  timelib E (clock E (clock_reads w)) published = None ->
  Client.processOrderedItems E orderedItems maxPosts processedCount
    debug_unparsed_items w
  = (Thrown DateException,
     {| requests := requests w; clock_reads := S (clock_reads w) |}).
Proof.
  intros Hitems Hcount Hvalid Hpub Hdate.
  unfold Client.processOrderedItems. rewrite Hitems. cbn [Client.process_loop].
  cbn [Client.processedCount].
  replace (maxPosts <=? processedCount) with false by (symmetry; apply Z.leb_gt; lia).
  destruct (extract_valid_note E data w Hvalid) as [Hx Hn].
  rewrite (bind_returned _ _ _ _ _ Hx).
  rewrite (bind_returned _ _ _ _ _ Hn).
  cbn [as_array]. rewrite (bind_returned (ret data) _ w w data) by reflexivity.
  apply bind_thrown. unfold Note.fromArray.
  rewrite (bind_returned (as_string E _) _ w w published)
    by (rewrite as_string_run; now rewrite Hpub).
  apply bind_thrown. unfold new_DateTimeImmutable, time, bind. now rewrite Hdate.
Qed.

(** A page of the reference federation that starts with a note dated
    in words. *)
Lemma malformed_date_witness :
  Client.processOrderedItems Reference.env
    (Value.list_array [VArr Scenario.misdated; VArr Reference.n1]) 20 0 [] world0
  = (Thrown DateException, {| requests := []; clock_reads := 1 |}).
Proof.
  apply (malformed_date_aborts_processing Reference.env
           (Value.list_array [VArr Scenario.misdated; VArr Reference.n1])
           Scenario.misdated [VArr Reference.n1] 20 0 [] world0
           "the day before yesterday");
    first [reflexivity | lia].
Defined.

(** Every attachment of a note that [Note::fromArray] returns has a
    type in lower case and the keys [type], [url], [alt_text], followed
    by [width] and [height] exactly when the type is [image]; there are
    no more attachments than entries in the [attachment] of the
    document. *)
Theorem attachments_have_a_fixed_shape (E : environment) (data : array)
  (w w' : world) (n : Note.t) :
  Note.fromArray E data w = (Returned n, w') ->
  Forall Shape.attachment_shape (Note.attachments n)
  /\ (length (Note.attachments n)
      <= match Value.get data "attachment" with
         | Some (VArr atts) => length atts
         | _ => 0
         end)%nat.
Proof.
  intros H.
  destruct (fromArray_returned E data w w' n H)
    as (published & w0 & w1 & _ & _ & _ & Hatts & _).
  destruct (Value.get data "attachment") as [[]|];
    try (apply ret_inv in Hatts; destruct Hatts as [<- _];
         split; [constructor | reflexivity]).
  destruct (collect_attachments_shape E _ _ _ _ Hatts) as [Hf Hlen].
  split; [assumption|]. unfold Value.array_values in Hlen.
  now rewrite length_map in Hlen.
Qed.

(** The note with a picture, a stray string and a video: two
    attachments come out of the three entries. *)
Lemma attachments_shape_witness :
  exists n w',
    Note.fromArray Reference.env Scenario.illustrated world0 = (Returned n, w')
    /\ length (Note.attachments n) = 2%nat
    /\ Forall Shape.attachment_shape (Note.attachments n)
    /\ (length (Note.attachments n)
        <= match Value.get Scenario.illustrated "attachment" with
           | Some (VArr atts) => length atts
           | _ => 0
           end)%nat.
Proof.
  eexists. eexists. split; [vm_compute; reflexivity|]. split; [reflexivity|].
  eapply (attachments_have_a_fixed_shape Reference.env Scenario.illustrated world0).
  vm_compute. reflexivity.
Defined.

(** ** The rules of [validateUrl] when every domain is allowed *)

(** With an empty list of allowed domains, or one that holds the
    wildcard, [Validator::validateUrl] accepts exactly the strings that
    pass the URL filter and begin with [https://]; every other string is
    refused as INVALID_URL.  The rule on dangerous schemes refuses
    nothing that the first two rules let through. *)
Theorem validateUrl_without_domain_list (E : environment) (url : string)
  (allowedDomains : list string) :
  allowedDomains = [] \/ In "*" allowedDomains ->
  Validator.validateUrl E url allowedDomains
  = if Php.filter_validate_url (validate_ipv6 E) url
       && Php.str_starts_with url "https://"
    then Returned tt
    else Thrown (FetchException INVALID_URL).
Proof.
  intros Hopen. unfold Validator.validateUrl.
  destruct (Php.filter_validate_url (validate_ipv6 E) url); [|reflexivity].
  destruct (Php.str_starts_with url "https://") eqn:Hp; [|reflexivity].
  cbn [negb andb]. rewrite (UrlFacts.not_dangerous _ url Hp).
  destruct Hopen as [-> | Hstar]; [reflexivity|].
  rewrite (UrlFacts.in_array_not_numeric _ "*") by reflexivity.
  apply StripFacts.member_In in Hstar. rewrite Hstar.
  cbn [negb andb]. now rewrite andb_false_r.
Qed.

(** The wildcard beside another domain lets the reference actor in,
    and a URL with the scheme http stays out. *)
Lemma validateUrl_without_domain_list_witness :
  Validator.validateUrl Reference.env Reference.actorUrl ["good.example"; "*"]
  = Returned tt
  /\ Validator.validateUrl Reference.env "http://social.example/users/alice"
       ["good.example"; "*"]
     = Thrown (FetchException INVALID_URL).
Proof.
  split.
  - apply (validateUrl_without_domain_list Reference.env Reference.actorUrl
             ["good.example"; "*"]).
    right. right. now left.
  - apply (validateUrl_without_domain_list Reference.env
             "http://social.example/users/alice" ["good.example"; "*"]).
    right. right. now left.
Defined.

(** ** The requests of a fetch *)

Section FetchLogFacts.

Local Open Scope list_scope.

Variable E : environment.

(** What the note list of a returned fetch comes from. *)
Lemma fetch_posts_of_loop (this : Client.t) (actorUrl : string) (maxPosts : Z)
  (w w' : world) (res : Client.result) :
  Client.fetch E this actorUrl maxPosts w = (Returned res, w') ->
  Client.posts res = []
  \/ exists items w0 r w1,
       Client.processOrderedItems E items maxPosts 0 [] w0 = (Returned r, w1)
       /\ Client.posts res = Client.notes r.
Proof.
  intros H. destruct (fetch_returned E _ _ _ _ _ _ H).
  destruct (extractNotes_inv E _ _ _ _ _ _ _ ft_items)
    as [Hnil | (items & w0 & r & Hr & Hn)]; [now left|].
  right. now exists items, w0, r, w_items.
Qed.

End FetchLogFacts.

(** A fetch that returns has made its first request to the actor URL
    and its second to the [outbox] of the actor document, whatever the
    scheme and the host of that URL are; the requests made before the
    call are kept. *)
Theorem fetch_requests_actor_then_outbox (E : environment) (this : Client.t)
  (actorUrl : string) (maxPosts : Z) (w w' : world) (res : Client.result) :
  Client.fetch E this actorUrl maxPosts w = (Returned res, w') ->
  exists outboxUrl more,
    Value.lookup (Client.meta res) "outbox_url" = Some (VStr outboxUrl)
    /\ requests w' = (requests w ++ actorUrl :: outboxUrl :: more)%list.
Proof.
  intros H. destruct (fetch_returned E _ _ _ _ _ _ H).
  exists outboxUrl.
  assert (exists l1, requests w_page
                     = (requests (logged (logged w actorUrl) outboxUrl) ++ l1)%list)
    as [l1 Hl1].
  { destruct (Value.get outboxCollection "first") as [[]|];
      try (apply ret_inv in ft_page; destruct ft_page as [_ <-];
           exists []; now rewrite app_nil_r).
    destruct (httpGet_inv E _ _ _ _ ft_page) as [-> _]. now exists [s]. }
  destruct (grows_extractNotesFromOutbox E (Client.debug_outbox_page res) maxPosts []
              w_page) as [l2 Hl2].
  rewrite ft_items in Hl2. cbn [snd] in Hl2.
  exists (l1 ++ l2)%list. split; [assumption|].
  rewrite ft_requests, Hl2, Hl1. cbn [logged requests].
  rewrite <- !app_assoc. reflexivity.
Qed.

(** The reference federation: actor, outbox, then the first page and
    what the items ask for. *)
Lemma fetch_requests_witness :
  exists res w' outboxUrl more,
    Client.fetch Reference.env Reference.client Reference.actorUrl 20 world0
    = (Returned res, w')
    /\ Value.lookup (Client.meta res) "outbox_url" = Some (VStr outboxUrl)
    /\ requests w' = (requests world0 ++ Reference.actorUrl :: outboxUrl :: more)%list.
Proof.
  destruct (Client.fetch Reference.env Reference.client Reference.actorUrl 20 world0)
    as [[res|t] w'] eqn:H; [|vm_compute in H; discriminate H].
  destruct (fetch_requests_actor_then_outbox Reference.env Reference.client
              Reference.actorUrl 20 world0 w' res H) as (outboxUrl & more & Hm & Hr).
  now exists res, w', outboxUrl, more.
Defined.

(** With a [maxPosts] of zero or less, [Client::fetch] still fetches
    the actor and the outbox, and what it returns holds no post and the
    count zero. *)
Theorem fetch_without_quota_returns_no_post (E : environment) (this : Client.t)
  (actorUrl : string) (maxPosts : Z) (w w' : world) (res : Client.result) :
  maxPosts <= 0 ->
  Client.fetch E this actorUrl maxPosts w = (Returned res, w') ->
  Client.posts res = []
  /\ Value.lookup (Client.meta res) "count" = Some (VInt 0).
Proof.
  intros Hmax H.
  assert (Client.posts res = []) as Hnil.
  { destruct (fetch_posts_of_loop E _ _ _ _ _ _ H)
      as [Hnil | (items & w0 & r & w1 & Hr & Hn)]; [assumption|].
    unfold Client.processOrderedItems in Hr.
    rewrite process_loop_without_quota in Hr by (cbn; lia).
    apply ret_inv in Hr. destruct Hr as [<- _]. assumption. }
  split; [assumption|].
  destruct (fetch_returned E _ _ _ _ _ _ H). now rewrite ft_meta_count, Hnil.
Qed.

Lemma fetch_without_quota_witness :
  exists res w',
    Client.fetch Reference.env Reference.client Reference.actorUrl 0 world0
    = (Returned res, w')
    /\ Client.posts res = []
    /\ Value.lookup (Client.meta res) "count" = Some (VInt 0).
Proof.
  eexists. eexists. split.
  - vm_compute. reflexivity.
  - eapply (fetch_without_quota_returns_no_post Reference.env Reference.client
              Reference.actorUrl 0 world0); [lia|].
    vm_compute. reflexivity.
Defined.

(** ** The request body: [SecurityHandler::validateJsonInput] *)

Section RequestFacts.

Local Open Scope list_scope.

Variable json_decode : string -> option value.

Lemma validateJsonInput_returned (jsonInput : string) (data : array) :
  SecurityHandler.validateJsonInput json_decode jsonInput = Returned data ->
  json_decode jsonInput = Some (VArr data)
  /\ Value.get data "action" = Some (VStr "fetch_posts")
  /\ exists u, Value.get data "actor_url" = Some (VStr u)
               /\ Builtin.empty (Api.trim u) = false.
Proof.
  unfold SecurityHandler.validateJsonInput.
  destruct (json_decode jsonInput) as [v|]; [|discriminate].
  destruct v as [| | | | |a]; try discriminate. cbn [Value.at_key].
  destruct (Value.get a "action") as [action|] eqn:Ha; [|discriminate].
  destruct (Value.get a "actor_url") as [actor_url|] eqn:Hu; [|discriminate].
  cbn [Value.isset negb orb Value.coalesce].
  destruct action; cbn [Value.identical_str negb]; try discriminate.
  destruct (String.eqb_spec s "fetch_posts") as [->|]; [|discriminate].
  cbn [negb].
  destruct actor_url as [| | | |u|];
    cbn [Value.is_string negb orb Client.url_of]; try discriminate.
  destruct (Builtin.empty (Api.trim u)) eqn:He; [discriminate|].
  intros H. inversion H; subst. split; [reflexivity|]. split; [assumption|].
  exists u. now split.
Qed.

Lemma validateJsonInput_thrown (jsonInput : string) (t : throwable) :
  SecurityHandler.validateJsonInput json_decode jsonInput = Thrown t ->
  t = ParseException JSON_ERROR.
Proof.
  unfold SecurityHandler.validateJsonInput.
  destruct (json_decode jsonInput) as [v|]; [|intros H; now inversion H].
  destruct v as [| | | | |a];
    try (cbn; intros H; now inversion H).
  repeat match goal with
    | |- context [if ?b then _ else _] => destruct b
    end; intros H; now inversion H.
Qed.

End RequestFacts.

(** [SecurityHandler::validateJsonInput] returns the decoded body only
    when it is an object whose [action] is the string [fetch_posts] and
    whose [actor_url] is a string that [trim] leaves neither empty nor
    equal to 0; every body it refuses is refused with the code
    JSON_ERROR. *)
Theorem validateJsonInput_accepts_only_fetch_posts
  (json_decode : string -> option value) (jsonInput : string) :
  (forall data,
     SecurityHandler.validateJsonInput json_decode jsonInput = Returned data ->
     json_decode jsonInput = Some (VArr data)
     /\ Value.get data "action" = Some (VStr "fetch_posts")
     /\ exists u, Value.get data "actor_url" = Some (VStr u)
                  /\ Api.trim u <> "" /\ Api.trim u <> "0")
  /\ (forall t,
        SecurityHandler.validateJsonInput json_decode jsonInput = Thrown t ->
        t = ParseException JSON_ERROR).
Proof.
  split; [|apply validateJsonInput_thrown].
  intros data H.
  destruct (validateJsonInput_returned json_decode jsonInput data H)
    as (Hd & Ha & u & Hu & He).
  split; [assumption|]. split; [assumption|]. exists u. split; [assumption|].
  unfold Builtin.empty in He. cbn [Value.truthy] in He.
  apply negb_false_iff, negb_true_iff, orb_false_elim in He. destruct He as [He1 He2].
  apply String.eqb_neq in He1, He2. now split.
Qed.

(** ** The script [api.php] *)

Section EndpointFacts.

Import Runs.

Local Open Scope list_scope.

Variable E : environment.
Variable R : Endpoint.runtime.

Lemma handle_keeps_world (t : throwable) (w : world) :
  snd (Endpoint.handle t w) = w.
Proof. destruct t; reflexivity. Qed.

(** The run of the action on a request that passed the validation. *)
Lemma dispatch_valid (requestData : array) (u : string) (w : world) :
  Value.get requestData "action" = Some (VStr "fetch_posts") ->
  Value.get requestData "actor_url" = Some (VStr u) ->
  Endpoint.dispatch E R requestData w
  = (responseData <-
       Api.fetch_posts E u
         (option_map (Builtin.intval (Endpoint.string_to_int R) (Endpoint.float_to_int R))
                     (Value.get requestData "max_posts")) ;;
     ret (Endpoint.Success responseData)) w.
Proof. intros Ha Hu. unfold Endpoint.dispatch. now rewrite Ha, Hu. Qed.

Lemma attempt_cases (req : Endpoint.request) (w : world) :
  attempted E R req w (Endpoint.attempt E R req w).
Proof.
  unfold Endpoint.attempt.
  destruct (String.eqb_spec (Endpoint.REQUEST_METHOD req) "POST") as [Hm|Hm];
    cbn [negb]; [|now constructor].
  destruct (Builtin.empty (Endpoint.input req)); [now constructor|].
  unfold bind, lift.
  destruct (SecurityHandler.validateJsonInput _ _) as [requestData|t] eqn:Hv.
  - destruct (validateJsonInput_returned _ _ _ Hv) as (_ & Ha & u & Hu & _).
    rewrite (dispatch_valid requestData u w Ha Hu). now apply (Action E R req w requestData u).
  - rewrite (validateJsonInput_thrown _ _ _ Hv). now constructor.
Qed.

Lemma main_run (req : Endpoint.request) (w : world) :
  Endpoint.main E R req w
  = if String.eqb (Endpoint.REQUEST_METHOD req) "OPTIONS"
    then (Returned Endpoint.Preflight, w)
    else match Endpoint.attempt E R req w with
         | (Thrown t, w') => Endpoint.handle t w'
         | done => done
         end.
Proof.
  unfold Endpoint.main, SecurityHandler.setCorsHeaders. cbn [snd].
  now destruct (String.eqb (Endpoint.REQUEST_METHOD req) "OPTIONS").
Qed.

Lemma main_success (req : Endpoint.request) (w w' : world) (data : array) :
  Endpoint.main E R req w = (Returned (Endpoint.Success data), w') ->
  Endpoint.attempt E R req w = (Returned (Endpoint.Success data), w').
Proof.
  rewrite main_run.
  destruct (String.eqb (Endpoint.REQUEST_METHOD req) "OPTIONS"); [discriminate|].
  destruct (Endpoint.attempt E R req w) as [[e|t] w1]; [trivial|].
  destruct t as [c|c| | |]; cbn; discriminate.
Qed.

End EndpointFacts.

Section EndpointLog.

Local Open Scope list_scope.

Variable E : environment.
Variable R : Endpoint.runtime.

Lemma grows_extractActorInfo (actor : array) : grows (Client.extractActorInfo E actor).
Proof.
  unfold Client.extractActorInfo.
  apply grows_bind; [apply grows_as_string|]. intros summary. apply grows_ret.
Qed.

Lemma bind_logged {A B} (m : M A) (f : A -> M B) (w w1 : world) :
  snd (m w) = w1 -> (forall a, grows (f a)) ->
  exists more, requests (snd (bind m f w)) = requests w1 ++ more.
Proof.
  unfold bind. intros Hm Hf. destruct (m w) as [[a|t] w2]; cbn in Hm; subst w2.
  - apply Hf.
  - exists []. cbn. now rewrite app_nil_r.
Qed.

Lemma snd_bind_ret {A B} (m : M A) (g : A -> B) (w : world) :
  snd (bind m (fun a => ret (g a)) w) = snd (m w).
Proof. unfold bind. now destruct (m w) as [[a|t] w1]. Qed.

(** A fetch is refused before any request, or requests the actor URL
    first. *)
Lemma fetch_first_request (this : Client.t) (url : string) (maxPosts : Z) (w : world) :
  (exists t, Validator.validateUrl E url (Client.allowedDomains this) = Thrown t
             /\ Client.fetch E this url maxPosts w = (Thrown t, w))
  \/ (Validator.validateUrl E url (Client.allowedDomains this) = Returned tt
      /\ exists more,
           requests (snd (Client.fetch E this url maxPosts w))
           = requests w ++ url :: more).
Proof.
  unfold Client.fetch.
  destruct (Validator.validateUrl E url (Client.allowedDomains this)) as [[]|t] eqn:Hv.
  - right. split; [reflexivity|].
    unfold bind at 1, lift.
    match goal with
    | |- exists more, requests (snd (bind ?m ?k w)) = _ =>
        destruct (bind_logged m k w (logged w url) (httpGet_logs E url w (validateUrl_no_nul E _ _ Hv)))
          as [more Hmore]
    end.
    + intros actorJson. cbv zeta.
      repeat first
        [ apply grows_ret | apply grows_throw | apply grows_httpGet
        | apply grows_as_string | apply grows_extractNotesFromOutbox
        | apply grows_extractActorInfo | apply grows_now_local
        | apply grows_bind; [|intros ?]
        | match goal with
          | |- grows (if ?c then _ else _) => destruct c
          | |- grows (match ?x with _ => _ end) => destruct x
          end ].
    + exists more. rewrite Hmore. cbn [logged requests].
      now rewrite <- app_assoc.
  - left. exists t. split; [reflexivity|]. reflexivity.
Qed.

Lemma length_list_from (i : Z) (l : list value) :
  length (Value.list_from i l) = length l.
Proof.
  revert i. induction l as [|v l IH]; intros i; [reflexivity|].
  cbn [Value.list_from length]. now rewrite IH.
Qed.

Lemma main_world (req : Endpoint.request) (w w' : world) (o : outcome Endpoint.ending) :
  Endpoint.main E R req w = (o, w') ->
  w' = w \/ w' = snd (Endpoint.attempt E R req w).
Proof.
  rewrite main_run.
  destruct (String.eqb (Endpoint.REQUEST_METHOD req) "OPTIONS").
  - intros H. inversion H. now left.
  - destruct (Endpoint.attempt E R req w) as [[e|t] w1]; intros H; right.
    + now inversion H.
    + pose proof (handle_keeps_world t w1) as Hk. rewrite H in Hk. exact Hk.
Qed.

End EndpointLog.

(** However [api.php] ends, it has made no request at all, or the
    request was a POST whose body passed
    [SecurityHandler::validateJsonInput], its trimmed [actor_url] passed
    [Validator::validateUrl], and the first request went to that URL. *)
Theorem endpoint_requests_only_for_valid_input (E : environment)
  (R : Endpoint.runtime) (req : Endpoint.request) (w w' : world)
  (o : outcome Endpoint.ending) :
  Endpoint.main E R req w = (o, w') ->
  requests w' = requests w
  \/ (Endpoint.REQUEST_METHOD req = "POST"
      /\ exists requestData u more,
           SecurityHandler.validateJsonInput (Endpoint.json_decode R) (Endpoint.input req)
           = Returned requestData
           /\ Value.get requestData "actor_url" = Some (VStr u)
           /\ Validator.validateUrl E (Api.trim u) [] = Returned tt
           /\ requests w' = (requests w ++ Api.trim u :: more)%list).
Proof.
  intros H. destruct (main_world E R req w w' o H) as [-> | ->]; [now left|].
  pose proof (attempt_cases E R req w) as Hc.
  inversion Hc as [Hm Heq | Hm Heq | Hm Heq | requestData u Hm Hv Hu Heq];
    try (now left).
  rewrite snd_bind_ret. unfold Api.fetch_posts. rewrite snd_bind_ret.
  match goal with
  | |- context [Client.fetch E ?c ?url ?n w] =>
      destruct (fetch_first_request E c url n w)
        as [(t & Ht & Hf) | (Hok & more & Hmore)]
  end.
  - left. now rewrite Hf.
  - right. split; [assumption|]. now exists requestData, u, more.
Qed.

(** A request for the posts of the reference actor. *)
Lemma endpoint_requests_witness :
  exists o w',
    Endpoint.main Reference.env Scenario.runtime Scenario.post world0 = (o, w')
    /\ (requests w' = requests world0
        \/ (Endpoint.REQUEST_METHOD Scenario.post = "POST"
            /\ exists requestData u more,
                 SecurityHandler.validateJsonInput
                   (Endpoint.json_decode Scenario.runtime) (Endpoint.input Scenario.post)
                 = Returned requestData
                 /\ Value.get requestData "actor_url" = Some (VStr u)
                 /\ Validator.validateUrl Reference.env (Api.trim u) [] = Returned tt
                 /\ requests w'
                    = (requests world0 ++ Api.trim u :: more)%list)).
Proof.
  eexists. eexists. split.
  - vm_compute. reflexivity.
  - eapply (endpoint_requests_only_for_valid_input Reference.env Scenario.runtime
              Scenario.post world0).
    vm_compute. reflexivity.
Defined.

(** [api.php] ends in one of these ways only: the exit of a preflight
    request; an error answer written by the script itself, which is
    INVALID_REQUEST with status 405, JSON_ERROR with 400 or
    UNKNOWN_ERROR with 500, and never INVALID_ACTION; the answer to a
    [FetchException] or a [ParseException]; the success answer; or an
    error that no [catch] clause takes, which is a [TypeError] or the
    [ValueError] of [curl_setopt] for a URL with a NUL byte. *)
Theorem endpoint_endings (E : environment) (R : Endpoint.runtime)
  (req : Endpoint.request) (w w' : world) (o : outcome Endpoint.ending) :
  Endpoint.main E R req w = (o, w') ->
  match o with
  | Thrown t => t = TypeError \/ t = ValueError
  | Returned (Endpoint.Output errorCode _ httpCode) =>
      In (errorCode, httpCode)
         [("INVALID_REQUEST", 405); ("JSON_ERROR", 400); ("UNKNOWN_ERROR", 500)]
  | Returned (Endpoint.FromException t) =>
      exists code, Exceptions.getErrorCode t = Some code
  | Returned _ => True
  end.
Proof.
  rewrite main_run.
  destruct (String.eqb (Endpoint.REQUEST_METHOD req) "OPTIONS");
    [intros H; now inversion H|].
  pose proof (attempt_cases E R req w) as Hc.
  inversion Hc as [Hm Heq | Hm Heq | Hm Heq | requestData u Hm Hv Hu Heq].
  - intros H. inversion H. now left.
  - intros H. inversion H. right. now left.
  - cbn. intros H. inversion H. now eexists.
  - unfold bind at 1.
    destruct (Api.fetch_posts E u _ w) as [[data|t] w1].
    + intros H. now inversion H.
    + destruct t as [c|c| | |]; cbn; intros H; inversion H;
        first [now eexists | now left | now right | right; right; now left].
Qed.

Lemma endpoint_endings_witness :
  exists o w',
    Endpoint.main Reference.env Scenario.runtime
      {| Endpoint.REQUEST_METHOD := "POST"; Endpoint.HTTPS := None;
         Endpoint.input := "{}" |} world0 = (o, w')
    /\ match o with
       | Thrown t => t = TypeError \/ t = ValueError
       | Returned (Endpoint.Output errorCode _ httpCode) =>
           In (errorCode, httpCode)
              [("INVALID_REQUEST", 405); ("JSON_ERROR", 400); ("UNKNOWN_ERROR", 500)]
       | Returned (Endpoint.FromException t) =>
           exists code, Exceptions.getErrorCode t = Some code
       | Returned _ => True
       end.
Proof.
  eexists. eexists. split.
  - vm_compute. reflexivity.
  - eapply (endpoint_endings Reference.env Scenario.runtime
              {| Endpoint.REQUEST_METHOD := "POST"; Endpoint.HTTPS := None;
                 Endpoint.input := "{}" |} world0).
    vm_compute. reflexivity.
Defined.

(** A success answer of [api.php] holds at most 50 posts: at most 20
    when the request names no [max_posts], and at most [n] when it names
    an integer [n] of at least 1. *)
Theorem endpoint_posts_bound (E : environment) (R : Endpoint.runtime)
  (req : Endpoint.request) (w w' : world) (data : array) :
  Endpoint.main E R req w = (Returned (Endpoint.Success data), w') ->
  exists requestData posts,
    SecurityHandler.validateJsonInput (Endpoint.json_decode R) (Endpoint.input req)
    = Returned requestData
    /\ Value.lookup data "posts" = Some (VArr posts)
    /\ Z.of_nat (length posts) <= 50
    /\ (Value.get requestData "max_posts" = None -> Z.of_nat (length posts) <= 20)
    /\ (forall n, Value.get requestData "max_posts" = Some (VInt n) -> 1 <= n ->
                  Z.of_nat (length posts) <= n).
Proof.
  intros H. apply main_success in H.
  pose proof (attempt_cases E R req w) as Hc. rewrite H in Hc.
  inversion Hc as [| | | requestData u Hm Hv Hu Heq].
  apply bind_inv in Heq. destruct Heq as (responseData & w1 & Hrun & Hret).
  apply ret_inv in Hret. destruct Hret as [Hd _]. inversion Hd; subst responseData.
  unfold Api.fetch_posts in Hrun.
  apply bind_inv in Hrun. destruct Hrun as (res & w2 & Hfetch & Hret).
  apply ret_inv in Hret. destruct Hret as [<- _].
  exists requestData. eexists. split; [assumption|]. split; [reflexivity|].
  unfold Value.list_array. rewrite length_list_from, length_map.
  assert (forall m,
            Client.fetch E (Client.construct 10 []) (Api.trim u) m w = (Returned res, w2) ->
            0 <= m -> Z.of_nat (length (Client.posts res)) <= m) as Hbound.
  { intros m Hf Hm0.
    destruct (fetch_posts_of_loop E _ _ _ _ _ _ Hf)
      as [-> | (items & w0 & r & w3 & Hr & ->)]; [cbn; lia|].
    now apply (processOrderedItems_bound E items m [] w0 w3 r). }
  pose proof (Hbound _ Hfetch) as Hb. unfold Api.clamp in Hb.
  split; [|split].
  - lia.
  - intros Hnone. rewrite Hnone in Hb. cbn [option_map] in Hb. lia.
  - intros n Hn Hn1. rewrite Hn in Hb. cbn [option_map Builtin.intval] in Hb. lia.
Qed.

(** The reference actor asked for one post. *)
Lemma endpoint_posts_bound_witness :
  exists data w' requestData posts,
    Endpoint.main Reference.env Scenario.runtime Scenario.post world0
    = (Returned (Endpoint.Success data), w')
    /\ SecurityHandler.validateJsonInput
         (Endpoint.json_decode Scenario.runtime) (Endpoint.input Scenario.post)
       = Returned requestData
    /\ Value.lookup data "posts" = Some (VArr posts)
    /\ length posts = 1%nat
    /\ Z.of_nat (length posts) <= 50.
Proof.
  destruct (Endpoint.main Reference.env Scenario.runtime Scenario.post world0)
    as [o w'] eqn:H.
  vm_compute in H. inversion H; subst o w'; clear H.
  match goal with
  | |- exists data w' _ _, (Returned (Endpoint.Success ?d), ?w1) = _ /\ _ =>
      assert (Endpoint.main Reference.env Scenario.runtime Scenario.post world0
              = (Returned (Endpoint.Success d), w1)) as Hrun
        by (vm_compute; reflexivity);
      destruct (endpoint_posts_bound Reference.env Scenario.runtime Scenario.post
                  world0 w1 d Hrun) as (requestData & posts & Hv & Hp & H50 & _ & _)
  end.
  do 4 eexists. split; [reflexivity|]. split; [exact Hv|].
  split; [exact Hp|]. split; [|exact H50].
  vm_compute in Hp. inversion Hp. reflexivity.
Defined.

(** ** Error answers: [ErrorResponse] *)

(** [ErrorResponse::fromException] answers a [FetchException] or a
    [ParseException] with status 400 and the code of the exception, and
    any other exception with status 500 and UNKNOWN_ERROR.  The message
    of the answer is the message of the exception; the user message is
    the one the table holds for the code, and every code of the two
    classes has an entry of its own there.  The clock is read once and
    nothing is requested. *)
Theorem fromException_answer (E : environment) (t : throwable) (getMessage : string)
  (w : world) :
  instanceof_Exception t = true ->
  exists a error code info,
    ErrorResponse.fromException E t getMessage w
    = (Returned a, {| requests := requests w; clock_reads := S (clock_reads w) |})
    /\ code = match Exceptions.getErrorCode t with
              | Some c => c
              | None => "UNKNOWN_ERROR"
              end
    /\ ErrorResponse.http_response_code a
       = match Exceptions.getErrorCode t with
         | Some _ => 400
         | None => 500
         end
    /\ Value.lookup (ErrorResponse.response a) "success" = Some (VBool false)
    /\ Value.lookup (ErrorResponse.response a) "error" = Some (VArr error)
    /\ Value.lookup error "code" = Some (VStr code)
    /\ Value.lookup error "message" = Some (VStr getMessage)
    /\ ErrorResponse.entry ErrorResponse.errorMessages code = Some info
    /\ Value.lookup error "user_message" = Some (VStr (ErrorResponse.user_message info)).
Proof.
  intros Hexc.
  destruct t as [c|c| | |]; [destruct c | destruct c | | discriminate Hexc | discriminate Hexc];
    do 4 eexists;
    (split; [reflexivity|]); (split; [reflexivity|]); (split; [reflexivity|]);
    (split; [reflexivity|]); (split; [reflexivity|]); (split; [reflexivity|]);
    (split; [reflexivity|]); split; reflexivity.
Qed.

(** The answer to a refused URL. *)
Lemma fromException_answer_witness :
  exists a error,
    ErrorResponse.fromException Reference.env (FetchException INVALID_URL)
      "HTTPSのURLのみ対応しています。" world0
    = (Returned a, {| requests := []; clock_reads := 1 |})
    /\ ErrorResponse.http_response_code a = 400
    /\ Value.lookup (ErrorResponse.response a) "error" = Some (VArr error)
    /\ Value.lookup error "code" = Some (VStr "INVALID_URL")
    /\ Value.lookup error "message" = Some (VStr "HTTPSのURLのみ対応しています。").
Proof.
  destruct (fromException_answer Reference.env (FetchException INVALID_URL)
              "HTTPSのURLのみ対応しています。" world0 eq_refl)
    as (a & error & code & info & Hrun & Hcode & Hstatus & _ & Herror & Hc & Hm & _).
  subst code. exists a, error. repeat split; assumption.
Defined.

(** For an error code that the table does not hold, such as the
    INVALID_REQUEST and INVALID_ACTION of [api.php], the answer of
    [ErrorResponse::output] keeps the code and the status it was given
    and carries the user message of UNKNOWN_ERROR; its message is the
    custom message, or that of UNKNOWN_ERROR when there is none. *)
Theorem output_falls_back_for_unknown_code (E : environment) (errorCode : string)
  (customMessage : option string) (httpCode : Z) (w : world) :
  ErrorResponse.entry ErrorResponse.errorMessages errorCode = None ->
  exists a error,
    ErrorResponse.output E errorCode customMessage httpCode w
    = (Returned a, {| requests := requests w; clock_reads := S (clock_reads w) |})
    /\ ErrorResponse.http_response_code a = httpCode
    /\ Value.lookup (ErrorResponse.response a) "error" = Some (VArr error)
    /\ Value.lookup error "code" = Some (VStr errorCode)
    /\ Value.lookup error "message"
       = Some (VStr (match customMessage with
                     | Some m => m
                     | None => "Unknown error occurred"
                     end))
    /\ Value.lookup error "user_message"
       = Some (VStr "予期しないエラーが発生しました。").
Proof.
  intros Hnone. unfold ErrorResponse.output, ErrorResponse.errorInfo. rewrite Hnone.
  do 2 eexists. split; [reflexivity|]. cbn.
  repeat split. now destruct customMessage.
Qed.

(** The answer of [api.php] to a GET request. *)
Lemma output_falls_back_witness :
  exists a error,
    ErrorResponse.output Reference.env "INVALID_REQUEST"
      (Some "Only POST method is allowed") 405 world0
    = (Returned a, {| requests := []; clock_reads := 1 |})
    /\ ErrorResponse.http_response_code a = 405
    /\ Value.lookup (ErrorResponse.response a) "error" = Some (VArr error)
    /\ Value.lookup error "code" = Some (VStr "INVALID_REQUEST")
    /\ Value.lookup error "message" = Some (VStr "Only POST method is allowed")
    /\ Value.lookup error "user_message"
       = Some (VStr "予期しないエラーが発生しました。").
Proof.
  apply (output_falls_back_for_unknown_code Reference.env "INVALID_REQUEST"
           (Some "Only POST method is allowed") 405 world0).
  reflexivity.
Defined.

(** ** The content of the posts of a response *)

Section ResponseFacts.

Local Open Scope list_scope.

Variable E : environment.

Lemma process_loop_notes (P : Note.t -> Prop) :
  (forall data w n w', Note.fromArray E data w = (Returned n, w') -> P n) ->
  forall items maxPosts st w r w',
    Forall P (Client.notes st) ->
    Client.process_loop E items maxPosts st w = (Returned r, w') ->
    Forall P (Client.notes r).
Proof.
  intros Hbuild. induction items as [|item items IH]; intros maxPosts st w r w' Hst H;
    cbn [Client.process_loop] in H.
  - apply ret_inv in H. destruct H as [<- _]. assumption.
  - destruct (maxPosts <=? Client.processedCount st).
    { apply ret_inv in H. destruct H as [<- _]. assumption. }
    apply bind_inv in H. destruct H as (x & w1 & _ & H).
    destruct x as [noteObject|]; [|now apply (IH _ _ _ _ _ Hst H)].
    apply bind_inv in H. destruct H as (valid & w2 & _ & H).
    destruct valid; [|apply (IH _ _ _ _ _) in H; assumption].
    apply bind_inv in H. destruct H as (data & w3 & _ & H).
    apply bind_inv in H. destruct H as (note & w4 & Hnote & H).
    apply (IH _ _ _ _ _) in H; [assumption|]. cbn [Client.notes].
    apply Forall_app. split; [assumption|].
    constructor; [|constructor]. eapply Hbuild, Hnote.
Qed.

Lemma map_snd_list_from (i : Z) (l : list value) : map snd (Value.list_from i l) = l.
Proof.
  revert i. induction l as [|v l IH]; intros i; [reflexivity|].
  cbn [Value.list_from map snd]. now rewrite IH.
Qed.

Lemma fetch_posts_notes (P : Note.t -> Prop) (this : Client.t) (actorUrl : string)
  (maxPosts : Z) (w w' : world) (res : Client.result) :
  (forall data w n w', Note.fromArray E data w = (Returned n, w') -> P n) ->
  Client.fetch E this actorUrl maxPosts w = (Returned res, w') ->
  Forall P (Client.posts res).
Proof.
  intros Hbuild H.
  destruct (fetch_posts_of_loop E _ _ _ _ _ _ H)
    as [-> | (items & w0 & r & w1 & Hr & ->)]; [constructor|].
  unfold Client.processOrderedItems in Hr.
  eapply (process_loop_notes P Hbuild); [|exact Hr]. constructor.
Qed.

End ResponseFacts.

(** In every response that the [fetch_posts] action assembles, the
    [content] of each post is what the sanitiser returned: it holds none
    of the bytes [<], [>], the double quote and the single quote, and
    has at most 10003 characters. *)
Theorem response_posts_are_inert (E : environment) (actor_url : string)
  (max_posts : option Z) (w w' : world) (data : array) :
  Api.fetch_posts E actor_url max_posts w = (Returned data, w') ->
  exists posts,
    Value.lookup data "posts" = Some (VArr posts)
    /\ Forall Shape.inert_post (map snd posts).
Proof.
  unfold Api.fetch_posts. intros H.
  apply bind_inv in H. destruct H as (res & w1 & Hfetch & H).
  apply ret_inv in H. destruct H as [<- _].
  eexists. split; [reflexivity|].
  unfold Value.list_array. rewrite map_snd_list_from. apply Forall_map.
  assert (forall d w0 n w0',
            Note.fromArray E d w0 = (Returned n, w0') ->
            exists text, Note.sanitizedContent n = Note.sanitizeContent E text)
    as Hbuild.
  { intros d w0 n w0' Hb.
    destruct (fromArray_returned E d w0 w0' n Hb)
      as (_ & _ & _ & _ & _ & _ & _ & _ & text & _ & Hs).
    now exists text. }
  eapply Forall_impl; [|exact (fetch_posts_notes E _ _ _ _ _ _ _ Hbuild Hfetch)].
  intros n [text Hn]. exists (Note.toArray n), (Note.sanitizedContent n).
  split; [reflexivity|]. split; [reflexivity|]. rewrite Hn.
  apply (EscapeFacts.sanitized_shape (html5_entity E) (Some Note.allowedTags) text).
Qed.

(** The two posts of the reference federation. *)
Lemma response_posts_are_inert_witness :
  exists data w' posts,
    Api.fetch_posts Reference.env Reference.actorUrl (Some 20) world0 = (Returned data, w')
    /\ Value.lookup data "posts" = Some (VArr posts)
    /\ length posts = 2%nat
    /\ Forall Shape.inert_post (map snd posts).
Proof.
  destruct (Api.fetch_posts Reference.env Reference.actorUrl (Some 20) world0)
    as [[data|t] w'] eqn:H; [|vm_compute in H; discriminate H].
  destruct (response_posts_are_inert Reference.env Reference.actorUrl (Some 20)
              world0 w' data H) as (posts & Hp & Hf).
  exists data, w', posts. split; [reflexivity|]. split; [exact Hp|].
  split; [|exact Hf].
  vm_compute in H. inversion H; subst data. vm_compute in Hp. inversion Hp. reflexivity.
Defined.

(** ** Sanitising what is already sanitised *)

Module IdempotenceFacts.

Import Ctype Php Shape.

Lemma blind_isalnum : blind isalnum.
Proof. intros c H. each_byte c. Qed.

Lemma blind_isdigit : blind isdigit.
Proof. intros c H. each_byte c. Qed.

Lemma blind_isxdigit : blind isxdigit.
Proof. intros c H. each_byte c. Qed.

Lemma blind_eq (d : ascii) : special d = false -> blind (fun c => ch_eq c d).
Proof.
  intros Hd c H. cbv beta. unfold ch_eq.
  destruct (Ascii.eqb_spec c d) as [->|]; [congruence | reflexivity].
Qed.

Lemma blind_x : blind (fun c => ch_eq (tolower c) "x").
Proof. intros c H. each_byte c. Qed.

Lemma alike_peek (f : ascii -> bool) (a b : string) :
  blind f -> alike a b -> f (peek a) = f (peek b).
Proof.
  intros Hf [|c a' b' Hc Hab|c a' b' Hc]; [reflexivity | reflexivity|].
  cbn [peek]. rewrite (Hf c Hc). symmetry. now apply Hf.
Qed.

Lemma special_amp : special "&" = true.
Proof. reflexivity. Qed.

Lemma alike_refl_escape (table : string -> bool) (s : string) :
  alike s (escape_html table s).
Proof.
  induction s as [|c s IH]; [constructor|].
  cbn [escape_html]. unfold special, markup_byte.
  destruct (ch_eq c "&") eqn:Ha.
  { destruct (starts_entity table s); cbn [append];
      apply alike_special; unfold special; now rewrite Ha. }
  destruct (ch_eq c DQUOTE) eqn:Hd.
  { cbn [append]. apply alike_special. unfold special, markup_byte.
    now rewrite Hd, !orb_true_r. }
  destruct (ch_eq c "'") eqn:Hs.
  { cbn [append]. apply alike_special. unfold special, markup_byte.
    now rewrite Hs, !orb_true_r. }
  destruct (ch_eq c "<") eqn:Hl.
  { cbn [append]. apply alike_special. unfold special, markup_byte.
    now rewrite Hl, !orb_true_r. }
  destruct (ch_eq c ">") eqn:Hg.
  { cbn [append]. apply alike_special. unfold special, markup_byte.
    now rewrite Hg, !orb_true_r. }
  cbn [append]. apply alike_byte; [|assumption].
  unfold special, markup_byte. now rewrite Ha, Hd, Hs, Hl, Hg.
Qed.

Lemma entity_name_alike (a b : string) :
  alike a b -> entity_name a = entity_name b.
Proof.
  induction 1 as [|c a b Hc Hab IH|c a b Hc]; [reflexivity| |].
  - cbn [entity_name]. now rewrite IH.
  - cbn [entity_name]. rewrite (blind_isalnum c Hc).
    now rewrite (blind_eq ";" eq_refl c Hc).
Qed.

Lemma strtol_digits_alike (hex : bool) (a b : string) :
  alike a b ->
  forall acc,
    fst (strtol_digits hex acc a) = fst (strtol_digits hex acc b)
    /\ alike (snd (strtol_digits hex acc a)) (snd (strtol_digits hex acc b)).
Proof.
  induction 1 as [|c a b Hc Hab IH|c a b Hc]; intros acc.
  - split; [reflexivity | constructor].
  - cbn [strtol_digits].
    destruct (if hex then isxdigit c else isdigit c); [apply IH|].
    split; [reflexivity | now constructor].
  - cbn [strtol_digits].
    assert ((if hex then isxdigit c else isdigit c) = false) as ->.
    { destruct hex; [now apply blind_isxdigit | now apply blind_isdigit]. }
    assert ((if hex then isxdigit "&" else isdigit "&") = false) as ->
      by now destruct hex.
    split; [reflexivity | now apply alike_special].
Qed.

Lemma process_numeric_entity_parts (s : string) :
  process_numeric_entity s
  = let hex := ch_eq (tolower (peek s)) "x" in
    let s1 := after_x hex s in
    if negb (if hex then isxdigit (peek s1) else isdigit (peek s1)) then false
    else ch_eq (peek (snd (strtol_digits hex 0 (after_0x hex s1)))) ";"
         && (fst (strtol_digits hex 0 (after_0x hex s1)) <=? 1114111).
Proof.
  unfold process_numeric_entity, after_x, after_0x. cbv zeta.
  destruct (negb _); [reflexivity|].
  now destruct (strtol_digits _ 0 _).
Qed.

Lemma after_x_alike (a b : string) :
  alike a b ->
  alike (after_x (ch_eq (tolower (peek a)) "x") a)
        (after_x (ch_eq (tolower (peek a)) "x") b).
Proof.
  intros [|c a' b' Hc Hab|c a' b' Hc]; unfold after_x; cbn [peek].
  - destruct (ch_eq _ _); constructor.
  - destruct (ch_eq _ _); [assumption | now constructor].
  - rewrite (blind_x c Hc). now apply alike_special.
Qed.

Lemma after_0x_special (hex : bool) (c : ascii) (r : string) :
  special c = true -> after_0x hex (String c r) = String c r.
Proof.
  intros Hc. unfold after_0x. destruct r as [|x [|d r]]; try reflexivity.
  now rewrite (blind_eq "0" eq_refl c Hc), andb_false_r.
Qed.

Lemma after_0x_alike (hex : bool) (a b : string) :
  alike a b -> alike (after_0x hex a) (after_0x hex b).
Proof.
  intros [|z a1 b1 Hz H1|c a' b' Hc].
  - constructor.
  - destruct H1 as [|x a2 b2 Hx H2|x a2 b2 Hx].
    + now repeat constructor.
    + destruct H2 as [|d a3 b3 Hd H3|d a3 b3 Hd].
      * now repeat constructor.
      * unfold after_0x.
        destruct (hex && ch_eq z "0" && ch_eq (tolower x) "x" && isxdigit d);
          now repeat constructor.
      * unfold after_0x. rewrite (blind_isxdigit d Hd), !andb_false_r.
        constructor; [assumption|]. constructor; [assumption|].
        now apply alike_special.
    + assert (after_0x hex (String z (String x a2)) = String z (String x a2)) as ->.
      { unfold after_0x. destruct a2; [reflexivity|].
        now rewrite (blind_x x Hx), andb_false_r. }
      assert (after_0x hex (String z (String "&" b2)) = String z (String "&" b2)) as ->.
      { unfold after_0x. destruct b2; [reflexivity|]. now rewrite !andb_false_r. }
      constructor; [assumption|]. now apply alike_special.
  - rewrite (after_0x_special hex c a' Hc), (after_0x_special hex "&" b' special_amp).
    now apply alike_special.
Qed.

Lemma process_numeric_entity_alike (a b : string) :
  alike a b -> process_numeric_entity a = process_numeric_entity b.
Proof.
  intros H. rewrite !process_numeric_entity_parts. cbv zeta.
  rewrite <- (alike_peek _ a b blind_x H).
  pose proof (after_x_alike a b H) as H1.
  set (hex := ch_eq (tolower (peek a)) "x") in *.
  rewrite <- (alike_peek _ _ _ blind_isxdigit H1), <- (alike_peek _ _ _ blind_isdigit H1).
  destruct (negb _); [reflexivity|].
  destruct (strtol_digits_alike hex _ _ (after_0x_alike hex _ _ H1) 0) as [Hv Hafter].
  rewrite Hv. now rewrite (alike_peek _ _ _ (blind_eq ";" eq_refl) Hafter).
Qed.

Lemma starts_entity_alike (table : string -> bool) (a b : string) :
  alike a b -> starts_entity table a = starts_entity table b.
Proof.
  intros H. pose proof (entity_name_alike a b H) as Hn.
  destruct H as [|c a' b' Hc Hab|c a' b' Hc]; [reflexivity| |].
  - unfold starts_entity. rewrite Hn.
    now rewrite (process_numeric_entity_alike a' b' Hab).
  - unfold starts_entity. rewrite (blind_eq "#" eq_refl c Hc).
    cbn [entity_name]. rewrite (blind_isalnum c Hc).
    now rewrite (blind_eq ";" eq_refl c Hc).
Qed.

(** Escaping twice is escaping once, when the table knows the five
    names that escaping writes. *)
Lemma escape_html_idem (table : string -> bool) (s : string) :
  table "amp" = true -> table "quot" = true -> table "apos" = true ->
  table "lt" = true -> table "gt" = true ->
  escape_html table (escape_html table s) = escape_html table s.
Proof.
  intros Hamp Hquot Hapos Hlt Hgt.
  induction s as [|c s IH]; [reflexivity|].
  cbn [escape_html].
  destruct (ch_eq c "&") eqn:Ha.
  { destruct (starts_entity table s) eqn:He; cbn [append escape_html].
    - rewrite <- (starts_entity_alike table _ _ (alike_refl_escape table s)), He.
      cbn. now rewrite IH.
    - cbn. now rewrite Hamp, IH. }
  destruct (ch_eq c DQUOTE) eqn:Hd; [cbn; now rewrite Hquot, IH|].
  destruct (ch_eq c "'") eqn:Hs; [cbn; now rewrite Hapos, IH|].
  destruct (ch_eq c "<") eqn:Hl; [cbn; now rewrite Hlt, IH|].
  destruct (ch_eq c ">") eqn:Hg; [cbn; now rewrite Hgt, IH|].
  cbn [append escape_html]. now rewrite Ha, Hd, Hs, Hl, Hg, IH.
Qed.

(** *** Escaping keeps UTF-8 valid *)

Lemma special_parts (c : ascii) :
  special c = false ->
  ch_eq c "&" = false /\ ch_eq c DQUOTE = false /\ ch_eq c "'" = false
  /\ ch_eq c "<" = false /\ ch_eq c ">" = false.
Proof. intros H. each_byte c; repeat split. Qed.

Lemma escape_html_byte (table : string -> bool) (c : ascii) (rest : string) :
  special c = false ->
  escape_html table (String c rest) = String c (escape_html table rest).
Proof.
  intros H. destruct (special_parts c H) as (Ha & Hd & Hs & Hl & Hg).
  cbn [escape_html]. now rewrite Ha, Hd, Hs, Hl, Hg.
Qed.

Lemma high_not_special (c : ascii) : (code c <? 128) = false -> special c = false.
Proof. intros H. each_byte c. Qed.

Lemma trail_not_special (c : ascii) : utf8_trail c = true -> special c = false.
Proof. intros H. each_byte c. Qed.

Lemma utf8_valid_ascii (c : ascii) (s : string) :
  (code c <? 128) = true -> utf8_valid (String c s) = utf8_valid s.
Proof. intros H. cbn [utf8_valid]. now rewrite H. Qed.

Lemma utf8_valid_escape (table : string -> bool) (n : nat) :
  forall s, (String.length s <= n)%nat -> utf8_valid s = true ->
            utf8_valid (escape_html table s) = true.
Proof.
  induction n as [|n IH]; intros s Hlen Hv.
  - destruct s; [reflexivity | cbn in Hlen; lia].
  - destruct s as [|c rest]; [reflexivity|]. cbn [String.length] in Hlen.
    cbn [utf8_valid] in Hv. destruct (code c <? 128) eqn:H1.
    + assert (utf8_valid (escape_html table rest) = true) as He
        by (apply IH; [lia | assumption]).
      cbn [escape_html].
      repeat match goal with
        | |- context [if ?b then _ else _] => destruct b
        end; cbn [append]; rewrite ?utf8_valid_ascii by reflexivity;
        try assumption.
      now rewrite utf8_valid_ascii by assumption.
    + rewrite (escape_html_byte table c rest (high_not_special c H1)).
      destruct (code c <? 194) eqn:H2; [discriminate|].
      destruct (code c <? 224) eqn:H3.
      { destruct rest as [|c1 rest1]; [discriminate|].
        apply andb_prop in Hv as [Ht Hv]. cbn [String.length] in Hlen.
        rewrite (escape_html_byte table c1 rest1 (trail_not_special c1 Ht)).
        cbn [utf8_valid]. rewrite H1, H2, H3, Ht. cbn [andb].
        apply IH; [lia | assumption]. }
      destruct (code c <? 240) eqn:H4.
      { destruct rest as [|c1 [|c2 rest2]]; try discriminate.
        apply andb_prop in Hv as [Hv Hr]. apply andb_prop in Hv as [Hv Hsur].
        apply andb_prop in Hv as [Hv Hmin]. apply andb_prop in Hv as [Ht1 Ht2].
        cbn [String.length] in Hlen.
        rewrite (escape_html_byte table c1 _ (trail_not_special c1 Ht1)).
        rewrite (escape_html_byte table c2 _ (trail_not_special c2 Ht2)).
        cbn [utf8_valid]. rewrite H1, H2, H3, H4, Ht1, Ht2, Hmin, Hsur. cbn [andb].
        apply IH; [lia | assumption]. }
      destruct (code c <? 245) eqn:H5; [|discriminate].
      destruct rest as [|c1 [|c2 [|c3 rest3]]]; try discriminate.
      apply andb_prop in Hv as [Hv Hr]. apply andb_prop in Hv as [Hv Hmax].
      apply andb_prop in Hv as [Hv Hmin]. apply andb_prop in Hv as [Hv Ht3].
      apply andb_prop in Hv as [Ht1 Ht2]. cbn [String.length] in Hlen.
      rewrite (escape_html_byte table c1 _ (trail_not_special c1 Ht1)).
      rewrite (escape_html_byte table c2 _ (trail_not_special c2 Ht2)).
      rewrite (escape_html_byte table c3 _ (trail_not_special c3 Ht3)).
      cbn [utf8_valid]. rewrite H1, H2, H3, H4, H5, Ht1, Ht2, Ht3, Hmin, Hmax.
      cbn [andb]. apply IH; [lia | assumption].
Qed.

Lemma htmlspecialchars_idem (table : string -> bool) (s : string) :
  table "amp" = true -> table "quot" = true -> table "apos" = true ->
  table "lt" = true -> table "gt" = true ->
  htmlspecialchars table (htmlspecialchars table s) = htmlspecialchars table s.
Proof.
  intros Hamp Hquot Hapos Hlt Hgt. unfold htmlspecialchars.
  destruct (utf8_valid s) eqn:Hv; [|reflexivity].
  rewrite (utf8_valid_escape table (String.length s) s (le_n _) Hv).
  now apply escape_html_idem.
Qed.

(** *** No NUL comes out of the tag filter *)

Lemma nul_free_append (a b : string) :
  nul_free (a ++ b) = nul_free a && nul_free b.
Proof. apply all_bytes_append. Qed.

Lemma nul_free_cons (c : ascii) (s : string) :
  nul_free (String c s) = negb (ch_eq c NUL) && nul_free s.
Proof. reflexivity. Qed.

Ltac nul_free_step Hn Hb :=
  repeat match goal with
    | |- context [if ?b then _ else _] => destruct b
    | |- context [match ?x with _ => _ end] => destruct x
    end;
  cbn [fst snd tbuf set_state set_depth set_in_q set_lc set_br set_is_xml set_tbuf];
  rewrite ?nul_free_append, ?nul_free_cons, ?Hn, ?Hb; try reflexivity.

Lemma step_nul_free (allow : option string) (m : stripper) (prev : list ascii)
  (c next : ascii) :
  nul_free (tbuf m) = true ->
  nul_free (fst (step allow m prev c next)) = true
  /\ nul_free (tbuf (snd (step allow m prev c next))) = true.
Proof.
  intros Hb. unfold step. destruct (state m).
  - unfold step0, push. destruct (ch_eq c NUL) eqn:Hn; [now split|].
    split; nul_free_step Hn Hb.
  - unfold step1, push, toggle_quote. destruct (ch_eq c NUL) eqn:Hn; [now split|].
    split; nul_free_step Hn Hb.
  - unfold step2, leave_tag, toggle_quote. split; nul_free_step Hb Hb.
  - unfold step3, leave_tag, toggle_quote. split; nul_free_step Hb Hb.
  - unfold step4, leave_tag. split; nul_free_step Hb Hb.
Qed.

Lemma strip_from_nul_free (allow : option string) (input : string) :
  forall m prev, nul_free (tbuf m) = true ->
                 nul_free (strip_from allow m prev input) = true.
Proof.
  induction input as [|c rest IH]; intros m prev Hb; [reflexivity|].
  rewrite StripFacts.strip_from_cons, nul_free_append.
  destruct (step_nul_free allow m prev c (peek rest) Hb) as [Hw Hb'].
  now rewrite Hw, IH.
Qed.

Lemma escape_html_nul_free (table : string -> bool) (s : string) :
  nul_free s = true -> nul_free (escape_html table s) = true.
Proof.
  induction s as [|c s IH]; [reflexivity|].
  unfold nul_free at 1. cbn [all_bytes]. intros H. apply andb_prop in H as [Hc H].
  cbn [escape_html]. rewrite nul_free_append, (IH H), andb_true_r.
  repeat match goal with
    | |- context [if ?b then _ else _] => destruct b
    end; try reflexivity.
  unfold nul_free. cbn [all_bytes]. now rewrite Hc.
Qed.

(** Text without NUL and without [<] goes through the tag filter as
    it is. *)
Lemma strip_tags_text (allow : option string) (s : string) :
  all_bytes Markup.text_byte s = true -> strip_tags s allow = s.
Proof.
  intros Ht.
  destruct (StripFacts.text_run allow stripper_init s "" StripFacts.idle_init Ht [])
    as [prev' Hrun].
  unfold strip_tags. rewrite append_nil_r in Hrun. rewrite Hrun.
  apply append_nil_r.
Qed.

Lemma text_of_escaped (s : string) :
  nul_free s = true -> markup_free s = true -> all_bytes Markup.text_byte s = true.
Proof.
  induction s as [|c s IH]; [reflexivity|].
  unfold nul_free, markup_free. cbn [all_bytes]. intros Hn Hm.
  apply andb_prop in Hn as [Hn Hns]. apply andb_prop in Hm as [Hm Hms].
  rewrite (IH Hns Hms), andb_true_r. unfold Markup.text_byte. rewrite Hn. cbn [andb].
  unfold markup_byte in Hm. now destruct (ch_eq c "<").
Qed.

(** Both sanitisers, run on what they returned without cutting. *)
Lemma sanitized_again (table : string -> bool) (allow : option string)
  (content : string) :
  table "amp" = true -> table "quot" = true -> table "apos" = true ->
  table "lt" = true -> table "gt" = true ->
  let sanitize := fun s =>
    let sanitized := htmlspecialchars table (strip_tags s allow) in
    if 10000 <? mb_strlen sanitized
    then mb_substr0 sanitized 10000 ++ "..."
    else sanitized in
  mb_strlen (sanitize content) <= 10000 ->
  sanitize (sanitize content) = sanitize content.
Proof.
  intros Hamp Hquot Hapos Hlt Hgt. cbv beta zeta.
  set (o := htmlspecialchars table (strip_tags content allow)).
  destruct (10000 <? mb_strlen o) eqn:Hlong.
  - intros Hshort. exfalso. rewrite EscapeFacts.mb_strlen_append in Hshort.
    unfold mb_substr0 in Hshort. rewrite SanitizeFacts.mb_strlen_mb_take in Hshort.
    apply Z.ltb_lt in Hlong. change (mb_strlen "...") with 3 in Hshort.
    rewrite Z2Nat.id in Hshort by lia. lia.
  - intros _.
    assert (strip_tags o allow = o) as ->.
    { apply strip_tags_text, text_of_escaped;
        [|apply EscapeFacts.htmlspecialchars_markup_free].
      unfold o, htmlspecialchars. destruct (utf8_valid _); [|reflexivity].
      apply escape_html_nul_free. unfold strip_tags. now apply strip_from_nul_free. }
    assert (htmlspecialchars table o = o) as ->
      by (unfold o; now apply htmlspecialchars_idem).
    now rewrite Hlong.
Qed.

End IdempotenceFacts.

(** When the table of entities knows the five names that escaping
    writes, and the sanitised content was not cut (it has at most 10000
    characters), sanitising it again with [Note::sanitizeContent] returns
    it unchanged. *)
Theorem sanitizeContent_is_idempotent (E : environment) (content : string) :
  html5_entity E "amp" = true -> html5_entity E "quot" = true ->
  html5_entity E "apos" = true -> html5_entity E "lt" = true ->
  html5_entity E "gt" = true ->
  Php.mb_strlen (Note.sanitizeContent E content) <= 10000 ->
  Note.sanitizeContent E (Note.sanitizeContent E content)
  = Note.sanitizeContent E content.
Proof.
  intros Hamp Hquot Hapos Hlt Hgt.
  apply (IdempotenceFacts.sanitized_again (html5_entity E) (Some Note.allowedTags)
           content Hamp Hquot Hapos Hlt Hgt).
Qed.

(** A paragraph with an ampersand and a quote, sanitised twice. *)
Lemma sanitizeContent_is_idempotent_witness :
  Note.sanitizeContent Reference.env "<p>Tom &amp; Jerry's <b>show</b> & more</p>"
  = "&lt;p&gt;Tom &amp; Jerry&apos;s &lt;b&gt;show&lt;/b&gt; &amp; more&lt;/p&gt;"
  /\ Note.sanitizeContent Reference.env
       (Note.sanitizeContent Reference.env "<p>Tom &amp; Jerry's <b>show</b> & more</p>")
     = Note.sanitizeContent Reference.env "<p>Tom &amp; Jerry's <b>show</b> & more</p>".
Proof.
  split; [vm_compute; reflexivity|].
  apply (sanitizeContent_is_idempotent Reference.env
           "<p>Tom &amp; Jerry's <b>show</b> & more</p>");
    try reflexivity.
  vm_compute. discriminate.
Defined.
